(** * Kitchen Knightmare: ingredient canonicalization, receipt parsing,
      shelf life and urgency ranking

    A shallow embedding of [src/lib/shelfLife.ts], [src/lib/receiptParser.ts],
    [src/lib/pantry.ts] and [recipeFallback] ([src/unnamed/part_003]), of
    the route that parses a receipt, and of the functions of the shelf-life
    route and of the home page that call them, followed by the properties
    established about them.

    Conventions.
    - A JavaScript string is a [string]: a sequence of 8-bit code units
      (the Latin-1 range of UTF-16).  On that range [toLowerCase], [trim],
      and the classes [\s], [\d], [\w] and the [i] flag of the regular
      expressions below coincide with their ECMAScript definitions.
    - A JavaScript number holding an integer is a [Z]; a number that may be
      [NaN] is an [option Z].  Integers are exact in a JavaScript number up
      to 2^53, which covers every time value of a [Date] and every
      difference between a time value and the present time.
    - The quantities of a receipt have no such bound: the parser reads them
      from digit strings of any length and adds them up.  They are
      doubles ([number]): the nearest double to the integer read, a tie
      going to the even significand, and the nearest double to each sum,
      with [Infinity] past the largest double.  For a string of more than
      20 significant digits the language lets [Number] round either of two
      decimal neighbours of the integer; the nearest double to the integer
      itself, which the engines return, is the nearest double to one of
      them.
    - Confidence scores are rationals ([Q]).  The only computed score is
      [1 - d / m] for a distance [d] and a length [m]; it reaches the
      threshold 0.55 only for [m <= 14], where it is farther from 0.55 and
      from every odd multiple of 0.005 than floating point rounding can
      move it, except for the eighths, which floating point represents
      exactly.  Comparing and rounding the rational therefore gives what
      the code computes.
    - Reading a property of an object literal walks the prototype chain, so
      [obj[k]] finds the members of [Object.prototype] as well as the keys
      written in the literal.
    - Reading the clock ([Date.now()], [new Date()]) is the one effect
      that is modelled, by a clock and a counter of the readings made; the
      identifier that [crypto.randomUUID()] draws is an argument. *)

From Stdlib Require Import List String Ascii Bool Arith ZArith NArith QArith Lia.
From Stdlib Require Import Qround Sorted Permutation DecimalString Lqa.
Import ListNotations.

(* ================================================================== *)
(** ** JavaScript values and strings *)

Module JS.

Local Open Scope char_scope.

Definition code (c : ascii) : N := N_of_ascii c.

Definition inRange (lo hi c : ascii) : bool :=
  ((code lo <=? code c) && (code c <=? code hi))%N.

Definition isDigit (c : ascii) : bool := inRange "0" "9" c.
Definition isUpper (c : ascii) : bool := inRange "A" "Z" c.
Definition isLower (c : ascii) : bool := inRange "a" "z" c.

(** [\w] *)
Definition isWord (c : ascii) : bool :=
  isLower c || isUpper c || isDigit c || Ascii.eqb c "_".

(** [\s], and the characters removed by [trim]: TAB, LF, VT, FF, CR, space
    and NBSP. *)
Definition isSpace (c : ascii) : bool :=
  ((9 <=? code c) && (code c <=? 13) || (code c =? 32) || (code c =? 160))%N.

(** [String.prototype.toLowerCase] on one code unit. *)
Definition lowerChar (c : ascii) : ascii :=
  if isUpper c then ascii_of_N (code c + 32)
  else if ((192 <=? code c) && (code c <=? 222) && negb (code c =? 215))%N
       then ascii_of_N (code c + 32)
       else c.

Definition chars (s : string) : list ascii := list_ascii_of_string s.
Definition str (l : list ascii) : string := string_of_list_ascii l.

Definition toLowerCase (s : string) : string := str (map lowerChar (chars s)).

Fixpoint dropSpaces (l : list ascii) : list ascii :=
  match l with
  | c :: l' => if isSpace c then dropSpaces l' else l
  | [] => []
  end.

Definition trim (s : string) : string :=
  str (rev (dropSpaces (rev (dropSpaces (chars s))))).

(** Exceptions thrown by the built-ins that the code calls. *)
Inductive exn := TypeError | RangeError.

Inductive result (A : Type) :=
| Ok (a : A)
| Throw (e : exn).
Arguments Ok {A} a.
Arguments Throw {A} e.

(** A value held in a place the code declares with type [A]: a genuine
    [A], or the member [k] of [Object.prototype], which a property read
    returns for a key that the object literal does not define. *)
Inductive value (A : Type) :=
| Just (a : A)
| Member (k : string).
Arguments Just {A} a.
Arguments Member {A} k.

Local Open Scope string_scope.

(** [v === s] for a string [s]. *)
Definition strictEq (v : value string) (s : string) : bool :=
  match v with
  | Just x => String.eqb x s
  | Member _ => false
  end.

(** The own property names of [Object.prototype]. *)
Definition objectPrototype : list string :=
  [ "constructor"; "hasOwnProperty"; "isPrototypeOf"; "propertyIsEnumerable";
    "toLocaleString"; "toString"; "valueOf"; "__proto__";
    "__defineGetter__"; "__defineSetter__"; "__lookupGetter__";
    "__lookupSetter__" ].

Fixpoint assoc {A : Type} (k : string) (l : list (string * A)) : option A :=
  match l with
  | (k', v) :: l' => if String.eqb k k' then Some v else assoc k l'
  | [] => None
  end.

Definition inb (k : string) (l : list string) : bool :=
  existsb (String.eqb k) l.

(** [obj[k]] for an object literal [obj]; [None] is [undefined]. *)
Definition getProperty {A : Type} (obj : list (string * A)) (k : string)
  : option (value A) :=
  match assoc k obj with
  | Some v => Some (Just v)
  | None => if inb k objectPrototype then Some (Member k) else None
  end.

(** [Object.keys(obj)]: the keys of the literal in the order written
    (none of the keys below is an array index). *)
Definition keys {A : Type} (obj : list (string * A)) : list string :=
  map fst obj.

(** ToBoolean of a property that holds a string, and of one that holds a
    number; the members of [Object.prototype] are functions and objects. *)
Definition truthyString (v : option (value string)) : bool :=
  match v with
  | None => false
  | Some (Just s) => negb (String.eqb s "")
  | Some (Member _) => true
  end.

Definition truthyNumber (v : option (value Z)) : bool :=
  match v with
  | None => false
  | Some (Just n) => negb (Z.eqb n 0)
  | Some (Member _) => true
  end.

(** ToString, as a template literal computes it. *)
Definition toString (v : value string) : string :=
  match v with
  | Just s => s
  | Member k =>
      if String.eqb k "__proto__" then "[object Object]"
      else "function " ++ (if String.eqb k "constructor" then "Object" else k)
           ++ "() { [native code] }"
  end.

(** [ToNumber(a + b)] for a number [a] ([None] is [NaN]): the sum when [b]
    is a number; otherwise [a + b] is the text of [a] followed by the text
    of the member, which is no numeric literal. *)
Definition plusToNumber (a : option Z) (b : value Z) : option Z :=
  match a, b with
  | Some x, Just n => Some (x + n)%Z
  | _, _ => None
  end.

(** The integer that a string of decimal digits denotes. *)
Definition digitsToZ (l : list ascii) : Z :=
  fold_left (fun acc c => (10 * acc + Z.of_N (code c - 48))%Z) l 0%Z.

(** The numbers that the quantities of a receipt are: [Number(s)] for a
    string [s] of decimal digits, and the sums of such numbers.  Each is a
    double that holds an integer that is not negative, or it is
    [Infinity]. *)
Inductive number :=
| Finite (n : Z)
| Infinity.

(** The integer of the double nearest to the integer [n >= 0], a tie going
    to the even significand.  Below 2^53 it is [n].  From there on, with
    [e = floor(log2 n) - 52], [n] lies from [2^(52+e)] to [2^(53+e)],
    where the doubles are the multiples of [2^e]. *)
Definition roundEven (n : Z) : Z :=
  if (n <? 2 ^ 53)%Z then n
  else
    let e := (Z.log2 n - 52)%Z in
    let q := (n / 2 ^ e)%Z in
    let r := (n mod 2 ^ e)%Z in
    let half := (2 ^ (e - 1))%Z in
    if (half <? r)%Z || ((r =? half)%Z && Z.odd q)
    then ((q + 1) * 2 ^ e)%Z
    else (q * 2 ^ e)%Z.

(** The number value of the integer [n >= 0]: the nearest double, which is
    [Infinity] from 2^1024 on. *)
Definition fromInteger (n : Z) : number :=
  let m := roundEven n in
  if (m <? 2 ^ 1024)%Z then Finite m else Infinity.

(** [Number(s)] for a string [s] of decimal digits. *)
Definition toNumber (l : list ascii) : number := fromInteger (digitsToZ l).

(** [a + b]: the number value of the sum. *)
Definition add (a b : number) : number :=
  match a, b with
  | Finite x, Finite y => fromInteger (x + y)
  | _, _ => Infinity
  end.

End JS.

(* ================================================================== *)
(** ** Regular expressions

    The patterns of the source are written as terms of [regex] and run by a
    backtracking matcher with the priorities of ECMAScript: alternatives
    left to right, quantifiers greedy. *)

Module Regex.

Import JS.

Inductive regex :=
| Eps
| Class (p : ascii -> bool)
| Cat (r1 r2 : regex)
| Or (r1 r2 : regex)
| Star (r : regex)
| Bol
| Eol
| WordB
| Group (r : regex).

Definition Plus (r : regex) : regex := Cat r (Star r).
Definition Opt (r : regex) : regex := Or r Eps.

Definition chr (c : ascii) : regex := Class (Ascii.eqb c).
(** A literal character under the [i] flag. *)
Definition chrI (c : ascii) : regex :=
  Class (fun x => Ascii.eqb (lowerChar x) (lowerChar c)).

Fixpoint lit (s : string) : regex :=
  match s with
  | EmptyString => Eps
  | String c EmptyString => chr c
  | String c s' => Cat (chr c) (lit s')
  end.

Fixpoint litI (s : string) : regex :=
  match s with
  | EmptyString => Eps
  | String c EmptyString => chrI c
  | String c s' => Cat (chrI c) (litI s')
  end.

Definition oneOf (s : string) : regex :=
  Class (fun x => existsb (Ascii.eqb x) (chars s)).

Definition digit : regex := Class isDigit.
Definition space : regex := Class isSpace.

Definition wordBefore (prev : option ascii) : bool :=
  match prev with Some c => isWord c | None => false end.
Definition wordAfter (s : list ascii) : bool :=
  match s with c :: _ => isWord c | [] => false end.

(** [rmatch r prev s cap k]: match [r] at the position whose preceding
    character is [prev] and whose remaining input is [s]; [cap] is the
    text of the capture group; [k] is the rest of the pattern. *)
Fixpoint rmatch {A : Type} (r : regex) (prev : option ascii) (s : list ascii)
         (cap : option (list ascii))
         (k : option ascii -> list ascii -> option (list ascii) -> option A)
         {struct r} : option A :=
  match r with
  | Eps => k prev s cap
  | Class p =>
      match s with
      | c :: s' => if p c then k (Some c) s' cap else None
      | [] => None
      end
  | Cat r1 r2 =>
      rmatch r1 prev s cap (fun prev' s' cap' => rmatch r2 prev' s' cap' k)
  | Or r1 r2 =>
      match rmatch r1 prev s cap k with
      | Some a => Some a
      | None => rmatch r2 prev s cap k
      end
  | Star r1 =>
      (fix loop (fuel : nat) (prev : option ascii) (s : list ascii)
           (cap : option (list ascii)) {struct fuel} : option A :=
         match fuel with
         | O => k prev s cap
         | S fuel' =>
             match rmatch r1 prev s cap
                     (fun prev' s' cap' =>
                        if (List.length s' <? List.length s)%nat
                        then loop fuel' prev' s' cap' else None) with
             | Some a => Some a
             | None => k prev s cap
             end
         end) (List.length s) prev s cap
  | Bol => match prev with None => k prev s cap | Some _ => None end
  | Eol => match s with [] => k prev s cap | _ :: _ => None end
  | WordB =>
      if xorb (wordBefore prev) (wordAfter s) then k prev s cap else None
  | Group r1 =>
      rmatch r1 prev s cap
        (fun prev' s' _ =>
           k prev' s' (Some (firstn (List.length s - List.length s') s)))
  end.

(** A match attempt at one position: the remaining input after the match
    and the capture. *)
Definition matchAt (r : regex) (prev : option ascii) (s : list ascii)
  : option (list ascii * option (list ascii)) :=
  rmatch r prev s None (fun _ s' cap => Some (s', cap)).

(** The leftmost match, as [RegExp.prototype.exec] finds it. *)
Fixpoint execFrom (r : regex) (prev : option ascii) (s : list ascii)
  : option (list ascii * option (list ascii)) :=
  match matchAt r prev s with
  | Some m => Some m
  | None =>
      match s with
      | c :: s' => execFrom r (Some c) s'
      | [] => None
      end
  end.

(** [r.test(s)] *)
Definition test (r : regex) (s : string) : bool :=
  match execFrom r None (chars s) with Some _ => true | None => false end.

(** [s.match(r)[1]] for a pattern without the [g] flag. *)
Definition firstCapture (r : regex) (s : string) : option (list ascii) :=
  match execFrom r None (chars s) with
  | Some (_, cap) => Some (match cap with Some c => c | None => [] end)
  | None => None
  end.

(** [s.replace(r, rep)] for a pattern with the [g] flag.  [skip] counts the
    characters of the current match still to be dropped. *)
Fixpoint replaceGo (r : regex) (rep : list ascii) (prev : option ascii)
         (s : list ascii) (skip : nat) : list ascii :=
  match s with
  | [] =>
      match skip, matchAt r prev [] with
      | O, Some _ => rep
      | _, _ => []
      end
  | c :: s' =>
      match skip with
      | S n => replaceGo r rep (Some c) s' n
      | O =>
          match matchAt r prev s with
          | Some (rest, _) =>
              match (List.length s - List.length rest)%nat with
              | O => rep ++ c :: replaceGo r rep (Some c) s' 0
              | S n => rep ++ replaceGo r rep (Some c) s' n
              end
          | None => c :: replaceGo r rep (Some c) s' 0
          end
      end
  end.

Definition replaceAll (r : regex) (rep : string) (s : string) : string :=
  str (replaceGo r (chars rep) None (chars s) 0).

(** [s.split(r)] for a separator that matches no empty string. *)
Fixpoint splitGo (r : regex) (prev : option ascii) (s : list ascii)
         (skip : nat) (piece : list ascii) : list (list ascii) :=
  match s with
  | [] => [rev piece]
  | c :: s' =>
      match skip with
      | S n => splitGo r (Some c) s' n piece
      | O =>
          match matchAt r prev s with
          | Some (rest, _) =>
              match (List.length s - List.length rest)%nat with
              | O => splitGo r (Some c) s' 0 (c :: piece)
              | S n => rev piece :: splitGo r (Some c) s' n []
              end
          | None => splitGo r (Some c) s' 0 (c :: piece)
          end
      end
  end.

Definition split (r : regex) (s : string) : list string :=
  match s with
  | EmptyString => [EmptyString]
  | _ => map str (splitGo r None (chars s) 0 [])
  end.

End Regex.


(* ================================================================== *)
(** ** The [Date] built-in

    Time values are milliseconds since the epoch; [None] is the time value
    [NaN] of an invalid date.  The definitions follow the abstract
    operations of ECMA-262 (Day, TimeWithinDay, DayFromYear, YearFromTime,
    MonthFromTime, DateFromTime, MakeDay, MakeTime, MakeDate, TimeClip). *)

Module JSDate.

Import JS.
Local Open Scope string_scope.
Local Open Scope Z_scope.

(** What the host decides: the offset of local time ([LocalTZA t isUTC]),
    and how [Date.parse] reads a string that is not in the date-time format
    modelled by [parseFormat] below. *)
Record Host := {
  LocalTZA : Z -> bool -> Z;
  fallbackParse : string -> option Z
}.

Definition msPerDay : Z := 86400000.
Definition msPerHour : Z := 3600000.
Definition msPerMinute : Z := 60000.
Definition msPerSecond : Z := 1000.

Definition Day (t : Z) : Z := t / msPerDay.
Definition TimeWithinDay (t : Z) : Z := t mod msPerDay.

Definition DaysInYear (y : Z) : Z :=
  if negb (y mod 4 =? 0) then 365
  else if negb (y mod 100 =? 0) then 366
  else if negb (y mod 400 =? 0) then 365
  else 366.

Definition DayFromYear (y : Z) : Z :=
  365 * (y - 1970) + (y - 1969) / 4 - (y - 1901) / 100 + (y - 1601) / 400.

(** The largest [y] with [DayFromYear y <= Day t], found from an estimate
    that is off by at most one. *)
Definition YearFromTime (t : Z) : Z :=
  let d := Day t in
  let y := 1970 + (d * 400) / 146097 in
  if DayFromYear (y + 1) <=? d then y + 1
  else if DayFromYear y <=? d then y
  else y - 1.

Definition leapDays (y : Z) : Z := DaysInYear y - 365.

Definition DayWithinYear (t : Z) : Z := Day t - DayFromYear (YearFromTime t).

(** The day within the year on which month [m] (0 to 11) starts. *)
Definition monthStart (leap m : Z) : Z :=
  match m with
  | 0 => 0
  | 1 => 31
  | 2 => 59 + leap
  | 3 => 90 + leap
  | 4 => 120 + leap
  | 5 => 151 + leap
  | 6 => 181 + leap
  | 7 => 212 + leap
  | 8 => 243 + leap
  | 9 => 273 + leap
  | 10 => 304 + leap
  | _ => 334 + leap
  end.

Definition MonthFromTime (t : Z) : Z :=
  let d := DayWithinYear t in
  let leap := leapDays (YearFromTime t) in
  if d <? 31 then 0
  else if d <? 59 + leap then 1
  else if d <? 90 + leap then 2
  else if d <? 120 + leap then 3
  else if d <? 151 + leap then 4
  else if d <? 181 + leap then 5
  else if d <? 212 + leap then 6
  else if d <? 243 + leap then 7
  else if d <? 273 + leap then 8
  else if d <? 304 + leap then 9
  else if d <? 334 + leap then 10
  else 11.

Definition DateFromTime (t : Z) : Z :=
  DayWithinYear t - monthStart (leapDays (YearFromTime t)) (MonthFromTime t) + 1.

Definition MakeTime (hour min sec ms : Z) : Z :=
  hour * msPerHour + min * msPerMinute + sec * msPerSecond + ms.

Definition MakeDay (year month date : Z) : Z :=
  let ym := year + month / 12 in
  let mn := month mod 12 in
  DayFromYear ym + monthStart (leapDays ym) mn + date - 1.

Definition MakeDate (day time : Z) : Z := day * msPerDay + time.

Definition TimeClip (t : Z) : option Z :=
  if 8640000000000000 <? Z.abs t then None else Some t.

Definition LocalTime (h : Host) (t : Z) : Z := t + LocalTZA h t true.
Definition UTC (h : Host) (t : Z) : Z := t - LocalTZA h t false.

(** *** Parsing *)

Definition digits (l : list ascii) : option Z :=
  if forallb isDigit l then Some (digitsToZ l) else None.

Definition daysInMonth (y m : Z) : Z :=
  match m with
  | 2 => 28 + leapDays y
  | 4 | 6 | 9 | 11 => 30
  | _ => 31
  end.

(** The time of day of [THH:mm], [THH:mm:ss] and [THH:mm:ss.sss], and
    whether a [Z] follows. *)
Definition parseTime (l : list ascii) : option (Z * bool) :=
  let zone rest :=
    match rest with
    | [] => Some false
    | ["Z"%char] => Some true
    | _ => None
    end in
  match l with
  | "T"%char :: h1 :: h2 :: ":"%char :: m1 :: m2 :: rest =>
      match digits [h1; h2], digits [m1; m2] with
      | Some hh, Some mm =>
          let finish ss ms rest' :=
            match zone rest' with
            | Some z =>
                if (hh <=? 23) && (mm <=? 59) && (ss <=? 59)
                   || (hh =? 24) && (mm =? 0) && (ss =? 0) && (ms =? 0)
                then Some (MakeTime hh mm ss ms, z) else None
            | None => None
            end in
          match rest with
          | ":"%char :: s1 :: s2 :: "."%char :: f1 :: f2 :: f3 :: rest' =>
              match digits [s1; s2], digits [f1; f2; f3] with
              | Some ss, Some ms => finish ss ms rest'
              | _, _ => None
              end
          | ":"%char :: s1 :: s2 :: rest' =>
              match digits [s1; s2] with
              | Some ss => finish ss 0 rest'
              | None => None
              end
          | rest' => finish 0 0 rest'
          end
      | _, _ => None
      end
  | _ => None
  end.

(** The forms [YYYY-MM-DD], [YYYY-MM-DDTHH:mm], [YYYY-MM-DDTHH:mm:ss] and
    [YYYY-MM-DDTHH:mm:ss.sss], the last three with or without [Z], of the
    date-time string format: a date alone is UTC, a date and time without
    [Z] is local time.  [None]: the string is not of these forms. *)
Definition parseFormat (h : Host) (s : string) : option Z :=
  match chars s with
  | y1 :: y2 :: y3 :: y4 :: "-"%char :: m1 :: m2 :: "-"%char :: d1 :: d2 :: rest =>
      match digits [y1; y2; y3; y4], digits [m1; m2], digits [d1; d2] with
      | Some y, Some m, Some d =>
          if (1 <=? m) && (m <=? 12) && (1 <=? d) && (d <=? daysInMonth y m)
          then
            let day := MakeDay y (m - 1) d in
            match rest with
            | [] => Some (MakeDate day 0)
            | _ =>
                match parseTime rest with
                | Some (time, true) => Some (MakeDate day time)
                | Some (time, false) => Some (UTC h (MakeDate day time))
                | None => None
                end
            end
          else None
      | _, _, _ => None
      end
  | _ => None
  end.

(** [new Date(s)]: the time value of the new object. *)
Definition newDate (h : Host) (s : string) : option Z :=
  match (match parseFormat h s with
         | Some t => Some t
         | None => fallbackParse h s
         end) with
  | Some t => TimeClip t
  | None => None
  end.

(** *** Methods, as functions of the time value of the receiver *)

Definition getTime (tv : option Z) : option Z := tv.

Definition getDate (h : Host) (tv : option Z) : option Z :=
  match tv with
  | Some t => Some (DateFromTime (LocalTime h t))
  | None => None
  end.

(** The time value of the receiver after [setDate(dt)]. *)
Definition setDate (h : Host) (tv : option Z) (dt : option Z) : option Z :=
  match tv, dt with
  | Some t, Some d =>
      let lt := LocalTime h t in
      TimeClip (UTC h (MakeDate
        (MakeDay (YearFromTime lt) (MonthFromTime lt) d) (TimeWithinDay lt)))
  | _, _ => None
  end.

Definition pad (width : nat) (n : Z) : string :=
  let s := NilEmpty.string_of_uint (N.to_uint (Z.to_N n)) in
  str (repeat "0"%char (width - String.length s)) ++ s.

Definition formatTime (t : Z) : string :=
  let y := YearFromTime t in
  let w := TimeWithinDay t in
  (if (0 <=? y) && (y <=? 9999) then pad 4 y
   else (if y <? 0 then "-" else "+") ++ pad 6 (Z.abs y))
  ++ "-" ++ pad 2 (MonthFromTime t + 1) ++ "-" ++ pad 2 (DateFromTime t)
  ++ "T" ++ pad 2 (w / msPerHour) ++ ":" ++ pad 2 (w mod msPerHour / msPerMinute)
  ++ ":" ++ pad 2 (w mod msPerMinute / msPerSecond)
  ++ "." ++ pad 3 (w mod msPerSecond) ++ "Z".

Definition toISOString (tv : option Z) : result string :=
  match tv with
  | Some t => Ok (formatTime t)
  | None => Throw RangeError
  end.

(** *** The wall clock

    [Date.now()] is the only effect of the code: [clock n] is the instant
    that the read number [n] returns, and a computation maps the number of
    reads made before it to its result and the number of reads after it. *)

Definition Clock : Type := nat -> Z.

Definition Eff (A : Type) : Type := nat -> A * nat.

Definition ret {A : Type} (a : A) : Eff A := fun n => (a, n).

Definition bind {A B : Type} (c : Eff A) (f : A -> Eff B) : Eff B :=
  fun n => let (a, n') := c n in f a n'.

Definition now (clock : Clock) : Eff Z := fun n => (clock n, S n).

Fixpoint mapM {A B : Type} (f : A -> Eff B) (l : list A) : Eff (list B) :=
  match l with
  | [] => ret []
  | a :: l' => bind (f a) (fun b => bind (mapM f l') (fun bs => ret (b :: bs)))
  end.

(** [Math.ceil(a / b)] for integers [a] and [b > 0]. *)
Definition ceilDiv (a b : Z) : Z := - ((- a) / b).

(** The host whose local time is UTC and which parses nothing beyond the
    modelled format. *)
Definition utcHost : Host :=
  {| LocalTZA := fun _ _ => 0; fallbackParse := fun _ => None |}.

End JSDate.

(* ================================================================== *)
(** ** Records of [src/lib/types.ts] *)

Module ParsedReceiptItem.
Record t := make {
  rawLine : string;
  canonicalName : JS.value string;
  displayName : JS.value string;
  quantity : JS.number;
  unit : string;
  confidence : Q
}.
End ParsedReceiptItem.

Inductive ItemSource := manual | receipt.

Module InventoryItem.
Record t := make {
  id : string;
  canonicalName : string;
  displayName : string;
  quantity : Z;
  unit : string;
  purchaseDate : string;
  computedExpirationDate : string;
  overrideExpirationDate : option string;
  source : ItemSource;
  createdAt : string;
  updatedAt : string
}.
End InventoryItem.

Module RecipeSuggestion.
Record t := make {
  title : string;
  pantryIngredientsUsed : list string;
  missingIngredients : list string;
  steps : list string;
  estimatedCookingTimeMinutes : Z
}.
End RecipeSuggestion.

Module RankedIngredient.
(** [daysUntilExpiration] and [urgencyScore] are [None] when they are
    [NaN]. *)
Record t := make {
  canonicalName : string;
  displayName : string;
  daysUntilExpiration : option Z;
  urgencyScore : option Z
}.
End RankedIngredient.

(* ================================================================== *)
(** ** [src/lib/shelfLife.ts]: tables and canonicalization *)

Module ShelfLife.

Import JS.
Local Open Scope string_scope.

Definition DEFAULT_SHELF_LIFE_DAYS : Z := 7.

Definition SHELF_LIFE_BY_INGREDIENT : list (string * Z) :=
  [ ("apple", 30); ("banana", 5); ("beef", 4); ("bread", 7);
    ("broccoli", 7); ("butter", 30); ("carrot", 21); ("cheese", 28);
    ("chicken", 2); ("cilantro", 4); ("cucumber", 7); ("egg", 21);
    ("fish", 2); ("garlic", 45); ("lettuce", 7); ("milk", 7);
    ("onion", 30); ("potato", 30); ("spinach", 5); ("tomato", 10);
    ("yogurt", 14) ]%Z.

Definition INGREDIENT_ALIASES : list (string * string) :=
  [ ("apples", "apple"); ("bananas", "banana"); ("eggs", "egg");
    ("tomatoes", "tomato"); ("potatoes", "potato"); ("onions", "onion");
    ("lettuces", "lettuce"); ("bnna", "banana"); ("orgbnna", "banana");
    ("mlk", "milk"); ("chk", "chicken"); ("chkn", "chicken");
    ("tom", "tomato"); ("yog", "yogurt") ].

(** [value.toLowerCase().replace(/[^a-z]/g, '')] *)
Definition normalizeToken (value : string) : string :=
  str (filter isLower (chars (toLowerCase value))).

Definition cost (x y : ascii) : nat := if Ascii.eqb x y then 0 else 1.

(** The cells [matrix[row][1..]] of one row, from the row [above] (cells
    [matrix[row-1][0..]]) and the cell [left] ([matrix[row][col-1]]). *)
Fixpoint fillRow (ca : ascii) (b : list ascii) (above : list nat)
         (left : nat) : list nat :=
  match b, above with
  | cb :: b', diag :: ((up :: _) as above') =>
      let cell := Nat.min (Nat.min (up + 1) (left + 1)) (diag + cost ca cb) in
      cell :: fillRow ca b' above' cell
  | _, _ => []
  end.

(** The last row of the matrix: [above] is row [row - 1], and column 0 of
    row [row] holds [row]. *)
Fixpoint fillRows (a b : list ascii) (above : list nat) (row : nat)
  : list nat :=
  match a with
  | [] => above
  | ca :: a' => fillRows a' b (row :: fillRow ca b above row) (S row)
  end.

Definition levenshteinDistance (a b : string) : nat :=
  last (fillRows (chars a) (chars b) (seq 0 (S (String.length b))) 1) 0%nat.

Record canonical := { canonicalName : value string; confidence : Q }.

(** One iteration of the loop over [Object.keys(SHELF_LIFE_BY_INGREDIENT)];
    a [bestDistance] of [None] is [Number.POSITIVE_INFINITY]. *)
Definition bestStep (normalized : string) (best : string * option nat)
           (key : string) : string * option nat :=
  let distance := levenshteinDistance normalized key in
  match snd best with
  | None => (key, Some distance)
  | Some bestDistance =>
      if (distance <? bestDistance)%nat then (key, Some distance) else best
  end.

Definition bestMatchFor (normalized : string) : string * option nat :=
  fold_left (bestStep normalized) (keys SHELF_LIFE_BY_INGREDIENT)
            ("unknown", None).

Definition natQ (n : nat) : Q := inject_Z (Z.of_nat n).

(** [1 - bestDistance / maxLength] *)
Definition similarityOf (bestDistance maxLength : nat) : Q :=
  if (maxLength =? 0)%nat then 0%Q
  else (1 - natQ bestDistance / natQ maxLength)%Q.

(** [Number(x.toFixed(2))] for [x >= 0]: the nearest multiple of 0.01, the
    larger one when two are equally near. *)
Definition toFixed2 (x : Q) : Q := Qfloor (x * 100 + (1 # 2))%Q # 100.

Definition canonicalizeIngredient (rawName : string) : canonical :=
  let normalized := normalizeToken rawName in
  if String.eqb normalized "" then
    {| canonicalName := Just "unknown"; confidence := 0%Q |}
  else
    let aliasMatch := getProperty INGREDIENT_ALIASES normalized in
    match aliasMatch, truthyString aliasMatch with
    | Some alias, true => {| canonicalName := alias; confidence := 0.95%Q |}
    | _, _ =>
        if truthyNumber (getProperty SHELF_LIFE_BY_INGREDIENT normalized)
        then {| canonicalName := Just normalized; confidence := 1%Q |}
        else
          let (bestMatch, bestDistance) := bestMatchFor normalized in
          let maxLength :=
            Nat.max (String.length bestMatch) (String.length normalized) in
          match bestDistance with
          | Some d =>
              let similarity := similarityOf d maxLength in
              if Qle_bool 0.55%Q similarity then
                {| canonicalName := Just bestMatch;
                   confidence := toFixed2 similarity |}
              else {| canonicalName := Just normalized; confidence := 0.5%Q |}
          | None => {| canonicalName := Just normalized; confidence := 0.5%Q |}
          end
    end.

(** [canonicalizeIngredient] applied to a value of the declared type
    [string]: a value that is no string has no [toLowerCase] method. *)
Definition canonicalizeValue (v : value string) : result canonical :=
  match v with
  | Just s => Ok (canonicalizeIngredient s)
  | Member _ => Throw TypeError
  end.

(** [SHELF_LIFE_BY_INGREDIENT[canonicalName] ?? DEFAULT_SHELF_LIFE_DAYS] *)
Definition getShelfLifeDays (canonicalName : string) : value Z :=
  match getProperty SHELF_LIFE_BY_INGREDIENT canonicalName with
  | Some v => v
  | None => Just DEFAULT_SHELF_LIFE_DAYS
  end.

Definition expirationDateForItem (h : JSDate.Host) (canonicalName : string)
           (purchaseDate : string) (overrideExpirationDate : option string)
  : result string :=
  let computed :=
    let expiration := JSDate.newDate h purchaseDate in
    let expiration :=
      JSDate.setDate h expiration
        (plusToNumber (JSDate.getDate h expiration)
                      (getShelfLifeDays canonicalName)) in
    JSDate.toISOString expiration in
  match overrideExpirationDate with
  | Some override =>
      if negb (String.eqb override "")
      then JSDate.toISOString (JSDate.newDate h override)
      else computed
  | None => computed
  end.

(** [estimateExpirationDate]: the purchase date defaults to
    [new Date().toISOString()], which reads the clock; the property read
    inside [getShelfLifeDays] converts its key to a string. *)
Definition estimateExpirationDate (h : JSDate.Host) (clock : JSDate.Clock)
           (ingredientName : string) (purchaseDateIso : option string)
  : JSDate.Eff (result string) :=
  JSDate.bind
    (match purchaseDateIso with
     | Some iso => JSDate.ret (Ok iso)
     | None =>
         JSDate.bind (JSDate.now clock) (fun t =>
         JSDate.ret (JSDate.toISOString (JSDate.TimeClip t)))
     end) (fun purchase =>
  JSDate.ret
    (match purchase with
     | Throw e => Throw e
     | Ok purchaseDateIso =>
         let canonicalName :=
           canonicalName (canonicalizeIngredient ingredientName) in
         let shelfLifeDays := getShelfLifeDays (toString canonicalName) in
         let expiration := JSDate.newDate h purchaseDateIso in
         let expiration :=
           JSDate.setDate h expiration
             (plusToNumber (JSDate.getDate h expiration) shelfLifeDays) in
         JSDate.toISOString expiration
     end)).

Definition daysUntil (h : JSDate.Host) (clock : JSDate.Clock)
           (dateIso : string) : JSDate.Eff (option Z) :=
  JSDate.bind (JSDate.now clock) (fun now =>
  let target := JSDate.getTime (JSDate.newDate h dateIso) in
  JSDate.ret (match target with
              | Some t => Some (JSDate.ceilDiv (t - now) JSDate.msPerDay)
              | None => None
              end)).

(** [Math.max(0, 7 - daysUntilExpiration)] *)
Definition urgencyScore (daysUntilExpiration : option Z) : option Z :=
  match daysUntilExpiration with
  | Some d => Some (Z.max 0 (7 - d))
  | None => None
  end.

End ShelfLife.

(* ================================================================== *)
(** ** [src/lib/receiptParser.ts] *)

Module ReceiptParser.

Import JS Regex.
Local Open Scope string_scope.

Definition IGNORED_LINE_PATTERNS : list regex :=
  [ litI "subtotal"; litI "total"; litI "tax"; litI "change"; litI "cash";
    litI "visa"; litI "mastercard"; litI "debit"; litI "credit";
    litI "thank"; litI "store"; litI "receipt"; litI "date"; litI "time";
    (* /^\d{1,2}[/:]\d{1,2}/ *)
    Cat Bol (Cat digit (Cat (Opt digit)
      (Cat (oneOf "/:") (Cat digit (Opt digit)))));
    (* /^[\d\s.,$-]+$/ *)
    Cat Bol (Cat (Plus (Class (fun c =>
      isDigit c || isSpace c || existsb (Ascii.eqb c) (chars ".,$-")))) Eol) ].

(** [[\d.,]] *)
Definition amountChar : regex :=
  Class (fun c => isDigit c || existsb (Ascii.eqb c) (chars ".,")).

Definition cleanLine (line : string) : string :=
  trim
    ((* /\b\d+[\d.,]*\b/g *)
     replaceAll (Cat WordB (Cat (Plus digit) (Cat (Star amountChar) WordB))) ""
    ((* /\$\s*\d+[\d.,]*/g *)
     replaceAll (Cat (chr "$") (Cat (Star space)
                   (Cat (Plus digit) (Star amountChar)))) ""
    ((* /\d+[xX]\s*/g *)
     replaceAll (Cat (Plus digit) (Cat (oneOf "xX") (Star space))) ""
    ((* /\s+/g *)
     replaceAll (Plus space) " " line)))).

Definition alternatives (words : list string) : regex :=
  fold_right (fun w r => match r with Eps => litI w | _ => Or (litI w) r end)
             Eps words.

(** [/\b(w1|w2|...)\b/i] *)
Definition wordAmong (words : list string) : regex :=
  Cat WordB (Cat (Group (alternatives words)) WordB).

Definition inferUnit (line : string) : string :=
  if test (wordAmong ["lb"; "lbs"; "pound"; "oz"]) line then "lb"
  else if test (wordAmong ["kg"; "g"]) line then "kg"
  else if test (wordAmong ["l"; "liter"; "litre"; "ml"]) line then "l"
  else "item".

Definition inferQuantity (line : string) : number :=
  (* /(\d+)\s*[xX]/ *)
  match firstCapture (Cat (Group (Plus digit)) (Cat (Star space) (oneOf "xX")))
                     line with
  | Some digits => toNumber digits
  | None => Finite 1
  end.

(** The body of the first loop for one line: [None] is [continue]. *)
Definition parseLine (line : string) : option ParsedReceiptItem.t :=
  if existsb (fun pattern => test pattern line) IGNORED_LINE_PATTERNS then None
  else
    let cleaned := cleanLine line in
    if String.eqb cleaned "" || (String.length cleaned <? 3)%nat then None
    else
      let c := ShelfLife.canonicalizeIngredient cleaned in
      if strictEq (ShelfLife.canonicalName c) "unknown" then None
      else Some
        {| ParsedReceiptItem.rawLine := line;
           ParsedReceiptItem.canonicalName := ShelfLife.canonicalName c;
           ParsedReceiptItem.displayName := ShelfLife.canonicalName c;
           ParsedReceiptItem.quantity := inferQuantity line;
           ParsedReceiptItem.unit := inferUnit line;
           ParsedReceiptItem.confidence := ShelfLife.confidence c |}.

(** [rawText.split(/\r?\n/).map((line) => line.trim()).filter(Boolean)] *)
Definition splitLines (rawText : string) : list string :=
  filter (fun line => negb (String.eqb line ""))
    (map trim (split (Cat (Opt (chr "013")) (chr "010")) rawText)).

Definition parseLines (lines : list string) : list ParsedReceiptItem.t :=
  flat_map (fun line => match parseLine line with
                        | Some item => [item]
                        | None => []
                        end) lines.

(** A [Map<string, V>]: the entries in insertion order. *)
Definition mapGet {V : Type} (k : string) (m : list (string * V)) : option V :=
  assoc k m.

Fixpoint mapSet {V : Type} (k : string) (v : V) (m : list (string * V))
  : list (string * V) :=
  match m with
  | [] => [(k, v)]
  | (k', v') :: m' =>
      if String.eqb k k' then (k, v) :: m' else (k', v') :: mapSet k v m'
  end.

Definition mapValues {V : Type} (m : list (string * V)) : list V := map snd m.

Definition Qmax (a b : Q) : Q := if Qle_bool a b then b else a.

(** [`${item.canonicalName}:${item.unit}`] *)
Definition keyOf (item : ParsedReceiptItem.t) : string :=
  toString (ParsedReceiptItem.canonicalName item) ++ ":" ++
  ParsedReceiptItem.unit item.

(** The record built by the spread for a key already present. *)
Definition merge (existing item : ParsedReceiptItem.t) : ParsedReceiptItem.t :=
  {| ParsedReceiptItem.rawLine := ParsedReceiptItem.rawLine existing;
     ParsedReceiptItem.canonicalName := ParsedReceiptItem.canonicalName existing;
     ParsedReceiptItem.displayName := ParsedReceiptItem.displayName existing;
     ParsedReceiptItem.quantity :=
       add (ParsedReceiptItem.quantity existing)
           (ParsedReceiptItem.quantity item);
     ParsedReceiptItem.unit := ParsedReceiptItem.unit existing;
     ParsedReceiptItem.confidence :=
       Qmax (ParsedReceiptItem.confidence existing)
            (ParsedReceiptItem.confidence item) |}.

Definition dedupStep (deduped : list (string * ParsedReceiptItem.t))
           (item : ParsedReceiptItem.t) : list (string * ParsedReceiptItem.t) :=
  let key := keyOf item in
  match mapGet key deduped with
  | None => mapSet key item deduped
  | Some existing => mapSet key (merge existing item) deduped
  end.

Definition dedupe (parsed : list ParsedReceiptItem.t)
  : list ParsedReceiptItem.t :=
  mapValues (fold_left dedupStep parsed []).

Definition parseReceiptText (rawText : string) : list ParsedReceiptItem.t :=
  dedupe (parseLines (splitLines rawText)).

End ReceiptParser.


(* ================================================================== *)
(** ** [rankExpiringIngredients] of [recipeFallback] *)

Module RecipeFallback.

Import JS.

(** The callback of [pantry.map]. *)
Definition rankItem (h : JSDate.Host) (clock : JSDate.Clock)
           (item : InventoryItem.t) : JSDate.Eff RankedIngredient.t :=
  let effectiveExpiration :=
    match InventoryItem.overrideExpirationDate item with
    | Some override => override
    | None => InventoryItem.computedExpirationDate item
    end in
  JSDate.bind (ShelfLife.daysUntil h clock effectiveExpiration) (fun remaining =>
  JSDate.ret
    {| RankedIngredient.canonicalName := InventoryItem.canonicalName item;
       RankedIngredient.displayName := InventoryItem.displayName item;
       RankedIngredient.daysUntilExpiration := remaining;
       RankedIngredient.urgencyScore := ShelfLife.urgencyScore remaining |}).

(** [a - b] on numbers that may be [NaN]. *)
Definition minus (a b : option Z) : option Z :=
  match a, b with
  | Some x, Some y => Some (x - y)%Z
  | _, _ => None
  end.

(** [b.urgencyScore - a.urgencyScore
     || a.daysUntilExpiration - b.daysUntilExpiration] *)
Definition comparator (a b : RankedIngredient.t) : option Z :=
  match minus (RankedIngredient.urgencyScore b) (RankedIngredient.urgencyScore a) with
  | Some v =>
      if negb (v =? 0)%Z then Some v
      else minus (RankedIngredient.daysUntilExpiration a)
                 (RankedIngredient.daysUntilExpiration b)
  | None => minus (RankedIngredient.daysUntilExpiration a)
                  (RankedIngredient.daysUntilExpiration b)
  end.

(** [Array.prototype.sort(comparefn)]: the sort is stable, and a [NaN]
    returned by [comparefn] counts as [0].  For a comparator that orders
    the elements consistently every stable sort returns the same array;
    that array is computed here by insertion.  For a comparator that does
    not, as [comparator] below on elements whose numbers are [NaN], the
    language leaves the order to the engine, and the array computed here
    is one of the orders that an engine may return. *)
Fixpoint insert {A : Type} (comparefn : A -> A -> option Z) (x : A)
         (l : list A) : list A :=
  match l with
  | [] => [x]
  | y :: l' =>
      if (match comparefn x y with Some v => v | None => 0%Z end <=? 0)%Z
      then x :: y :: l'
      else y :: insert comparefn x l'
  end.

Definition sort {A : Type} (comparefn : A -> A -> option Z) (l : list A)
  : list A :=
  fold_right (insert comparefn) [] l.

Definition rankExpiringIngredients (h : JSDate.Host) (clock : JSDate.Clock)
           (pantry : list InventoryItem.t)
  : JSDate.Eff (list RankedIngredient.t) :=
  JSDate.bind (JSDate.mapM (rankItem h clock) pantry) (fun ranked =>
  JSDate.ret (sort comparator ranked)).

(** [l.slice(0, n)] *)
Definition slice0 {A : Type} (n : nat) (l : list A) : list A := firstn n l.

(** [names.filter((x) => !inventorySet.has(x))] *)
Definition notIn (inventorySet : list string) (names : list string)
  : list string :=
  filter (fun x => negb (inb x inventorySet)) names.

Definition templates (top inventorySet : list string)
  : list RecipeSuggestion.t :=
  [ {| RecipeSuggestion.title := "Quick Stir-Fry Rescue";
       RecipeSuggestion.pantryIngredientsUsed := slice0 4 top;
       RecipeSuggestion.missingIngredients :=
         notIn inventorySet ["soy sauce"; "oil"];
       RecipeSuggestion.steps :=
         [ "Chop all produce and proteins into bite-sized pieces.";
           "Heat oil in a pan, cook proteins first, then add vegetables.";
           "Add soy sauce and cook until tender-crisp.";
           "Serve hot over bread, rice, or as-is." ];
       RecipeSuggestion.estimatedCookingTimeMinutes := 20 |};
    {| RecipeSuggestion.title := "Pantry Omelet Bowl";
       RecipeSuggestion.pantryIngredientsUsed :=
         slice0 3 (filter (fun i => negb (String.eqb i "fish")) top);
       RecipeSuggestion.missingIngredients :=
         notIn inventorySet ["salt"; "pepper"];
       RecipeSuggestion.steps :=
         [ "Whisk eggs with a splash of milk if available.";
           "Saute chopped expiring vegetables until soft.";
           "Pour eggs over vegetables and cook until set.";
           "Fold and serve with toast or salad." ];
       RecipeSuggestion.estimatedCookingTimeMinutes := 15 |};
    {| RecipeSuggestion.title := "Roasted Tray Mix";
       RecipeSuggestion.pantryIngredientsUsed := slice0 5 top;
       RecipeSuggestion.missingIngredients :=
         notIn inventorySet ["olive oil"; "salt"];
       RecipeSuggestion.steps :=
         [ "Preheat oven to 425F.";
           "Cut ingredients evenly and toss with oil and seasoning.";
           "Spread on tray and roast 20-30 minutes.";
           "Finish with a squeeze of lemon or herbs if available." ];
       RecipeSuggestion.estimatedCookingTimeMinutes := 35 |};
    {| RecipeSuggestion.title := "Soup Pot Save";
       RecipeSuggestion.pantryIngredientsUsed := slice0 4 top;
       RecipeSuggestion.missingIngredients := notIn inventorySet ["broth"];
       RecipeSuggestion.steps :=
         [ "Add chopped ingredients to a pot with broth or water.";
           "Simmer until everything is tender.";
           "Season and blend partially for texture.";
           "Serve warm and store leftovers." ];
       RecipeSuggestion.estimatedCookingTimeMinutes := 30 |};
    {| RecipeSuggestion.title := "Cold Leftover Salad";
       RecipeSuggestion.pantryIngredientsUsed := slice0 3 top;
       RecipeSuggestion.missingIngredients :=
         notIn inventorySet ["vinegar"; "olive oil"];
       RecipeSuggestion.steps :=
         [ "Slice all fresh ingredients thinly.";
           "Whisk quick dressing from oil, vinegar, salt.";
           "Combine and rest for 5 minutes.";
           "Top with protein or cheese if available." ];
       RecipeSuggestion.estimatedCookingTimeMinutes := 10 |} ]%string.

(** [recipe.pantryIngredientsUsed.filter(Boolean)] keeps the names that
    are not the empty string. *)
Definition withUsedNames (recipe : RecipeSuggestion.t) : RecipeSuggestion.t :=
  {| RecipeSuggestion.title := RecipeSuggestion.title recipe;
     RecipeSuggestion.pantryIngredientsUsed :=
       filter (fun x => negb (String.eqb x ""))
              (RecipeSuggestion.pantryIngredientsUsed recipe);
     RecipeSuggestion.missingIngredients :=
       RecipeSuggestion.missingIngredients recipe;
     RecipeSuggestion.steps := RecipeSuggestion.steps recipe;
     RecipeSuggestion.estimatedCookingTimeMinutes :=
       RecipeSuggestion.estimatedCookingTimeMinutes recipe |}.

Definition fallbackRecipes (h : JSDate.Host) (clock : JSDate.Clock)
           (pantry : list InventoryItem.t)
  : JSDate.Eff (list RecipeSuggestion.t) :=
  JSDate.bind (rankExpiringIngredients h clock pantry) (fun ranked =>
  let top := map RankedIngredient.canonicalName (slice0 6 ranked) in
  let inventorySet := map InventoryItem.canonicalName pantry in
  JSDate.ret
    (slice0 5
       (filter (fun recipe =>
                  (0 <? List.length
                          (RecipeSuggestion.pantryIngredientsUsed recipe))%nat)
               (map withUsedNames (templates top inventorySet))))).

End RecipeFallback.

(* ================================================================== *)
(** ** [src/lib/pantry.ts]

    [createInventoryItem] and [migrateLegacy] build the items that the
    pantry stores.  Both begin by reading the clock, through
    [new Date().toISOString()]; [migrateLegacy] reads it a second time
    when it estimates the expiration of an item without a purchase
    date. *)

Module NewItem.
(** The argument of [createInventoryItem]; an optional field that is absent
    is [None]. *)
Record t := make {
  name : string;
  quantity : Z;
  unit : string;
  purchaseDate : option string;
  expirationDateOverride : option string;
  source : ItemSource
}.
End NewItem.

Module LegacyIngredient.
(** A stored record that [isLegacyIngredient] admits.  The guard looks at
    [id], [name], [quantity] and [expirationDate] and not at
    [purchaseDate], which a record may therefore lack: [None].  Where the
    record has a [purchaseDate] and a [unit], they are the strings that
    the type declares. *)
Record t := make {
  id : string;
  name : string;
  quantity : Z;
  unit : string;
  purchaseDate : option string;
  expirationDate : string
}.
End LegacyIngredient.

Module StoredItem.
(** The object that [createInventoryItem] and [migrateLegacy] return.  Its
    declared type is [InventoryItem]; [canonicalName] holds what
    [canonicalizeIngredient] returned, and [displayName] can fall back to
    it. *)
Record t := make {
  id : string;
  canonicalName : JS.value string;
  displayName : JS.value string;
  quantity : Z;
  unit : string;
  purchaseDate : string;
  computedExpirationDate : string;
  overrideExpirationDate : option string;
  source : ItemSource;
  createdAt : string;
  updatedAt : string
}.
End StoredItem.

Module Pantry.

Import JS.
Local Open Scope string_scope.

(** [a || b] for strings. *)
Definition orElse (a b : string) : string :=
  if truthyString (Some (Just a)) then a else b.

(** [migrateLegacy].  A [purchaseDate] that the record lacks is
    [undefined]: [item.purchaseDate || now] is then [now], and the second
    parameter of [estimateExpirationDate] takes its default, which reads
    the clock again. *)
Definition migrateLegacy (h : JSDate.Host) (clock : JSDate.Clock)
           (item : LegacyIngredient.t) : JSDate.Eff (result StoredItem.t) :=
  JSDate.bind (JSDate.now clock) (fun t =>
  match JSDate.toISOString (JSDate.TimeClip t) with
  | Throw e => JSDate.ret (Throw e)
  | Ok now =>
      let canonicalName :=
        ShelfLife.canonicalName
          (ShelfLife.canonicalizeIngredient (LegacyIngredient.name item)) in
      JSDate.bind
        (if truthyString (Some (Just (LegacyIngredient.expirationDate item)))
         then JSDate.ret (Ok (LegacyIngredient.expirationDate item))
         else ShelfLife.estimateExpirationDate h clock
                (LegacyIngredient.name item)
                (LegacyIngredient.purchaseDate item))
        (fun computed =>
      JSDate.ret
        (match computed with
         | Throw e => Throw e
         | Ok computedExpirationDate =>
             Ok {| StoredItem.id := LegacyIngredient.id item;
                   StoredItem.canonicalName := canonicalName;
                   StoredItem.displayName :=
                     Just (LegacyIngredient.name item);
                   StoredItem.quantity := LegacyIngredient.quantity item;
                   StoredItem.unit := LegacyIngredient.unit item;
                   StoredItem.purchaseDate :=
                     match LegacyIngredient.purchaseDate item with
                     | Some given => orElse given now
                     | None => now
                     end;
                   StoredItem.computedExpirationDate :=
                     computedExpirationDate;
                   StoredItem.overrideExpirationDate := None;
                   StoredItem.source := manual;
                   StoredItem.createdAt := now;
                   StoredItem.updatedAt := now |}
         end))
  end).

(** [createInventoryItem]; [uuid] is what [crypto.randomUUID()] returns.
    The key of the property read inside [getShelfLifeDays] is the canonical
    name converted to a string. *)
Definition createInventoryItem (h : JSDate.Host) (clock : JSDate.Clock)
           (uuid : string) (input : NewItem.t)
  : JSDate.Eff (result StoredItem.t) :=
  JSDate.bind (JSDate.now clock) (fun t =>
  JSDate.ret
    (match JSDate.toISOString (JSDate.TimeClip t) with
     | Throw e => Throw e
     | Ok now =>
         let purchaseDate :=
           match NewItem.purchaseDate input with
           | Some given => given
           | None => now
           end in
         let canonicalName :=
           ShelfLife.canonicalName
             (ShelfLife.canonicalizeIngredient (NewItem.name input)) in
         match ShelfLife.expirationDateForItem h (toString canonicalName)
                 purchaseDate None with
         | Throw e => Throw e
         | Ok computedExpirationDate =>
             let build overrideExpirationDate :=
               {| StoredItem.id := uuid;
                  StoredItem.canonicalName := canonicalName;
                  StoredItem.displayName :=
                    (let trimmed := trim (NewItem.name input) in
                     if truthyString (Some (Just trimmed))
                     then Just trimmed else canonicalName);
                  StoredItem.quantity := NewItem.quantity input;
                  StoredItem.unit := orElse (NewItem.unit input) "item";
                  StoredItem.purchaseDate := purchaseDate;
                  StoredItem.computedExpirationDate :=
                    computedExpirationDate;
                  StoredItem.overrideExpirationDate :=
                    overrideExpirationDate;
                  StoredItem.source := NewItem.source input;
                  StoredItem.createdAt := now;
                  StoredItem.updatedAt := now |} in
             match NewItem.expirationDateOverride input with
             | Some override =>
                 if truthyString (Some (Just override))
                 then match JSDate.toISOString (JSDate.newDate h override) with
                      | Ok iso => Ok (build (Some iso))
                      | Throw e => Throw e
                      end
                 else Ok (build None)
             | None => Ok (build None)
             end
         end
     end)).

(** The stored item as a value of its declared type, when both names are
    strings. *)
Definition asInventoryItem (s : StoredItem.t) : option InventoryItem.t :=
  match StoredItem.canonicalName s, StoredItem.displayName s with
  | Just canonicalName, Just displayName =>
      Some {| InventoryItem.id := StoredItem.id s;
              InventoryItem.canonicalName := canonicalName;
              InventoryItem.displayName := displayName;
              InventoryItem.quantity := StoredItem.quantity s;
              InventoryItem.unit := StoredItem.unit s;
              InventoryItem.purchaseDate := StoredItem.purchaseDate s;
              InventoryItem.computedExpirationDate :=
                StoredItem.computedExpirationDate s;
              InventoryItem.overrideExpirationDate :=
                StoredItem.overrideExpirationDate s;
              InventoryItem.source := StoredItem.source s;
              InventoryItem.createdAt := StoredItem.createdAt s;
              InventoryItem.updatedAt := StoredItem.updatedAt s |}
  | _, _ => None
  end.

End Pantry.

(* ================================================================== *)
(** ** [src/app/api/receipts/parse/route.ts] *)

Module ParseRoute.

Import JS.
Local Open Scope string_scope.

(** The property [rawText] of the request body. *)
Inductive field :=
| Missing                (* undefined or null *)
| Text (s : string)
| NoString.              (* any other value: it has no method [trim] *)

(** What [request.json()] gives. *)
Inductive body :=
| Rejected               (* the request holds no JSON text *)
| Null                   (* the JSON text [null] *)
| Value (rawText : field).

Inductive response :=
| Parsed (items : list ParsedReceiptItem.t) (totalParsedLines : nat)
| BadRequest             (* status 400, 'rawText is required.' *)
| ServerError.           (* status 500, with the message of the error *)

Definition POST (request : body) : response :=
  match request with
  | Rejected => ServerError
  | Null => ServerError
  | Value NoString => ServerError
  | Value field =>
      let rawText :=
        match field with
        | Text s => trim s
        | _ => ""
        end in
      if negb (truthyString (Some (Just rawText))) then BadRequest
      else
        let items := ReceiptParser.parseReceiptText rawText in
        Parsed items (List.length items)
  end.

End ParseRoute.

(* ================================================================== *)
(** ** [src/app/api/shelf-life/route.ts]

    The two functions of the route that call [canonicalizeIngredient] and
    [getShelfLifeDays]. *)

Module ShelfLifeRequestItem.
(** What the loop of [normalizeItems] reads of an element that is not
    [null]: a field that is absent, or holds no string, is [None], as both
    fields are for an element that is no object. *)
Record t := make {
  name : option string;
  canonicalName : option string
}.
End ShelfLifeRequestItem.

Module NormalizedItem.
Record t := make {
  canonicalName : string;
  displayName : string
}.
End NormalizedItem.

Module ShelfLifeRoute.

Import JS.
Local Open Scope string_scope.

(** An element of [body.items].  The route passes the array on as the
    JSON text gives it, so an element can be [null], of which no property
    can be read. *)
Inductive element :=
| Null
| Item (item : ShelfLifeRequestItem.t).

(** The body of the loop of [normalizeItems]; [unique] is the [Map].
    Reading [item.name] of [null] throws.  The canonical name that
    [canonicalizeIngredient] returns has the method [trim] only if it is a
    string. *)
Definition normalizeStep (unique : list (string * string))
           (item : element)
  : result (list (string * string)) :=
  match item with
  | Null => Throw TypeError
  | Item item =>
      let itemName :=
        match ShelfLifeRequestItem.name item with
        | Some s => trim s
        | None => ""
        end in
      let inputCanonical :=
        match ShelfLifeRequestItem.canonicalName item with
        | Some s => trim s
        | None => ""
        end in
      let canonicalName :=
        if truthyString (Some (Just inputCanonical)) then Just inputCanonical
        else ShelfLife.canonicalName
               (ShelfLife.canonicalizeIngredient itemName) in
      match canonicalName with
      | Member _ => Throw TypeError
      | Just canonicalName =>
          let normalizedCanonical := toLowerCase (trim canonicalName) in
          if negb (truthyString (Some (Just normalizedCanonical)))
          then Ok unique
          else
            match ReceiptParser.mapGet normalizedCanonical unique with
            | Some _ => Ok unique
            | None =>
                Ok (ReceiptParser.mapSet normalizedCanonical
                      (if truthyString (Some (Just itemName)) then itemName
                       else normalizedCanonical)
                      unique)
            end
      end
  end.

Fixpoint normalizeLoop (rawItems : list element)
         (unique : list (string * string))
  : result (list (string * string)) :=
  match rawItems with
  | [] => Ok unique
  | item :: rest =>
      match normalizeStep unique item with
      | Ok unique' => normalizeLoop rest unique'
      | Throw e => Throw e
      end
  end.

Definition normalizeItems (rawItems : list element)
  : result (list NormalizedItem.t) :=
  match normalizeLoop rawItems [] with
  | Ok unique =>
      Ok (map (fun entry =>
                 {| NormalizedItem.canonicalName := fst entry;
                    NormalizedItem.displayName := snd entry |}) unique)
  | Throw e => Throw e
  end.

(** [buildFallbackShelfLife]: the own properties of the object that the
    reduction fills.  An assignment to [__proto__] goes to the setter
    inherited from [Object.prototype] and creates no property; the value
    assigned to it here is [Object.prototype] itself. *)
Definition buildFallbackShelfLife (items : list NormalizedItem.t)
  : list (string * value Z) :=
  fold_left
    (fun acc item =>
       let key := NormalizedItem.canonicalName item in
       if String.eqb key "__proto__" then acc
       else ReceiptParser.mapSet key (ShelfLife.getShelfLifeDays key) acc)
    items [].

End ShelfLifeRoute.

(* ================================================================== *)
(** ** The home page ([src/unnamed/part_002]) *)

Module HomePage.

Import JS.

(** [s.slice(0, n)] *)
Definition slice0 (n : nat) (s : string) : string := str (firstn n (chars s)).

(** [new Date(value).toISOString().slice(0, 10)] *)
Definition toDateInputValue (h : JSDate.Host) (value : string)
  : result string :=
  match JSDate.toISOString (JSDate.newDate h value) with
  | Ok iso => Ok (slice0 10 iso)
  | Throw e => Throw e
  end.

End HomePage.

(* ================================================================== *)
(** ** Vocabulary of the statements *)

Module Props.

Import JS.
Local Open Scope string_scope.
Local Open Scope list_scope.

(** A line feed, and the text made of the given physical lines. *)
Definition LF : string := String "010" "".

Definition text (lines : list string) : string := String.concat LF lines.

(** The pair that identifies a parsed line. *)
Definition pairOf (item : ParsedReceiptItem.t) : value string * string :=
  (ParsedReceiptItem.canonicalName item, ParsedReceiptItem.unit item).

Definition pairEqb (a b : value string * string) : bool :=
  match fst a, fst b with
  | Just x, Just y => String.eqb x y
  | Member x, Member y => String.eqb x y
  | _, _ => false
  end && String.eqb (snd a) (snd b).

(** The parsed lines that have the pair of [item], in the order parsed. *)
Definition groupOf (item : ParsedReceiptItem.t)
           (parsed : list ParsedReceiptItem.t) : list ParsedReceiptItem.t :=
  filter (fun p => pairEqb (pairOf p) (pairOf item)) parsed.

(** The quantities of [l] added up from left to right, each sum the
    number that [+] returns. *)
Definition sumQuantity (l : list ParsedReceiptItem.t) : number :=
  match map ParsedReceiptItem.quantity l with
  | [] => Finite 0
  | q :: qs => fold_left add qs q
  end.

(** The sum of the integers [ns]. *)
Definition total (ns : list Z) : Z := fold_right Z.add 0%Z ns.

(** A number that is not negative. *)
Definition nonNegative (q : number) : Prop :=
  match q with
  | Finite n => (0 <= n)%Z
  | Infinity => True
  end.

(** [q] is the greatest of the numbers [l]. *)
Definition greatest (q : Q) (l : list Q) : Prop :=
  In q l /\ forall x, In x l -> (x <= q)%Q.

(** The names that [canonicalizeIngredient] can return. *)
Definition returnedName (v : value string) : Prop :=
  match v with
  | Just s => Forall (fun c => isLower c = true) (chars s)
  | Member k => k = "constructor"
  end.

(** The date that the ranking uses for an item. *)
Definition effectiveExpiration (item : InventoryItem.t) : string :=
  match InventoryItem.overrideExpirationDate item with
  | Some override => override
  | None => InventoryItem.computedExpirationDate item
  end.

(** An item's dates are those of the data model when its effective
    expiration is a valid date. *)
Definition validDates (h : JSDate.Host) (item : InventoryItem.t) : Prop :=
  JSDate.newDate h (effectiveExpiration item) <> None.

(** The ranked ingredient of [item] at the instant [instant]:
    [daysUntilExpiration] is [ceil((effectiveExpiration - instant) / 1 day)]. *)
Definition rankedAt (h : JSDate.Host) (instant : Z) (item : InventoryItem.t)
  : RankedIngredient.t :=
  let days :=
    match JSDate.newDate h (effectiveExpiration item) with
    | Some t => Some (JSDate.ceilDiv (t - instant) JSDate.msPerDay)
    | None => None
    end in
  {| RankedIngredient.canonicalName := InventoryItem.canonicalName item;
     RankedIngredient.displayName := InventoryItem.displayName item;
     RankedIngredient.daysUntilExpiration := days;
     RankedIngredient.urgencyScore := ShelfLife.urgencyScore days |}.

(** The ranking of a pantry against the single instant [instant]. *)
Definition rankingAt (h : JSDate.Host) (instant : Z)
           (pantry : list InventoryItem.t) : list RankedIngredient.t :=
  RecipeFallback.sort RecipeFallback.comparator (map (rankedAt h instant) pantry).



Definition item (name expiration : string) (override : option string)
  : InventoryItem.t :=
  {| InventoryItem.id := name;
     InventoryItem.canonicalName := name;
     InventoryItem.displayName := name;
     InventoryItem.quantity := 1;
     InventoryItem.unit := "item";
     InventoryItem.purchaseDate := "2023-12-25T12:00:00.000Z";
     InventoryItem.computedExpirationDate := expiration;
     InventoryItem.overrideExpirationDate := override;
     InventoryItem.source := manual;
     InventoryItem.createdAt := "2023-12-25T12:00:00.000Z";
     InventoryItem.updatedAt := "2023-12-25T12:00:00.000Z" |}.

(** Four items that are -1, 0, 10 and 3 days from expiring on
    2024-01-01T00:00:00Z ([midnight]). *)
Definition midnight : Z := 1704067200000.



(** Two items that expire at the same instant, one millisecond after the
    end of the first day of the epoch, and a clock that advances by one
    millisecond from one reading to the next. *)
Definition twoItems : list InventoryItem.t :=
  [ item "milk" "1970-01-02T00:00:00.001Z" None;
    item "egg" "1970-01-02T00:00:00.001Z" None ].

Definition tickingClock : JSDate.Clock := fun n => Z.of_nat n.


(** The elements of [l] in the order of their first occurrences, without
    those that occur in [seen]. *)
Fixpoint firstOccurrences {A : Type} (eqb : A -> A -> bool)
         (seen l : list A) : list A :=
  match l with
  | [] => []
  | x :: l' =>
      if existsb (eqb x) seen then firstOccurrences eqb seen l'
      else x :: firstOccurrences eqb (x :: seen) l'
  end.

(** The integers from [n], [k] of them. *)
Fixpoint countUp (k : nat) (n : Z) : list Z :=
  match k with
  | O => []
  | S k' => n :: countUp k' (n + 1)%Z
  end.

(** [n] padded to [width] digits has [width] characters and reads back as
    [n]. *)
Definition padReadsBack (width : nat) (n : Z) : bool :=
  let s := chars (JSDate.pad width n) in
  Nat.eqb (List.length s) width
  && match JSDate.digits s with
     | Some m => Z.eqb m n
     | None => false
     end.

(** The pieces into which [split(/\r?\n/)] cuts a text. *)
Definition pieces (s : list ascii) : list (list ascii) :=
  Regex.splitGo (Regex.Cat (Regex.Opt (Regex.chr "013")) (Regex.chr "010"))
                None s 0 [].

(** [f] applied to the last element of a list. *)
Fixpoint onLast {A : Type} (f : A -> A) (l : list A) : list A :=
  match l with
  | [] => []
  | [x] => [f x]
  | x :: l' => x :: onLast f l'
  end.

(** A piece without the carriage return at its end, if it has one. *)
Fixpoint chomp (p : list ascii) : list ascii :=
  match p with
  | [] => []
  | [c] => if Ascii.eqb c "013" then [] else [c]
  | c :: p' => c :: chomp p'
  end.

(** The name under which [normalizeItems] lists a request item: the given
    canonical name if it is not blank, otherwise the one resolved from the
    name, trimmed and in lower case. *)
Definition requestedName (item : ShelfLifeRequestItem.t) : string :=
  let itemName :=
    match ShelfLifeRequestItem.name item with
    | Some s => trim s
    | None => ""
    end in
  let inputCanonical :=
    match ShelfLifeRequestItem.canonicalName item with
    | Some s => trim s
    | None => ""
    end in
  toLowerCase
    (trim (if String.eqb inputCanonical "" then
             toString (ShelfLife.canonicalName
                         (ShelfLife.canonicalizeIngredient itemName))
           else inputCanonical)).

(** A request item without a canonical name whose name normalizes to
    [constructor]. *)
Definition namedConstructor (item : ShelfLifeRequestItem.t) : bool :=
  match ShelfLifeRequestItem.canonicalName item with
  | Some s => String.eqb (trim s) ""
  | None => true
  end
  && String.eqb
       (ShelfLife.normalizeToken
          match ShelfLifeRequestItem.name item with
          | Some s => trim s
          | None => ""
          end)
       "constructor".

(** The elements of a request that are not [null]. *)
Definition itemsOf (rawItems : list ShelfLifeRoute.element)
  : list ShelfLifeRequestItem.t :=
  flat_map (fun e => match e with
                     | ShelfLifeRoute.Null => []
                     | ShelfLifeRoute.Item item => [item]
                     end) rawItems.

(** An element at which the loop of [normalizeItems] throws: [null], or
    an item without a canonical name whose name normalizes to
    [constructor]. *)
Definition throws (e : ShelfLifeRoute.element) : bool :=
  match e with
  | ShelfLifeRoute.Null => true
  | ShelfLifeRoute.Item item => namedConstructor item
  end.

(** An entry of [normalizeItems]: a canonical name that is not empty, is
    trimmed and is in lower case, and a display name that is not empty and
    is trimmed. *)
Definition wellNamed (canonicalName displayName : string) : Prop :=
  canonicalName <> "" /\ trim canonicalName = canonicalName
  /\ toLowerCase canonicalName = canonicalName
  /\ displayName <> "" /\ trim displayName = displayName.

(** The words of [IGNORED_LINE_PATTERNS]. *)
Definition ignoredWords : list string :=
  [ "subtotal"; "total"; "tax"; "change"; "cash"; "visa"; "mastercard";
    "debit"; "credit"; "thank"; "store"; "receipt"; "date"; "time" ].

(** [line] contains [word], in any case of the letters. *)
Definition mentions (word line : string) : Prop :=
  exists before middle after,
    chars line = before ++ middle ++ after
    /\ map lowerChar middle = map lowerChar (chars word).

(** The text [YYYY-MM-DD] of a calendar date. *)
Definition dateText (y m d : Z) : string :=
  (JSDate.pad 4 y ++ "-" ++ JSDate.pad 2 m ++ "-" ++ JSDate.pad 2 d)%string.

(** The five ways in which [canonicalizeIngredient] returns, as a relation
    between the normalized name and the result. *)
Inductive resolution (n : string) : ShelfLife.canonical -> Prop :=
| ResEmpty :
    n = "" ->
    resolution n {| ShelfLife.canonicalName := Just "unknown";
                    ShelfLife.confidence := 0%Q |}
| ResAlias (alias : value string) :
    n <> "" ->
    getProperty ShelfLife.INGREDIENT_ALIASES n = Some alias ->
    truthyString (Some alias) = true ->
    resolution n {| ShelfLife.canonicalName := alias;
                    ShelfLife.confidence := 0.95%Q |}
| ResVocabulary :
    n <> "" ->
    truthyString (getProperty ShelfLife.INGREDIENT_ALIASES n) = false ->
    truthyNumber (getProperty ShelfLife.SHELF_LIFE_BY_INGREDIENT n) = true ->
    resolution n {| ShelfLife.canonicalName := Just n;
                    ShelfLife.confidence := 1%Q |}
| ResFuzzy (bestMatch : string) (bestDistance : nat) :
    n <> "" ->
    truthyString (getProperty ShelfLife.INGREDIENT_ALIASES n) = false ->
    truthyNumber (getProperty ShelfLife.SHELF_LIFE_BY_INGREDIENT n) = false ->
    ShelfLife.bestMatchFor n = (bestMatch, Some bestDistance) ->
    Qle_bool 0.55%Q
      (ShelfLife.similarityOf bestDistance
         (Nat.max (String.length bestMatch) (String.length n))) = true ->
    resolution n
      {| ShelfLife.canonicalName := Just bestMatch;
         ShelfLife.confidence :=
           ShelfLife.toFixed2
             (ShelfLife.similarityOf bestDistance
                (Nat.max (String.length bestMatch) (String.length n))) |}
| ResNew (bestMatch : string) (bestDistance : nat) :
    n <> "" ->
    truthyString (getProperty ShelfLife.INGREDIENT_ALIASES n) = false ->
    truthyNumber (getProperty ShelfLife.SHELF_LIFE_BY_INGREDIENT n) = false ->
    ShelfLife.bestMatchFor n = (bestMatch, Some bestDistance) ->
    Qle_bool 0.55%Q
      (ShelfLife.similarityOf bestDistance
         (Nat.max (String.length bestMatch) (String.length n))) = false ->
    resolution n {| ShelfLife.canonicalName := Just n;
                    ShelfLife.confidence := 0.5%Q |}.

(** The edit distance of the specification, by the classic recurrence:
    [cell a b row col] is the least number of insertions, deletions and
    substitutions, each of cost 1, that turn the first [row] characters of
    [a] into the first [col] characters of [b]. *)
Fixpoint cell (a b : list ascii) (row col : nat) {struct row} : nat :=
  match row with
  | O => col
  | S r =>
      (fix go (col : nat) : nat :=
         match col with
         | O => S r
         | S c =>
             Nat.min (Nat.min (cell a b r (S c) + 1) (go c + 1))
                     (cell a b r c
                      + ShelfLife.cost (nth r a zero) (nth c b zero))
         end) col
  end.

Definition editDistance (a b : string) : nat :=
  cell (chars a) (chars b) (String.length a) (String.length b).

(** [k], at distance [d], is the first of the keys [ks] whose distance is
    the least: the keys before it are strictly farther, the keys after it
    are at least as far. *)
Definition firstMinimum (dist : string -> nat) (ks : list string)
           (k : string) (d : nat) : Prop :=
  exists before after,
    ks = before ++ k :: after /\ dist k = d
    /\ (forall x, In x before -> d < dist x)%nat
    /\ (forall x, In x after -> d <= dist x)%nat.

(** All the characters of a string are letters [a] to [z]. *)
Definition lowercase (s : string) : Prop :=
  Forall (fun c => isLower c = true) (chars s).

End Props.

(* ================================================================== *)
(** * Properties *)

Import JS.
Local Open Scope string_scope.
Local Open Scope list_scope.

(** ** Receipt parsing on the two scenarios of the specification *)

(** C1, as stated, fails: the text made of the lines [milk 1] and [milk 2]
    does not parse to a single entry of quantity 3. *)
Lemma C1_quantity_is_not_3 :
  ~ exists item,
      ReceiptParser.parseReceiptText (Props.text ["milk 1"; "milk 2"]) = [item]
      /\ ParsedReceiptItem.quantity item = Finite 3.
Proof.
  intros [item [H Hq]]. vm_compute in H.
  injection H as <-. discriminate Hq.
Qed.

(** C1, amended: the lines [milk 1] and [milk 2], in either order, parse to
    exactly one entry, for the key (milk, item), whose quantity is 2: a bare
    number is no quantity, so each line counts once.  The lines [1x milk]
    and [2x milk], in either order, parse to one entry for the same key
    whose quantity is 3.  The entry keeps the raw line that came first. *)
Theorem C1_milk_aggregation :
  let entry raw q :=
    {| ParsedReceiptItem.rawLine := raw;
       ParsedReceiptItem.canonicalName := Just "milk";
       ParsedReceiptItem.displayName := Just "milk";
       ParsedReceiptItem.quantity := q;
       ParsedReceiptItem.unit := "item";
       ParsedReceiptItem.confidence := 1%Q |} in
  ReceiptParser.parseReceiptText (Props.text ["milk 1"; "milk 2"])
    = [entry "milk 1" (Finite 2)]
  /\ ReceiptParser.parseReceiptText (Props.text ["milk 2"; "milk 1"])
    = [entry "milk 2" (Finite 2)]
  /\ ReceiptParser.parseReceiptText (Props.text ["1x milk"; "2x milk"])
    = [entry "1x milk" (Finite 3)]
  /\ ReceiptParser.parseReceiptText (Props.text ["2x milk"; "1x milk"])
    = [entry "2x milk" (Finite 3)].
Proof. repeat split; vm_compute; reflexivity. Qed.

(** C5: of the three lines [2x Bnna $1.99], [TOTAL $1.99] and
    [VISA ****1234] the reject filter drops the second and the third, and
    the first becomes the only item: banana (through the alias [bnna]),
    quantity 2, unit item, confidence 0.95. *)
Theorem C5_receipt_scenario :
  let l1 := "2x Bnna $1.99" in
  let l2 := "TOTAL $1.99" in
  let l3 := "VISA ****1234" in
  ReceiptParser.splitLines (Props.text [l1; l2; l3]) = [l1; l2; l3]
  /\ existsb (fun p => Regex.test p l1) ReceiptParser.IGNORED_LINE_PATTERNS = false
  /\ existsb (fun p => Regex.test p l2) ReceiptParser.IGNORED_LINE_PATTERNS = true
  /\ existsb (fun p => Regex.test p l3) ReceiptParser.IGNORED_LINE_PATTERNS = true
  /\ ReceiptParser.cleanLine l1 = "Bnna"
  /\ getProperty ShelfLife.INGREDIENT_ALIASES (ShelfLife.normalizeToken "Bnna")
     = Some (Just "banana")
  /\ ReceiptParser.parseReceiptText (Props.text [l1; l2; l3])
     = [ {| ParsedReceiptItem.rawLine := l1;
            ParsedReceiptItem.canonicalName := Just "banana";
            ParsedReceiptItem.displayName := Just "banana";
            ParsedReceiptItem.quantity := Finite 2;
            ParsedReceiptItem.unit := "item";
            ParsedReceiptItem.confidence := 0.95%Q |} ].
Proof. repeat split; vm_compute; reflexivity. Qed.

(** ** Strings and tables *)

Lemma chars_str (l : list ascii) : chars (str l) = l.
Proof. apply list_ascii_of_string_of_list_ascii. Qed.

Lemma str_chars (s : string) : str (chars s) = s.
Proof. apply string_of_list_ascii_of_string. Qed.

Lemma isLower_code (c : ascii) :
  isLower c = true <-> (97 <= code c <= 122)%N.
Proof.
  unfold isLower, inRange.
  change (code "a") with 97%N. change (code "z") with 122%N.
  rewrite andb_true_iff, !N.leb_le. tauto.
Qed.

Lemma lowerChar_lower (c : ascii) : isLower c = true -> lowerChar c = c.
Proof.
  intros H. apply isLower_code in H. unfold lowerChar, isUpper, inRange.
  change (code "A") with 65%N. change (code "Z") with 90%N.
  replace (code c <=? 90)%N with false by (symmetry; apply N.leb_gt; lia).
  replace (code c <=? 222)%N with true by (symmetry; apply N.leb_le; lia).
  replace (192 <=? code c)%N with false by (symmetry; apply N.leb_gt; lia).
  rewrite andb_false_r. reflexivity.
Qed.

Lemma normalizeToken_lowercase (raw : string) :
  Props.lowercase (ShelfLife.normalizeToken raw).
Proof.
  unfold Props.lowercase, ShelfLife.normalizeToken. rewrite chars_str.
  apply Forall_forall. intros c Hc. apply filter_In in Hc. tauto.
Qed.

Lemma normalizeToken_fixed (s : string) :
  Props.lowercase s -> ShelfLife.normalizeToken s = s.
Proof.
  unfold Props.lowercase, ShelfLife.normalizeToken, toLowerCase. intros H.
  rewrite chars_str. rewrite <- (str_chars s) at 2. f_equal.
  induction H as [|c l Hc Hl IH]; [reflexivity|].
  cbn. rewrite (lowerChar_lower _ Hc), Hc, IH. reflexivity.
Qed.

Lemma normalizeToken_idempotent (raw : string) :
  ShelfLife.normalizeToken (ShelfLife.normalizeToken raw)
  = ShelfLife.normalizeToken raw.
Proof. apply normalizeToken_fixed, normalizeToken_lowercase. Qed.

Lemma eqb_false_neq (a b : string) : String.eqb a b = false <-> a <> b.
Proof. apply String.eqb_neq. Qed.

(** The only member of [Object.prototype] whose name consists of the
    letters [a] to [z] is [constructor]. *)
Lemma lowercase_member (n : string) :
  Props.lowercase n -> inb n objectPrototype = true -> n = "constructor".
Proof.
  intros L H. unfold inb in H. apply existsb_exists in H.
  destruct H as [k [Hk E]]. apply String.eqb_eq in E. subst k.
  assert (T : forallb (fun k => negb (forallb isLower (chars k))
                                || String.eqb k "constructor")
                      objectPrototype = true) by (vm_compute; reflexivity).
  rewrite forallb_forall in T. specialize (T n Hk).
  apply orb_true_iff in T. destruct T as [T | T].
  - apply negb_true_iff in T.
    assert (forallb isLower (chars n) = true)
      by (apply forallb_forall; apply Forall_forall; exact L).
    congruence.
  - apply String.eqb_eq. exact T.
Qed.

(** ** The matrix of [levenshteinDistance] *)

Lemma cell_S_S (a b : list ascii) (r c : nat) :
  Props.cell a b (S r) (S c)
  = Nat.min (Nat.min (Props.cell a b r (S c) + 1) (Props.cell a b (S r) c + 1))
            (Props.cell a b r c + ShelfLife.cost (nth r a zero) (nth c b zero)).
Proof. reflexivity. Qed.

Lemma skipn_nth {A : Type} (l : list A) :
  forall n x l' d,
    skipn n l = x :: l' -> nth n l d = x /\ skipn (S n) l = l'.
Proof.
  induction l as [|y l IH]; intros [|n] x l' d H; cbn in *; try discriminate.
  - injection H as -> ->. auto.
  - apply IH. exact H.
Qed.

(** The inner loop fills row [S r] from column [S c] on with the cells of
    the recurrence. *)
Lemma fillRow_cells (a b : list ascii) (r : nat) (suffix : list ascii) :
  forall c,
    skipn c b = suffix ->
    ShelfLife.fillRow (nth r a zero) suffix
      (map (Props.cell a b r) (seq c (S (List.length suffix))))
      (Props.cell a b (S r) c)
    = map (Props.cell a b (S r)) (seq (S c) (List.length suffix)).
Proof.
  induction suffix as [|cb suffix IH]; intros c H; [reflexivity|].
  destruct (skipn_nth b c _ _ zero H) as [N K].
  cbn [List.length seq map ShelfLife.fillRow].
  rewrite <- N, <- cell_S_S. f_equal.
  apply (IH (S c)). exact K.
Qed.

(** The outer loop ends with the last row of the recurrence. *)
Lemma fillRows_cells (a b : list ascii) (suffix : list ascii) :
  forall r,
    skipn r a = suffix ->
    ShelfLife.fillRows suffix b
      (map (Props.cell a b r) (seq 0 (S (List.length b)))) (S r)
    = map (Props.cell a b (r + List.length suffix))
          (seq 0 (S (List.length b))).
Proof.
  induction suffix as [|ca suffix IH]; intros r H.
  - cbn. rewrite Nat.add_0_r. reflexivity.
  - destruct (skipn_nth a r _ _ zero H) as [N K].
    cbn [ShelfLife.fillRows]. rewrite <- N.
    pose proof (fillRow_cells a b r b 0 eq_refl) as F.
    change (Props.cell a b (S r) 0) with (S r) in F. rewrite F.
    pose proof (IH (S r) K) as G.
    change (map (Props.cell a b (S r)) (seq 0 (S (List.length b))))
      with (S r :: map (Props.cell a b (S r)) (seq 1 (List.length b))) in G.
    rewrite G. cbn [List.length]. rewrite Nat.add_succ_r. reflexivity.
Qed.

Lemma chars_length (s : string) : List.length (chars s) = String.length s.
Proof.
  unfold chars.
  induction s as [|c s IH]; cbn; [reflexivity | f_equal; exact IH].
Qed.

(** [levenshteinDistance] computes the edit distance. *)
Lemma levenshteinDistance_editDistance (a b : string) :
  ShelfLife.levenshteinDistance a b = Props.editDistance a b.
Proof.
  unfold ShelfLife.levenshteinDistance, Props.editDistance.
  rewrite <- (chars_length b), <- (chars_length a).
  replace (seq 0 (S (List.length (chars b))))
    with (map (Props.cell (chars a) (chars b) 0)
              (seq 0 (S (List.length (chars b)))))
    by (rewrite <- (map_id (seq 0 _)) at 2; apply map_ext; reflexivity).
  rewrite (fillRows_cells (chars a) (chars b) (chars a) 0 eq_refl).
  cbn [Nat.add]. rewrite seq_S, map_app. cbn [map]. rewrite last_last.
  reflexivity.
Qed.

(** ** The loop that looks for the nearest vocabulary entry *)

Lemma bestStep_first (n : string) (b key : string) :
  ShelfLife.bestStep n (b, None) key
  = (key, Some (ShelfLife.levenshteinDistance n key)).
Proof. reflexivity. Qed.

Lemma bestStep_next (n : string) (k : string) (d : nat) (key : string) :
  ShelfLife.bestStep n (k, Some d) key
  = if (ShelfLife.levenshteinDistance n key <? d)%nat
    then (key, Some (ShelfLife.levenshteinDistance n key))
    else (k, Some d).
Proof. reflexivity. Qed.

Lemma bestLoop_firstMinimum (n : string) (rest : list string) :
  forall (done : list string) (k : string) (d : nat),
    Props.firstMinimum (ShelfLife.levenshteinDistance n) done k d ->
    exists k' d',
      fold_left (ShelfLife.bestStep n) rest (k, Some d) = (k', Some d')
      /\ Props.firstMinimum (ShelfLife.levenshteinDistance n) (done ++ rest) k' d'.
Proof.
  induction rest as [|key rest IH]; intros done k d H.
  - exists k, d. rewrite app_nil_r. split; [reflexivity | exact H].
  - cbn [fold_left]. rewrite bestStep_next.
    replace (done ++ key :: rest) with ((done ++ [key]) ++ rest)
      by (rewrite <- app_assoc; reflexivity).
    destruct H as [before [after [E [Hd [Hb Ha]]]]].
    destruct (ShelfLife.levenshteinDistance n key <? d)%nat eqn:C.
    + apply Nat.ltb_lt in C. apply IH.
      exists done, []. repeat split; try reflexivity.
      * intros x Hx. subst done. apply in_app_or in Hx.
        destruct Hx as [Hx | [<- | Hx]].
        -- specialize (Hb x Hx). lia.
        -- lia.
        -- specialize (Ha x Hx). lia.
      * intros x [].
    + apply Nat.ltb_ge in C. apply IH.
      exists before, (after ++ [key]). repeat split.
      * subst done. rewrite <- app_assoc. reflexivity.
      * exact Hd.
      * exact Hb.
      * intros x Hx. apply in_app_or in Hx.
        destruct Hx as [Hx | [<- | []]]; [apply Ha; exact Hx | exact C].
Qed.

Lemma bestLoop_start (n : string) (key : string) (rest : list string) :
  exists k d,
    fold_left (ShelfLife.bestStep n) (key :: rest) ("unknown", None)
    = (k, Some d)
    /\ Props.firstMinimum (ShelfLife.levenshteinDistance n) (key :: rest) k d.
Proof.
  cbn [fold_left]. rewrite bestStep_first.
  apply (bestLoop_firstMinimum n rest [key]).
  exists [], []. repeat split; try reflexivity; intros x [].
Qed.

Lemma bestMatchFor_firstMinimum (n : string) :
  exists k d,
    ShelfLife.bestMatchFor n = (k, Some d)
    /\ Props.firstMinimum (ShelfLife.levenshteinDistance n)
         (keys ShelfLife.SHELF_LIFE_BY_INGREDIENT) k d.
Proof.
  exact (bestLoop_start n "apple" (tl (keys ShelfLife.SHELF_LIFE_BY_INGREDIENT))).
Qed.

Lemma firstMinimum_ext (f g : string -> nat) ks k d :
  (forall x, f x = g x) ->
  Props.firstMinimum f ks k d -> Props.firstMinimum g ks k d.
Proof.
  intros E [before [after [K [D [B A]]]]]. exists before, after.
  rewrite <- E. repeat split; try assumption; intros x H; rewrite <- E; auto.
Qed.

Lemma firstMinimum_In dist ks k d :
  Props.firstMinimum dist ks k d -> In k ks.
Proof.
  intros [before [after [E _]]]. subst ks. apply in_or_app. right. left.
  reflexivity.
Qed.

(** ** The ways in which [canonicalizeIngredient] returns *)

Lemma canonicalize_resolution (raw : string) :
  Props.resolution (ShelfLife.normalizeToken raw)
                   (ShelfLife.canonicalizeIngredient raw).
Proof.
  unfold ShelfLife.canonicalizeIngredient.
  set (n := ShelfLife.normalizeToken raw).
  destruct (String.eqb n "") eqn:E.
  - apply Props.ResEmpty. apply String.eqb_eq. exact E.
  - apply String.eqb_neq in E.
    assert (Rest :
      truthyString (getProperty ShelfLife.INGREDIENT_ALIASES n) = false ->
      Props.resolution n
        (if truthyNumber (getProperty ShelfLife.SHELF_LIFE_BY_INGREDIENT n)
         then {| ShelfLife.canonicalName := Just n; ShelfLife.confidence := 1 |}
         else
           let (bestMatch, bestDistance) := ShelfLife.bestMatchFor n in
           let maxLength :=
             Nat.max (String.length bestMatch) (String.length n) in
           match bestDistance with
           | Some d =>
               let similarity := ShelfLife.similarityOf d maxLength in
               if Qle_bool 0.55 similarity
               then {| ShelfLife.canonicalName := Just bestMatch;
                       ShelfLife.confidence := ShelfLife.toFixed2 similarity |}
               else {| ShelfLife.canonicalName := Just n;
                       ShelfLife.confidence := 0.5 |}
           | None => {| ShelfLife.canonicalName := Just n;
                        ShelfLife.confidence := 0.5 |}
           end)).
    { intros A.
      destruct (truthyNumber (getProperty ShelfLife.SHELF_LIFE_BY_INGREDIENT n))
        eqn:V.
      - apply Props.ResVocabulary; assumption.
      - destruct (bestMatchFor_firstMinimum n) as [k [d [B _]]].
        rewrite B. cbv zeta.
        destruct (Qle_bool 0.55
                    (ShelfLife.similarityOf d
                       (Nat.max (String.length k) (String.length n)))) eqn:S.
        + eapply Props.ResFuzzy; eassumption.
        + eapply Props.ResNew; eassumption. }
    destruct (getProperty ShelfLife.INGREDIENT_ALIASES n) as [alias|] eqn:A.
    + destruct (truthyString (Some alias)) eqn:T.
      * apply Props.ResAlias; assumption.
      * apply Rest. reflexivity.
    + apply Rest. reflexivity.
Qed.

Lemma canonicalize_normalized (a b : string) :
  ShelfLife.normalizeToken a = ShelfLife.normalizeToken b ->
  ShelfLife.canonicalizeIngredient a = ShelfLife.canonicalizeIngredient b.
Proof.
  intros E. unfold ShelfLife.canonicalizeIngredient. rewrite E. reflexivity.
Qed.

Lemma assoc_In {A : Type} (k : string) (l : list (string * A)) (v : A) :
  assoc k l = Some v -> In (k, v) l.
Proof.
  induction l as [|[k' v'] l IH]; cbn; [discriminate|].
  destruct (String.eqb k k') eqn:E.
  - intros [= <-]. apply String.eqb_eq in E. subst. left. reflexivity.
  - intros H. right. apply IH. exact H.
Qed.

(** A lookup with a lowercase key other than [constructor] finds what the
    literal defines and nothing else. *)
Lemma getProperty_own {A : Type} (obj : list (string * A)) (n : string) :
  Props.lowercase n -> n <> "constructor" ->
  getProperty obj n = option_map Just (assoc n obj).
Proof.
  intros L N. unfold getProperty. destruct (assoc n obj); [reflexivity|].
  destruct (inb n objectPrototype) eqn:I; [|reflexivity].
  exfalso. apply N. apply lowercase_member; assumption.
Qed.

(** Every vocabulary entry and every alias target resolves to itself, and
    none of them is empty or the sentinel. *)
Lemma vocabulary_resolves (k : string) :
  In k (keys ShelfLife.SHELF_LIFE_BY_INGREDIENT) ->
  ShelfLife.canonicalName (ShelfLife.canonicalizeIngredient k) = Just k
  /\ k <> "" /\ k <> "unknown".
Proof.
  assert (T : forallb (fun k =>
                strictEq (ShelfLife.canonicalName
                            (ShelfLife.canonicalizeIngredient k)) k
                && negb (String.eqb k "") && negb (String.eqb k "unknown"))
              (keys ShelfLife.SHELF_LIFE_BY_INGREDIENT) = true)
    by (vm_compute; reflexivity).
  rewrite forallb_forall in T. intros H. specialize (T k H).
  apply andb_true_iff in T. destruct T as [T U].
  apply andb_true_iff in T. destruct T as [T E].
  apply negb_true_iff, String.eqb_neq in U.
  apply negb_true_iff, String.eqb_neq in E.
  repeat split; try assumption.
  destruct (ShelfLife.canonicalName (ShelfLife.canonicalizeIngredient k));
    cbn in T; [|discriminate].
  apply String.eqb_eq in T. subst. reflexivity.
Qed.

Lemma alias_resolves (n v : string) :
  In (n, v) ShelfLife.INGREDIENT_ALIASES ->
  ShelfLife.canonicalName (ShelfLife.canonicalizeIngredient v) = Just v
  /\ v <> "" /\ v <> "unknown".
Proof.
  intros H. apply vocabulary_resolves.
  assert (T : forallb (fun kv => inb (snd kv)
                                     (keys ShelfLife.SHELF_LIFE_BY_INGREDIENT))
                      ShelfLife.INGREDIENT_ALIASES = true)
    by (vm_compute; reflexivity).
  rewrite forallb_forall in T. specialize (T _ H). cbn [snd] in T.
  unfold inb in T. apply existsb_exists in T. destruct T as [x [Hx E]].
  apply String.eqb_eq in E. subst. exact Hx.
Qed.

(** ** Confidence *)

Lemma toFixed2_positive (x : Q) :
  Qle_bool 0.55 x = true -> (0 < ShelfLife.toFixed2 x)%Q.
Proof.
  intros H. apply Qle_bool_iff in H. unfold ShelfLife.toFixed2.
  assert (G : (55 # 1 <= x * 100 + (1 # 2))%Q) by lra.
  apply Qfloor_resp_le in G. change (Qfloor (55 # 1)) with 55%Z in G.
  unfold Qlt. cbn [Qnum Qden]. lia.
Qed.

Lemma similarityOf_nonzero (d m : nat) :
  m <> 0%nat ->
  ShelfLife.similarityOf d m
  = (1 - ShelfLife.natQ d / ShelfLife.natQ m)%Q.
Proof.
  intros H. unfold ShelfLife.similarityOf.
  destruct (Nat.eqb_spec m 0); [contradiction | reflexivity].
Qed.

Lemma length_nonempty (s : string) : s <> "" -> String.length s <> 0%nat.
Proof. destruct s; [congruence | discriminate]. Qed.

(** ** Canonicalization: sentinel, fuzzy fallback, idempotence *)

(** C4, as stated, fails: the input [unknown] does not normalize to the
    empty string, and the canonical name returned for it is the sentinel
    [unknown]. *)
Lemma C4_unknown_for_nonempty_input :
  ShelfLife.normalizeToken "unknown" <> ""
  /\ ShelfLife.canonicalName (ShelfLife.canonicalizeIngredient "unknown")
     = Just "unknown".
Proof. split; [vm_compute; discriminate | vm_compute; reflexivity]. Qed.

(** The sentinel and the confidence, in each of the five ways in which
    [canonicalizeIngredient] returns. *)
Lemma sentinel_cases (raw : string) :
  ((ShelfLife.canonicalName (ShelfLife.canonicalizeIngredient raw)
      = Just "unknown"
    /\ (ShelfLife.confidence (ShelfLife.canonicalizeIngredient raw) == 0)%Q)
   <-> ShelfLife.normalizeToken raw = "")
  /\ (ShelfLife.normalizeToken raw <> "" ->
      ShelfLife.canonicalName (ShelfLife.canonicalizeIngredient raw) <> Just ""
      /\ (0 < ShelfLife.confidence (ShelfLife.canonicalizeIngredient raw))%Q)
  /\ (ShelfLife.canonicalName (ShelfLife.canonicalizeIngredient raw)
        = Just "unknown"
      <-> ShelfLife.normalizeToken raw = ""
          \/ ShelfLife.normalizeToken raw = "unknown")
  /\ (ShelfLife.normalizeToken raw = "unknown" ->
      ShelfLife.canonicalizeIngredient raw
      = {| ShelfLife.canonicalName := Just "unknown";
           ShelfLife.confidence := 0.5 |}).
Proof.
  assert (U : ShelfLife.normalizeToken raw = "unknown" ->
              ShelfLife.canonicalizeIngredient raw
              = {| ShelfLife.canonicalName := Just "unknown";
                   ShelfLife.confidence := 0.5 |}).
  { intros E. rewrite (canonicalize_normalized raw "unknown") by exact E.
    vm_compute. reflexivity. }
  pose proof (canonicalize_resolution raw) as R.
  remember (ShelfLife.normalizeToken raw) as n eqn:En.
  remember (ShelfLife.canonicalizeIngredient raw) as r eqn:Er.
  destruct R as [E | alias N A T | N A V | k d N A V B S | k d N A V B S];
    cbn [ShelfLife.canonicalName ShelfLife.confidence];
    (split; [|split; [|split; [|exact U]]]).
  - (* empty *)
    split; [intros _; exact E | intros _; split; reflexivity].
  - intros H; contradiction.
  - split; [intros _; left; exact E | reflexivity].
  - (* alias *)
    split; [intros [_ C]; vm_compute in C; discriminate C
           | intros H; contradiction].
  - intros _. split; [|reflexivity].
    unfold getProperty in A.
    destruct (assoc n ShelfLife.INGREDIENT_ALIASES) as [v|] eqn:Av.
    + injection A as <-. apply assoc_In in Av.
      destruct (alias_resolves _ _ Av) as [_ [V1 _]].
      intros [= ->]. contradiction.
    + destruct (inb n objectPrototype); [|discriminate].
      injection A as <-. discriminate.
  - split.
    + intros ->. unfold getProperty in A.
      destruct (assoc n ShelfLife.INGREDIENT_ALIASES) as [v|] eqn:Av.
      * injection A as ->. apply assoc_In in Av.
        destruct (alias_resolves _ _ Av) as [_ [_ V2]]. contradiction.
      * destruct (inb n objectPrototype); discriminate.
    + intros [H | H]; [contradiction|].
      exact (f_equal ShelfLife.canonicalName (U H)).
  - (* vocabulary *)
    split; [intros [_ C]; vm_compute in C; discriminate C
           | intros H; contradiction].
  - intros _. split; [intros [= H]; contradiction | reflexivity].
  - split; [intros [= H]; right; exact H
           | intros [H | H]; [contradiction | rewrite H; reflexivity]].
  - (* fuzzy match *)
    pose proof (toFixed2_positive _ S) as P.
    split; [intros [_ C]; rewrite C in P; discriminate P
           | intros H; contradiction].
  - pose proof (toFixed2_positive _ S) as P.
    destruct (bestMatchFor_firstMinimum n) as [k' [d' [B' M]]].
    rewrite B in B'. injection B' as <- <-.
    apply firstMinimum_In in M.
    destruct (vocabulary_resolves _ M) as [_ [K1 _]].
    intros _. split; [intros [= H]; contradiction | exact P].
  - destruct (bestMatchFor_firstMinimum n) as [k' [d' [B' M]]].
    rewrite B in B'. injection B' as <- <-.
    apply firstMinimum_In in M.
    destruct (vocabulary_resolves _ M) as [_ [_ K2]].
    split; [intros [= H]; contradiction|].
    intros [H | H]; [contradiction|].
    exact (f_equal ShelfLife.canonicalName (U H)).
  - (* new name *)
    split; [intros [_ C]; vm_compute in C; discriminate C
           | intros H; contradiction].
  - intros _. split; [intros [= H]; contradiction | reflexivity].
  - split; [intros [= H]; right; exact H
           | intros [H | H]; [contradiction | rewrite H; reflexivity]].
Qed.

(** For an input that does not normalize to [constructor] the canonical
    name is a string, and not the empty one. *)
Lemma canonical_name_string (raw : string) :
  ShelfLife.normalizeToken raw <> "constructor" ->
  exists s,
    ShelfLife.canonicalName (ShelfLife.canonicalizeIngredient raw) = Just s
    /\ s <> "".
Proof.
  intros C.
  pose proof (normalizeToken_lowercase raw) as L.
  pose proof (canonicalize_resolution raw) as R.
  remember (ShelfLife.normalizeToken raw) as n eqn:En.
  remember (ShelfLife.canonicalizeIngredient raw) as r eqn:Er.
  destruct R as [E | alias N A T | N A V | k d N A V B S | k d N A V B S];
    cbn [ShelfLife.canonicalName].
  - exists "unknown". split; [reflexivity | discriminate].
  - rewrite (getProperty_own ShelfLife.INGREDIENT_ALIASES n L C) in A.
    destruct (assoc n ShelfLife.INGREDIENT_ALIASES) as [v|] eqn:Av;
      [|discriminate].
    injection A as <-. apply assoc_In in Av.
    destruct (alias_resolves _ _ Av) as [_ [V1 _]].
    exists v. split; [reflexivity | exact V1].
  - exists n. split; [reflexivity | exact N].
  - destruct (bestMatchFor_firstMinimum n) as [k' [d' [B' M]]].
    rewrite B in B'. injection B' as <- <-.
    apply firstMinimum_In in M.
    destruct (vocabulary_resolves _ M) as [_ [K1 _]].
    exists k. split; [reflexivity | exact K1].
  - exists n. split; [reflexivity | exact N].
Qed.

(** For an input that normalizes to [constructor] the result is that of
    the input [constructor]: the member of that name which every object
    inherits, at the confidence of an alias. *)
Lemma canonical_name_constructor (raw : string) :
  ShelfLife.normalizeToken raw = "constructor" ->
  ShelfLife.canonicalizeIngredient raw
  = {| ShelfLife.canonicalName := Member "constructor";
       ShelfLife.confidence := 0.95 |}.
Proof.
  intros C.
  rewrite (canonicalize_normalized raw "constructor")
    by (rewrite C; vm_compute; reflexivity).
  vm_compute. reflexivity.
Qed.

(** C4, amended: [canonicalizeIngredient] returns the name [unknown] with
    confidence 0 if and only if the input normalizes to the empty string;
    for every other input it returns without error, with positive
    confidence, a canonical name that is a string and not the empty one,
    except for the inputs that normalize to [constructor]: for these it
    returns the function [Object.prototype.constructor], at confidence
    0.95.  The name returned is [unknown] exactly when the input normalizes
    to the empty string or to [unknown] itself, and in the second case the
    confidence is 0.5. *)
Theorem C4_sentinel (raw : string) :
  ((ShelfLife.canonicalName (ShelfLife.canonicalizeIngredient raw)
      = Just "unknown"
    /\ (ShelfLife.confidence (ShelfLife.canonicalizeIngredient raw) == 0)%Q)
   <-> ShelfLife.normalizeToken raw = "")
  /\ (ShelfLife.normalizeToken raw <> "" ->
      (0 < ShelfLife.confidence (ShelfLife.canonicalizeIngredient raw))%Q
      /\ (ShelfLife.normalizeToken raw <> "constructor" ->
          exists s,
            ShelfLife.canonicalName (ShelfLife.canonicalizeIngredient raw)
            = Just s
            /\ s <> "")
      /\ (ShelfLife.normalizeToken raw = "constructor" ->
          ShelfLife.canonicalizeIngredient raw
          = {| ShelfLife.canonicalName := Member "constructor";
               ShelfLife.confidence := 0.95 |}))
  /\ (ShelfLife.canonicalName (ShelfLife.canonicalizeIngredient raw)
        = Just "unknown"
      <-> ShelfLife.normalizeToken raw = ""
          \/ ShelfLife.normalizeToken raw = "unknown")
  /\ (ShelfLife.normalizeToken raw = "unknown" ->
      ShelfLife.canonicalizeIngredient raw
      = {| ShelfLife.canonicalName := Just "unknown";
           ShelfLife.confidence := 0.5 |}).
Proof.
  destruct (sentinel_cases raw) as [A [B [C D]]].
  split; [exact A|]. split; [|split; [exact C | exact D]].
  intros N. split; [apply (B N)|]. split.
  - apply canonical_name_string.
  - apply canonical_name_constructor.
Qed.

(** The fuzzy fallback: for an input whose normalization [n] is not empty,
    is no key of the alias table, no vocabulary entry and not
    [constructor], the result is decided by the first vocabulary entry at
    the least edit distance [d] from [n]: with
    [similarity = 1 - d / max(len(n), len(entry))], that entry at
    confidence [similarity] rounded to two decimals when
    [similarity >= 0.55], and [n] itself at confidence 0.5 otherwise. *)
Lemma canonicalize_fuzzy (raw : string) :
  ShelfLife.normalizeToken raw <> "" ->
  assoc (ShelfLife.normalizeToken raw) ShelfLife.INGREDIENT_ALIASES = None ->
  assoc (ShelfLife.normalizeToken raw) ShelfLife.SHELF_LIFE_BY_INGREDIENT = None ->
  ShelfLife.normalizeToken raw <> "constructor" ->
  exists (entry : string) (d : nat),
    Props.firstMinimum
      (Props.editDistance (ShelfLife.normalizeToken raw))
      (keys ShelfLife.SHELF_LIFE_BY_INGREDIENT) entry d
    /\ let similarity :=
         (1 - ShelfLife.natQ d
              / ShelfLife.natQ
                  (Nat.max (String.length entry)
                           (String.length (ShelfLife.normalizeToken raw))))%Q in
       ShelfLife.canonicalizeIngredient raw
       = if Qle_bool 0.55 similarity
         then {| ShelfLife.canonicalName := Just entry;
                 ShelfLife.confidence := ShelfLife.toFixed2 similarity |}
         else {| ShelfLife.canonicalName := Just (ShelfLife.normalizeToken raw);
                 ShelfLife.confidence := 0.5 |}.
Proof.
  intros N A V C.
  pose proof (normalizeToken_lowercase raw) as L.
  pose proof (getProperty_own ShelfLife.INGREDIENT_ALIASES _ L C) as PA.
  pose proof (getProperty_own ShelfLife.SHELF_LIFE_BY_INGREDIENT _ L C) as PV.
  rewrite A in PA. rewrite V in PV. cbn in PA, PV.
  destruct (bestMatchFor_firstMinimum (ShelfLife.normalizeToken raw))
    as [k [d [B M]]].
  exists k, d. split.
  { eapply firstMinimum_ext; [|exact M].
    intros x. apply levenshteinDistance_editDistance. }
  cbv zeta.
  rewrite <- (similarityOf_nonzero d
                (Nat.max (String.length k)
                         (String.length (ShelfLife.normalizeToken raw)))).
  2:{ pose proof (length_nonempty _ N). lia. }
  unfold ShelfLife.canonicalizeIngredient.
  apply String.eqb_neq in N. rewrite N, PA, PV. cbn [truthyString truthyNumber].
  rewrite B. reflexivity.
Qed.

(** C3: the input [constructor] normalizes to itself, a name that is not
    empty, is no key of the alias table and no vocabulary entry.  The
    nearest vocabulary entry is [potato] at distance 7, of similarity
    [1 - 7/11 < 0.55], so the fuzzy fallback gives the name [constructor]
    at confidence 0.5.  The code returns instead, at confidence 0.95, the
    member [constructor] that the alias object inherits from
    [Object.prototype]. *)
Theorem C3_constructor_is_taken_for_an_alias :
  ShelfLife.normalizeToken "constructor" = "constructor"
  /\ assoc "constructor" ShelfLife.INGREDIENT_ALIASES = None
  /\ assoc "constructor" ShelfLife.SHELF_LIFE_BY_INGREDIENT = None
  /\ ShelfLife.bestMatchFor "constructor" = ("potato", Some 7%nat)
  /\ Qle_bool 0.55 (ShelfLife.similarityOf 7 11) = false
  /\ getProperty ShelfLife.INGREDIENT_ALIASES "constructor"
     = Some (Member "constructor")
  /\ ShelfLife.canonicalizeIngredient "constructor"
     = {| ShelfLife.canonicalName := Member "constructor";
          ShelfLife.confidence := 0.95 |}.
Proof. repeat split; vm_compute; reflexivity. Qed.

(** Resolving a returned name again gives the same name, for every input
    that does not normalize to [constructor]. *)
Lemma canonicalize_idempotent (raw : string) :
  ShelfLife.normalizeToken raw <> "constructor" ->
  exists again,
    ShelfLife.canonicalizeValue
      (ShelfLife.canonicalName (ShelfLife.canonicalizeIngredient raw))
    = Ok again
    /\ ShelfLife.canonicalName again
       = ShelfLife.canonicalName (ShelfLife.canonicalizeIngredient raw).
Proof.
  intros C.
  pose proof (normalizeToken_lowercase raw) as L.
  assert (Self :
    ShelfLife.canonicalName (ShelfLife.canonicalizeIngredient raw)
    = Just (ShelfLife.normalizeToken raw) ->
    exists again,
      ShelfLife.canonicalizeValue (Just (ShelfLife.normalizeToken raw))
      = Ok again
      /\ ShelfLife.canonicalName again = Just (ShelfLife.normalizeToken raw)).
  { intros H. eexists. split; [reflexivity|].
    rewrite (canonicalize_normalized (ShelfLife.normalizeToken raw) raw)
      by apply normalizeToken_idempotent.
    exact H. }
  pose proof (canonicalize_resolution raw) as R.
  remember (ShelfLife.normalizeToken raw) as n eqn:En.
  remember (ShelfLife.canonicalizeIngredient raw) as r eqn:Er.
  destruct R as [E | alias N A T | N A V | k d N A V B S | k d N A V B S];
    cbn [ShelfLife.canonicalName ShelfLife.confidence] in *.
  - eexists. split; [reflexivity | vm_compute; reflexivity].
  - rewrite (getProperty_own ShelfLife.INGREDIENT_ALIASES _ L C) in A.
    destruct (assoc n ShelfLife.INGREDIENT_ALIASES) as [v|] eqn:Av;
      [|discriminate].
    injection A as <-. apply assoc_In in Av.
    destruct (alias_resolves _ _ Av) as [V1 _].
    eexists. split; [reflexivity | exact V1].
  - apply Self. reflexivity.
  - destruct (bestMatchFor_firstMinimum n) as [k' [d' [B' M]]].
    rewrite B in B'. injection B' as <- <-.
    apply firstMinimum_In in M.
    destruct (vocabulary_resolves _ M) as [K1 _].
    eexists. split; [reflexivity | exact K1].
  - apply Self. reflexivity.
Qed.

(** C8: for the input [constructor] the canonical name returned is the
    member [constructor] of [Object.prototype], a function; resolving that
    name again throws a [TypeError], since a function has no
    [toLowerCase]. *)
Theorem C8_constructor_is_not_resolved_again :
  ShelfLife.canonicalName (ShelfLife.canonicalizeIngredient "constructor")
  = Member "constructor"
  /\ ShelfLife.canonicalizeValue
       (ShelfLife.canonicalName (ShelfLife.canonicalizeIngredient "constructor"))
     = Throw TypeError.
Proof. split; vm_compute; reflexivity. Qed.

(** ** The map of the deduplication pass *)

Lemma mapSet_same {V : Type} (k : string) (v : V) (m : list (string * V)) :
  assoc k (ReceiptParser.mapSet k v m) = Some v.
Proof.
  induction m as [|[k' v'] m IH]; cbn.
  - rewrite String.eqb_refl. reflexivity.
  - destruct (String.eqb k k') eqn:E; cbn; rewrite ?String.eqb_refl, ?E;
      [reflexivity | exact IH].
Qed.

Lemma mapSet_other {V : Type} (k k0 : string) (v : V) (m : list (string * V)) :
  k0 <> k -> assoc k0 (ReceiptParser.mapSet k v m) = assoc k0 m.
Proof.
  intros N. induction m as [|[k' v'] m IH]; cbn.
  - apply String.eqb_neq in N. rewrite N. reflexivity.
  - destruct (String.eqb k k') eqn:E; cbn.
    + apply String.eqb_eq in E. subst k'.
      apply String.eqb_neq in N. rewrite N. reflexivity.
    + rewrite IH. reflexivity.
Qed.

Lemma assoc_None_keys {V : Type} (k : string) (m : list (string * V)) :
  assoc k m = None -> ~ In k (map fst m).
Proof.
  induction m as [|[k' v'] m IH]; cbn; [tauto|].
  destruct (String.eqb k k') eqn:E; [discriminate|].
  apply String.eqb_neq in E. intros H [F | F]; [congruence | tauto].
Qed.

Lemma mapSet_keys {V : Type} (k : string) (v : V) (m : list (string * V)) :
  map fst (ReceiptParser.mapSet k v m)
  = match assoc k m with
    | Some _ => map fst m
    | None => map fst m ++ [k]
    end.
Proof.
  induction m as [|[k' v'] m IH]; cbn; [reflexivity|].
  destruct (String.eqb k k') eqn:E; cbn.
  - apply String.eqb_eq in E. subst. reflexivity.
  - rewrite IH. destruct (assoc k m); reflexivity.
Qed.

Lemma mapSet_NoDup {V : Type} (k : string) (v : V) (m : list (string * V)) :
  NoDup (map fst m) -> NoDup (map fst (ReceiptParser.mapSet k v m)).
Proof.
  intros H. rewrite mapSet_keys. destruct (assoc k m) eqn:A; [exact H|].
  apply assoc_None_keys in A.
  apply NoDup_rev in H. rewrite <- (rev_involutive (map fst m ++ [k])).
  apply NoDup_rev. rewrite rev_app_distr. cbn. constructor; [|exact H].
  rewrite <- in_rev. exact A.
Qed.

Lemma In_assoc {V : Type} (k : string) (v : V) (m : list (string * V)) :
  NoDup (map fst m) -> In (k, v) m -> assoc k m = Some v.
Proof.
  induction m as [|[k' v'] m IH]; cbn; [tauto|].
  intros H [E | I].
  - injection E as -> ->. rewrite String.eqb_refl. reflexivity.
  - inversion H as [|? ? N D]; subst.
    destruct (String.eqb k k') eqn:E.
    + apply String.eqb_eq in E. subst. exfalso. apply N.
      change k' with (fst (k', v)). apply in_map. exact I.
    + apply IH; assumption.
Qed.

Lemma dedupStep_get (m : list (string * ParsedReceiptItem.t))
      (item : ParsedReceiptItem.t) (k : string) :
  assoc k (ReceiptParser.dedupStep m item)
  = if String.eqb (ReceiptParser.keyOf item) k
    then Some (match assoc k m with
               | Some existing => ReceiptParser.merge existing item
               | None => item
               end)
    else assoc k m.
Proof.
  unfold ReceiptParser.dedupStep, ReceiptParser.mapGet.
  destruct (String.eqb (ReceiptParser.keyOf item) k) eqn:E.
  - apply String.eqb_eq in E. subst k.
    destruct (assoc (ReceiptParser.keyOf item) m); apply mapSet_same.
  - apply String.eqb_neq in E.
    destruct (assoc (ReceiptParser.keyOf item) m);
      apply mapSet_other; congruence.
Qed.

Lemma dedupStep_NoDup (m : list (string * ParsedReceiptItem.t))
      (item : ParsedReceiptItem.t) :
  NoDup (map fst m) -> NoDup (map fst (ReceiptParser.dedupStep m item)).
Proof.
  intros H. unfold ReceiptParser.dedupStep.
  destruct (ReceiptParser.mapGet (ReceiptParser.keyOf item) m);
    apply mapSet_NoDup; exact H.
Qed.

Lemma dedupLoop_NoDup (l : list ParsedReceiptItem.t) :
  forall m, NoDup (map fst m) ->
            NoDup (map fst (fold_left ReceiptParser.dedupStep l m)).
Proof.
  induction l as [|item l IH]; intros m H; cbn; [exact H|].
  apply IH, dedupStep_NoDup, H.
Qed.

(** What the finished map holds under the key [k]: the lines of that key,
    merged from left to right into the entry that was there, or into the
    first of them. *)
Lemma dedupLoop_get (k : string) (l : list ParsedReceiptItem.t) :
  forall m,
    assoc k (fold_left ReceiptParser.dedupStep l m)
    = match assoc k m,
            filter (fun p => String.eqb (ReceiptParser.keyOf p) k) l with
      | Some existing, group =>
          Some (fold_left ReceiptParser.merge group existing)
      | None, [] => None
      | None, first :: group =>
          Some (fold_left ReceiptParser.merge group first)
      end.
Proof.
  induction l as [|item l IH]; intros m; cbn [fold_left filter].
  - destruct (assoc k m); reflexivity.
  - rewrite IH, dedupStep_get.
    destruct (String.eqb (ReceiptParser.keyOf item) k);
      destruct (assoc k m); reflexivity.
Qed.

(** ** Quantities *)

Lemma digitsToZ_nonneg (l : list ascii) : (0 <= digitsToZ l)%Z.
Proof.
  unfold digitsToZ.
  assert (G : forall acc, (0 <= acc)%Z ->
     (0 <= fold_left (fun acc c => 10 * acc + Z.of_N (code c - 48)) l acc)%Z).
  { induction l as [|c l IH]; intros acc H; cbn [fold_left]; [exact H|].
    apply IH. pose proof (N2Z.is_nonneg (code c - 48)). lia. }
  apply G. lia.
Qed.

Lemma roundEven_nonneg (n : Z) : (0 <= n)%Z -> (0 <= roundEven n)%Z.
Proof.
  intros H. unfold roundEven. destruct (n <? 2 ^ 53)%Z; [exact H|].
  cbv zeta.
  assert (P : (0 <= 2 ^ (Z.log2 n - 52))%Z) by (apply Z.pow_nonneg; lia).
  assert (Q : (0 <= n / 2 ^ (Z.log2 n - 52))%Z)
    by (apply Z_div_nonneg_nonneg; assumption).
  destruct (_ || _); apply Z.mul_nonneg_nonneg; lia.
Qed.

Lemma fromInteger_nonneg (n : Z) :
  (0 <= n)%Z -> Props.nonNegative (fromInteger n).
Proof.
  intros H. unfold fromInteger. cbv zeta.
  destruct (roundEven n <? 2 ^ 1024)%Z; unfold Props.nonNegative;
    [apply roundEven_nonneg, H | exact I].
Qed.

(** An integer up to 2^53 is a double. *)
Lemma fromInteger_exact (n : Z) :
  (0 <= n <= 2 ^ 53)%Z -> fromInteger n = Finite n.
Proof.
  intros [H0 H1]. destruct (Z.eq_dec n (2 ^ 53)) as [-> | N].
  - vm_compute. reflexivity.
  - unfold fromInteger, roundEven.
    destruct (Z.ltb_spec n (2 ^ 53)) as [L | L]; [|lia].
    cbv zeta.
    destruct (Z.ltb_spec n (2 ^ 1024)) as [B | B]; [reflexivity|].
    exfalso. apply (Z.lt_irrefl n).
    eapply Z.lt_le_trans; [exact L|].
    eapply Z.le_trans; [|exact B].
    apply Z.pow_le_mono_r; lia.
Qed.

Lemma add_nonneg (a b : number) :
  Props.nonNegative a -> Props.nonNegative b -> Props.nonNegative (add a b).
Proof.
  destruct a as [x|], b as [y|]; cbn [add]; intros A B; try exact I.
  apply fromInteger_nonneg. unfold Props.nonNegative in A, B. lia.
Qed.

Lemma fold_add_nonneg (qs : list number) :
  Forall Props.nonNegative qs ->
  forall a, Props.nonNegative a -> Props.nonNegative (fold_left add qs a).
Proof.
  induction 1 as [|q qs Hq _ IH]; intros a A; cbn [fold_left]; [exact A|].
  apply IH, add_nonneg; assumption.
Qed.

Lemma sumQuantity_nonneg (l : list ParsedReceiptItem.t) :
  (forall p, In p l -> Props.nonNegative (ParsedReceiptItem.quantity p)) ->
  Props.nonNegative (Props.sumQuantity l).
Proof.
  unfold Props.sumQuantity. destruct l as [|x l]; cbn [map]; intros H.
  - unfold Props.nonNegative. lia.
  - apply fold_add_nonneg; [|apply H; left; reflexivity].
    apply Forall_forall. intros q Hq. apply in_map_iff in Hq.
    destruct Hq as [p [<- Hp]]. apply H. right. exact Hp.
Qed.

Lemma total_nonneg (ns : list Z) :
  Forall (fun n => 0 <= n)%Z ns -> (0 <= Props.total ns)%Z.
Proof.
  unfold Props.total. induction 1 as [|n ns Hn _ IH]; cbn [fold_right]; lia.
Qed.

(** Integers that are not negative add up exactly as long as their sum
    is at most 2^53. *)
Lemma sum_exact (ns : list Z) :
  Forall (fun n => 0 <= n)%Z ns ->
  forall a, (0 <= a)%Z -> (a + Props.total ns <= 2 ^ 53)%Z ->
  fold_left add (map Finite ns) (Finite a) = Finite (a + Props.total ns).
Proof.
  induction 1 as [|n ns Hn F IH]; intros a A B;
    unfold Props.total in *; cbn [map fold_left fold_right] in *.
  - f_equal. lia.
  - pose proof (total_nonneg ns F) as T. unfold Props.total in T.
    cbn [add]. rewrite fromInteger_exact by lia.
    rewrite IH by lia. f_equal. lia.
Qed.

Lemma inferQuantity_nonneg (line : string) :
  Props.nonNegative (ReceiptParser.inferQuantity line).
Proof.
  unfold ReceiptParser.inferQuantity.
  destruct (Regex.firstCapture _ line).
  - apply fromInteger_nonneg, digitsToZ_nonneg.
  - unfold Props.nonNegative. lia.
Qed.

Lemma parseLines_nonneg (lines : list string) (p : ParsedReceiptItem.t) :
  In p (ReceiptParser.parseLines lines) ->
  Props.nonNegative (ParsedReceiptItem.quantity p).
Proof.
  unfold ReceiptParser.parseLines. intros H. apply in_flat_map in H.
  destruct H as [line [_ H]]. unfold ReceiptParser.parseLine in H.
  destruct (existsb _ ReceiptParser.IGNORED_LINE_PATTERNS); [destruct H|].
  destruct (_ || _); [destruct H|].
  destruct (strictEq _ _); [destruct H|].
  destruct H as [<- | []]. cbn [ParsedReceiptItem.quantity].
  apply inferQuantity_nonneg.
Qed.

(** The integers that quantities hold are not negative. *)
Lemma quantities_nonneg (l : list ParsedReceiptItem.t) :
  (forall p, In p l -> Props.nonNegative (ParsedReceiptItem.quantity p)) ->
  forall ns, map ParsedReceiptItem.quantity l = map Finite ns ->
             Forall (fun n => 0 <= n)%Z ns.
Proof.
  induction l as [|x l IH]; intros H [|n ns] E; try discriminate E;
    [constructor|].
  cbn [map] in E. injection E as E1 E2. constructor.
  - pose proof (H x (or_introl eq_refl)) as Hx. rewrite E1 in Hx. exact Hx.
  - apply IH; [|exact E2]. intros p Hp. apply H. right. exact Hp.
Qed.

(** Quantities past 2^53 are rounded, when read and when added. *)
Lemma large_quantities_are_rounded :
  map ParsedReceiptItem.quantity
      (ReceiptParser.parseReceiptText
         (Props.text ["9007199254740992x milk"; "1x milk"]))
  = [Finite 9007199254740992]
  /\ map ParsedReceiptItem.quantity
         (ReceiptParser.parseReceiptText "9007199254740995x milk")
     = [Finite 9007199254740996].
Proof. split; vm_compute; reflexivity. Qed.

Lemma Qmax_left (a b : Q) : (a <= ReceiptParser.Qmax a b)%Q.
Proof.
  unfold ReceiptParser.Qmax. destruct (Qle_bool a b) eqn:E.
  - apply Qle_bool_iff. exact E.
  - apply Qle_refl.
Qed.

Lemma Qmax_right (a b : Q) : (b <= ReceiptParser.Qmax a b)%Q.
Proof.
  unfold ReceiptParser.Qmax. destruct (Qle_bool a b) eqn:E.
  - apply Qle_refl.
  - apply Qlt_le_weak, Qnot_le_lt. intros H.
    apply Qle_bool_iff in H. congruence.
Qed.

Lemma Qmax_either (a b : Q) :
  ReceiptParser.Qmax a b = a \/ ReceiptParser.Qmax a b = b.
Proof. unfold ReceiptParser.Qmax. destruct (Qle_bool a b); auto. Qed.

(** The entry into which a group has been merged. *)
Lemma mergeLoop_fields (group : list ParsedReceiptItem.t) :
  forall first,
    let merged := fold_left ReceiptParser.merge group first in
    ParsedReceiptItem.rawLine merged = ParsedReceiptItem.rawLine first
    /\ ParsedReceiptItem.canonicalName merged
       = ParsedReceiptItem.canonicalName first
    /\ ParsedReceiptItem.displayName merged
       = ParsedReceiptItem.displayName first
    /\ ParsedReceiptItem.unit merged = ParsedReceiptItem.unit first
    /\ ParsedReceiptItem.quantity merged = Props.sumQuantity (first :: group)
    /\ Props.greatest (ParsedReceiptItem.confidence merged)
         (map ParsedReceiptItem.confidence (first :: group)).
Proof.
  induction group as [|item group IH]; intros first; cbn zeta.
  - cbn. repeat split; try reflexivity.
    + left. reflexivity.
    + intros x [<- | []]. apply Qle_refl.
  - cbn [fold_left].
    destruct (IH (ReceiptParser.merge first item))
      as [R [C [D [U [S [G1 G2]]]]]].
    cbn [ReceiptParser.merge ParsedReceiptItem.rawLine
         ParsedReceiptItem.canonicalName ParsedReceiptItem.displayName
         ParsedReceiptItem.unit] in R, C, D, U.
    repeat split; try assumption.
    + cbn [map] in G1 |- *. cbn [ReceiptParser.merge
                                 ParsedReceiptItem.confidence] in G1.
      destruct G1 as [G1 | G1].
      * destruct (Qmax_either (ParsedReceiptItem.confidence first)
                              (ParsedReceiptItem.confidence item)) as [E | E];
          rewrite E in G1; [left | right; left]; exact G1.
      * right. right. exact G1.
    + cbn [map] in G2 |- *. cbn [ReceiptParser.merge
                                 ParsedReceiptItem.confidence] in G2.
      intros x [<- | [<- | H]].
      * eapply Qle_trans; [apply Qmax_left | apply G2; left; reflexivity].
      * eapply Qle_trans; [apply Qmax_right | apply G2; left; reflexivity].
      * apply G2. right. exact H.
Qed.

(** ** Keys and pairs *)

Lemma pairEqb_eq (a b : value string * string) :
  Props.pairEqb a b = true <-> a = b.
Proof.
  destruct a as [[x|x] u], b as [[y|y] w]; unfold Props.pairEqb; cbn;
    rewrite ?andb_true_iff, ?String.eqb_eq; split;
    try (intros [-> ->]; reflexivity); try (intros [= -> ->]; auto);
    try (intros [H _]; discriminate H); try discriminate.
Qed.

Lemma append_colon_inj (a : string) :
  forall a' u u',
    ~ In ":"%char (chars a) -> ~ In ":"%char (chars a') ->
    (a ++ ":" ++ u)%string = (a' ++ ":" ++ u')%string ->
    a = a' /\ u = u'.
Proof.
  induction a as [|c a IH]; intros [|c' a'] u u' Ha Ha' E; cbn in *.
  - injection E as ->. auto.
  - injection E as <- _. tauto.
  - injection E as -> _. tauto.
  - injection E as -> E.
    destruct (IH a' u u') as [-> ->]; [tauto | tauto | exact E | auto].
Qed.

Lemma lowercase_check (s : string) :
  forallb isLower (chars s) = true <-> Props.lowercase s.
Proof.
  unfold Props.lowercase. rewrite forallb_forall, Forall_forall. tauto.
Qed.

Lemma returnedName_no_colon (v : value string) :
  Props.returnedName v -> ~ In ":"%char (chars (toString v)).
Proof.
  destruct v as [s | k]; cbn [Props.returnedName toString].
  - intros L H. rewrite Forall_forall in L. specialize (L _ H).
    vm_compute in L. discriminate L.
  - intros ->. vm_compute. intuition discriminate.
Qed.

Lemma toString_inj (v w : value string) :
  Props.returnedName v -> Props.returnedName w ->
  toString v = toString w -> v = w.
Proof.
  assert (F : ~ Props.lowercase (toString (Member "constructor"))).
  { intros H. apply lowercase_check in H. vm_compute in H. discriminate H. }
  destruct v as [s | k], w as [s' | k'];
    cbn [Props.returnedName]; intros Hv Hw E.
  - cbn in E. congruence.
  - subst k'. change (toString (Just s)) with s in E. subst s.
    contradiction.
  - subst k. change (toString (Just s')) with s' in E. subst s'.
    contradiction.
  - congruence.
Qed.

Lemma keyOf_pairOf (p q : ParsedReceiptItem.t) :
  Props.pairOf p = Props.pairOf q ->
  ReceiptParser.keyOf p = ReceiptParser.keyOf q.
Proof.
  unfold Props.pairOf, ReceiptParser.keyOf. intros [= -> ->]. reflexivity.
Qed.

Lemma keyOf_inj (p q : ParsedReceiptItem.t) :
  Props.returnedName (ParsedReceiptItem.canonicalName p) ->
  Props.returnedName (ParsedReceiptItem.canonicalName q) ->
  ReceiptParser.keyOf p = ReceiptParser.keyOf q ->
  Props.pairOf p = Props.pairOf q.
Proof.
  intros Hp Hq E. unfold ReceiptParser.keyOf in E.
  apply append_colon_inj in E; try (apply returnedName_no_colon; assumption).
  destruct E as [E1 E2]. apply toString_inj in E1; try assumption.
  unfold Props.pairOf. congruence.
Qed.

Lemma canonicalize_returnedName (raw : string) :
  Props.returnedName
    (ShelfLife.canonicalName (ShelfLife.canonicalizeIngredient raw)).
Proof.
  pose proof (normalizeToken_lowercase raw) as L.
  assert (K : forall k, In k (keys ShelfLife.SHELF_LIFE_BY_INGREDIENT) ->
                        Props.lowercase k).
  { assert (T : forallb (fun k => forallb isLower (chars k))
                        (keys ShelfLife.SHELF_LIFE_BY_INGREDIENT) = true)
      by (vm_compute; reflexivity).
    rewrite forallb_forall in T. intros k H. apply lowercase_check, T, H. }
  pose proof (canonicalize_resolution raw) as R.
  remember (ShelfLife.normalizeToken raw) as n eqn:En.
  remember (ShelfLife.canonicalizeIngredient raw) as r eqn:Er.
  destruct R as [E | alias N A T | N A V | k d N A V B S | k d N A V B S];
    cbn [ShelfLife.canonicalName].
  - apply lowercase_check. vm_compute. reflexivity.
  - unfold getProperty in A.
    destruct (assoc n ShelfLife.INGREDIENT_ALIASES) as [v|] eqn:Av.
    + injection A as <-. apply assoc_In in Av.
      assert (T' : forallb (fun kv => forallb isLower (chars (snd kv)))
                           ShelfLife.INGREDIENT_ALIASES = true)
        by (vm_compute; reflexivity).
      rewrite forallb_forall in T'. apply lowercase_check, (T' _ Av).
    + destruct (inb n objectPrototype) eqn:I; [|discriminate].
      injection A as <-. cbn. apply lowercase_member; assumption.
  - exact L.
  - destruct (bestMatchFor_firstMinimum n) as [k' [d' [B' M]]].
    rewrite B in B'. injection B' as <- <-.
    apply K. eapply firstMinimum_In. exact M.
  - exact L.
Qed.

Lemma parseLines_returnedName (lines : list string) (p : ParsedReceiptItem.t) :
  In p (ReceiptParser.parseLines lines) ->
  Props.returnedName (ParsedReceiptItem.canonicalName p).
Proof.
  unfold ReceiptParser.parseLines. intros H. apply in_flat_map in H.
  destruct H as [line [_ H]]. unfold ReceiptParser.parseLine in H.
  destruct (existsb _ ReceiptParser.IGNORED_LINE_PATTERNS); [destruct H|].
  destruct (_ || _); [destruct H|].
  destruct (strictEq _ _); [destruct H|].
  destruct H as [<- | []]. cbn. apply canonicalize_returnedName.
Qed.

(** ** Deduplication *)

(** Every entry of the finished map is stored under its own key and is the
    merge, from left to right, of the lines of that key. *)
Lemma dedupe_entry (parsed : list ParsedReceiptItem.t) (k : string)
      (item : ParsedReceiptItem.t) :
  In (k, item) (fold_left ReceiptParser.dedupStep parsed []) ->
  exists first group,
    filter (fun p => String.eqb (ReceiptParser.keyOf p) k) parsed
    = first :: group
    /\ item = fold_left ReceiptParser.merge group first
    /\ ReceiptParser.keyOf item = k.
Proof.
  intros H. apply In_assoc in H; [|apply dedupLoop_NoDup; constructor].
  rewrite dedupLoop_get in H. cbn [assoc] in H.
  destruct (filter _ parsed) as [|first group] eqn:F; [discriminate|].
  injection H as <-. exists first, group. repeat split.
  assert (I : In first (first :: group)) by (left; reflexivity).
  rewrite <- F in I. apply filter_In in I. destruct I as [_ I].
  apply String.eqb_eq in I. rewrite <- I.
  destruct (mergeLoop_fields group first) as [_ [C [_ [U _]]]].
  unfold ReceiptParser.keyOf. rewrite C, U. reflexivity.
Qed.

(** C9: no two items returned by [parseReceiptText] have the same pair
    (canonicalName, unit); every pair of a parsed line is the pair of a
    returned item; and a returned item carries the raw line and display
    name of the first parsed line of its pair, the sum of the quantities
    and the greatest of the confidences of the parsed lines of its pair.
    The sum is the one that [+] computes, the quantities added in the
    order of the lines; it is the exact sum of the integers that the
    quantities hold whenever that sum is at most 2^53. *)
Theorem C9_deduplication (rawText : string) :
  let parsed := ReceiptParser.parseLines (ReceiptParser.splitLines rawText) in
  let items := ReceiptParser.parseReceiptText rawText in
  NoDup (map Props.pairOf items)
  /\ (forall p, In p parsed ->
        exists item, In item items /\ Props.pairOf item = Props.pairOf p)
  /\ (forall item, In item items ->
        exists first group,
          Props.groupOf item parsed = first :: group
          /\ ParsedReceiptItem.rawLine item = ParsedReceiptItem.rawLine first
          /\ ParsedReceiptItem.displayName item
             = ParsedReceiptItem.displayName first
          /\ ParsedReceiptItem.quantity item
             = Props.sumQuantity (first :: group)
          /\ (forall ns : list Z,
                map ParsedReceiptItem.quantity (first :: group)
                = map Finite ns ->
                (Props.total ns <= 2 ^ 53)%Z ->
                ParsedReceiptItem.quantity item = Finite (Props.total ns))
          /\ Props.greatest (ParsedReceiptItem.confidence item)
               (map ParsedReceiptItem.confidence (first :: group))).
Proof.
  intros parsed items.
  unfold items, ReceiptParser.parseReceiptText, ReceiptParser.dedupe,
    ReceiptParser.mapValues.
  fold parsed.
  set (M := fold_left ReceiptParser.dedupStep parsed []).
  assert (W : forall p, In p parsed ->
                        Props.returnedName (ParsedReceiptItem.canonicalName p))
    by (intros p; apply parseLines_returnedName).
  assert (ND : NoDup (map fst M)) by (apply dedupLoop_NoDup; constructor).
  split; [|split].
  - (* distinct pairs *)
    assert (K : map fst M = map ReceiptParser.keyOf (map snd M)).
    { rewrite map_map. apply map_ext_in. intros [k item] H.
      apply dedupe_entry in H. destruct H as [? [? [_ [_ H]]]].
      cbn. symmetry. exact H. }
    rewrite K in ND. clear K.
    induction (map snd M) as [|x l IH]; cbn in *; constructor;
      inversion ND as [|? ? N D]; subst.
    + intros H. apply N. apply in_map_iff in H.
      destruct H as [y [E I]]. apply in_map_iff. exists y. split; [|exact I].
      apply keyOf_pairOf. exact E.
    + apply IH. exact D.
  - (* every pair is kept *)
    intros p Hp.
    pose proof (dedupLoop_get (ReceiptParser.keyOf p) parsed []) as G.
    fold M in G. cbn [assoc] in G.
    destruct (filter _ parsed) as [|first group] eqn:F.
    + exfalso.
      assert (I : In p (filter (fun q =>
                   String.eqb (ReceiptParser.keyOf q) (ReceiptParser.keyOf p))
                   parsed))
        by (apply filter_In; split; [exact Hp | apply String.eqb_refl]).
      rewrite F in I. destruct I.
    + apply assoc_In in G.
      exists (fold_left ReceiptParser.merge group first). split.
      * apply in_map_iff. eexists. split; [|exact G]. reflexivity.
      * assert (I : In first (first :: group)) by (left; reflexivity).
        rewrite <- F in I. apply filter_In in I. destruct I as [I1 I2].
        apply String.eqb_eq in I2.
        destruct (mergeLoop_fields group first) as [_ [C [_ [U _]]]].
        transitivity (Props.pairOf first).
        -- unfold Props.pairOf. rewrite C, U. reflexivity.
        -- apply keyOf_inj; auto.
  - (* what an item carries *)
    intros item H. apply in_map_iff in H. destruct H as [[k item'] [E H]].
    cbn in E. subst item'. apply dedupe_entry in H.
    destruct H as [first [group [F [-> K]]]].
    assert (I : In first (first :: group)) by (left; reflexivity).
    rewrite <- F in I. apply filter_In in I. destruct I as [I1 I2].
    apply String.eqb_eq in I2.
    destruct (mergeLoop_fields group first) as [R [C [D [U [S G]]]]].
    assert (X : forall ns : list Z,
              map ParsedReceiptItem.quantity (first :: group)
              = map Finite ns ->
              (Props.total ns <= 2 ^ 53)%Z ->
              ParsedReceiptItem.quantity
                (fold_left ReceiptParser.merge group first)
              = Finite (Props.total ns)).
    { intros ns E B.
      assert (P : Forall (fun n => 0 <= n)%Z ns).
      { apply (quantities_nonneg (first :: group)); [|exact E].
        intros p Hp. apply (parseLines_nonneg (ReceiptParser.splitLines rawText)).
        fold parsed. rewrite <- F in Hp. apply filter_In in Hp. apply Hp. }
      rewrite S. unfold Props.sumQuantity. rewrite E.
      destruct ns as [|n ns]; [discriminate E|]. cbn [map].
      inversion P as [|? ? Pn Pns]; subst.
      apply sum_exact; [exact Pns | exact Pn | exact B]. }
    exists first, group. repeat split; try assumption; try apply G.
    rewrite <- F. unfold Props.groupOf. apply filter_ext_in. intros p Hp.
    assert (P : Props.pairOf (fold_left ReceiptParser.merge group first)
                = Props.pairOf first)
      by (unfold Props.pairOf; rewrite C, U; reflexivity).
    rewrite P.
    destruct (String.eqb (ReceiptParser.keyOf p) k) eqn:E.
    + apply pairEqb_eq. apply String.eqb_eq in E.
      apply keyOf_inj; auto. congruence.
    + destruct (Props.pairEqb (Props.pairOf p) (Props.pairOf first)) eqn:E';
        [|reflexivity].
      apply pairEqb_eq in E'. apply keyOf_pairOf in E'.
      apply String.eqb_neq in E. congruence.
Qed.

(** ** Expiration dates *)

(** C6: when a non-empty override is supplied, [expirationDateForItem]
    returns the override as [new Date(override).toISOString()] normalizes
    it (a [RangeError] when the override is no valid date), whatever the
    purchase date and the canonical name are: the result is the same for
    every canonical name, in the shelf-life table or not. *)
Theorem C6_override_bypasses_shelf_life
        (h : JSDate.Host) (canonicalName purchaseDate override : string) :
  override <> "" ->
  ShelfLife.expirationDateForItem h canonicalName purchaseDate (Some override)
  = JSDate.toISOString (JSDate.newDate h override)
  /\ forall otherName otherPurchase,
       ShelfLife.expirationDateForItem h otherName otherPurchase (Some override)
       = ShelfLife.expirationDateForItem h canonicalName purchaseDate
           (Some override).
Proof.
  intros N. apply String.eqb_neq in N.
  unfold ShelfLife.expirationDateForItem. rewrite N. cbn [negb].
  split; [reflexivity | intros; reflexivity].
Qed.

Lemma C6_override_witness :
  "2024-02-01" <> ""
  /\ ShelfLife.expirationDateForItem JSDate.utcHost "dragonfruit" "2024-01-01"
       (Some "2024-02-01")
     = Ok "2024-02-01T00:00:00.000Z"
  /\ ShelfLife.expirationDateForItem JSDate.utcHost "constructor" "no date"
       (Some "2024-02-01")
     = Ok "2024-02-01T00:00:00.000Z".
Proof.
  assert (N : "2024-02-01" <> "") by discriminate.
  destruct (C6_override_bypasses_shelf_life JSDate.utcHost
              "dragonfruit" "2024-01-01" "2024-02-01" N) as [E F].
  split; [exact N|]. split.
  - rewrite E. vm_compute. reflexivity.
  - rewrite (F "constructor" "no date"), E. vm_compute. reflexivity.
Defined.

(** [YearFromTime t] is the year in which the day of [t] lies. *)
Lemma YearFromTime_spec (t : Z) :
  (JSDate.DayFromYear (JSDate.YearFromTime t) <= JSDate.Day t
   < JSDate.DayFromYear (JSDate.YearFromTime t + 1))%Z.
Proof.
  unfold JSDate.YearFromTime.
  set (d := JSDate.Day t). clearbody d.
  set (y := (1970 + d * 400 / 146097)%Z).
  assert (Hy : (146097 * (y - 1970) <= d * 400
                < 146097 * (y - 1970) + 146097)%Z).
  { unfold y. pose proof (Z.div_mod (d * 400) 146097 ltac:(lia)).
    pose proof (Z.mod_pos_bound (d * 400) 146097 ltac:(lia)). lia. }
  clearbody y.
  destruct (JSDate.DayFromYear (y + 1) <=? d)%Z eqn:E1;
    [|destruct (JSDate.DayFromYear y <=? d)%Z eqn:E2];
    rewrite ?Z.leb_le, ?Z.leb_gt in *;
    unfold JSDate.DayFromYear in *;
    Z.div_mod_to_equations; lia.
Qed.

Lemma MonthFromTime_range (t : Z) :
  (0 <= JSDate.MonthFromTime t <= 11)%Z.
Proof.
  unfold JSDate.MonthFromTime.
  repeat match goal with
         | |- context [if ?b then _ else _] => destruct b
         end; lia.
Qed.

(** Setting the day of the month to the current one plus [n] moves the
    local time by [n] days. *)
Lemma MakeDay_shift (t n : Z) :
  JSDate.MakeDate
    (JSDate.MakeDay (JSDate.YearFromTime t) (JSDate.MonthFromTime t)
                    (JSDate.DateFromTime t + n))
    (JSDate.TimeWithinDay t)
  = (t + n * JSDate.msPerDay)%Z.
Proof.
  pose proof (MonthFromTime_range t) as R.
  unfold JSDate.MakeDate, JSDate.MakeDay, JSDate.DateFromTime,
    JSDate.DayWithinYear, JSDate.TimeWithinDay, JSDate.Day.
  rewrite (Z.div_small (JSDate.MonthFromTime t) 12) by lia.
  rewrite (Z.mod_small (JSDate.MonthFromTime t) 12) by lia.
  rewrite Z.add_0_r.
  pose proof (Z.div_mod t JSDate.msPerDay) as D.
  assert (JSDate.msPerDay <> 0)%Z by discriminate.
  specialize (D H). lia.
Qed.

Lemma shelfLife_at_least_2 (name : string) (n : Z) :
  ShelfLife.getShelfLifeDays name = Just n -> (2 <= n)%Z.
Proof.
  unfold ShelfLife.getShelfLifeDays, getProperty.
  destruct (assoc name ShelfLife.SHELF_LIFE_BY_INGREDIENT) as [v|] eqn:A.
  - intros [= <-]. apply assoc_In in A.
    assert (T : forallb (fun kv => (2 <=? snd kv)%Z)
                        ShelfLife.SHELF_LIFE_BY_INGREDIENT = true)
      by (vm_compute; reflexivity).
    rewrite forallb_forall in T. specialize (T _ A). cbn in T. lia.
  - destruct (inb name objectPrototype); [discriminate|].
    intros [= <-]. unfold ShelfLife.DEFAULT_SHELF_LIFE_DAYS. lia.
Qed.

(** Without an override, for a name that is no member of
    [Object.prototype], a valid purchase date and a host whose local time
    is less than a day away from UTC: the expiration is the purchase
    instant moved by the shelf life in local calendar days, an instant
    later than the purchase; it is returned unless it lies beyond the
    range of [Date]. *)
Lemma expiration_after_purchase
      (h : JSDate.Host) (canonicalName purchaseDate : string) (t : Z) :
  (forall t b, Z.abs (JSDate.LocalTZA h t b) < JSDate.msPerDay)%Z ->
  inb canonicalName objectPrototype = false ->
  JSDate.newDate h purchaseDate = Some t ->
  exists n u : Z,
    ShelfLife.getShelfLifeDays canonicalName = Just n
    /\ u = JSDate.UTC h (JSDate.LocalTime h t + n * JSDate.msPerDay)%Z
    /\ (t < u)%Z
    /\ ShelfLife.expirationDateForItem h canonicalName purchaseDate None
       = JSDate.toISOString (JSDate.TimeClip u).
Proof.
  intros TZ I P.
  assert (exists n, ShelfLife.getShelfLifeDays canonicalName = Just n)
    as [n G].
  { unfold ShelfLife.getShelfLifeDays, getProperty. rewrite I.
    destruct (assoc canonicalName ShelfLife.SHELF_LIFE_BY_INGREDIENT);
      eexists; reflexivity. }
  pose proof (shelfLife_at_least_2 _ _ G) as N.
  exists n, (JSDate.UTC h (JSDate.LocalTime h t + n * JSDate.msPerDay)%Z).
  repeat split; try assumption.
  - unfold JSDate.UTC, JSDate.LocalTime.
    pose proof (TZ t true) as Z1.
    pose proof (TZ (t + JSDate.LocalTZA h t true + n * JSDate.msPerDay)%Z false)
      as Z2.
    unfold JSDate.msPerDay in *. lia.
  - unfold ShelfLife.expirationDateForItem. rewrite P, G.
    cbn [JSDate.getDate plusToNumber JSDate.setDate].
    rewrite MakeDay_shift. reflexivity.
Qed.

(** C10: for the canonical name [constructor] the shelf-life lookup finds
    the member that the table inherits from [Object.prototype], a function
    and no number of days; the day of the month is then set to [NaN], the
    date becomes invalid, and [expirationDateForItem] throws a
    [RangeError] for every purchase date instead of returning a later
    timestamp. *)
Theorem C10_constructor_has_no_shelf_life
        (h : JSDate.Host) (purchaseDate : string) :
  ShelfLife.getShelfLifeDays "constructor" = Member "constructor"
  /\ JSDate.newDate JSDate.utcHost "2024-01-01" = Some 1704067200000%Z
  /\ ShelfLife.expirationDateForItem h "constructor" purchaseDate None
     = Throw RangeError.
Proof.
  split; [reflexivity|]. split; [vm_compute; reflexivity|].
  unfold ShelfLife.expirationDateForItem.
  change (ShelfLife.getShelfLifeDays "constructor")
    with (@Member Z "constructor").
  destruct (JSDate.newDate h purchaseDate); reflexivity.
Qed.

(** ** Ranking *)

Lemma rankItem_run (h : JSDate.Host) (clock : JSDate.Clock)
      (item : InventoryItem.t) (n : nat) :
  RecipeFallback.rankItem h clock item n
  = (Props.rankedAt h (clock n) item, S n).
Proof. reflexivity. Qed.

(** The callback of [map] reads the clock once for each item, in the order
    of the array. *)
Lemma mapM_rankItem (h : JSDate.Host) (clock : JSDate.Clock)
      (pantry : list InventoryItem.t) :
  forall n,
    JSDate.mapM (RecipeFallback.rankItem h clock) pantry n
    = (map (fun p => Props.rankedAt h (fst p) (snd p))
           (combine (map clock (seq n (List.length pantry))) pantry),
       (n + List.length pantry)%nat).
Proof.
  induction pantry as [|item pantry IH]; intros n.
  - cbn. rewrite Nat.add_0_r. reflexivity.
  - cbn [JSDate.mapM]. unfold JSDate.bind at 1. rewrite rankItem_run.
    unfold JSDate.bind at 1. rewrite IH. cbn.
    rewrite Nat.add_succ_r. reflexivity.
Qed.

Lemma combine_constant {A B : Type} (a : A) (f : nat -> A) (l : list B) :
  forall n, (forall i, f i = a) ->
            map (fun p => snd p) (combine (map f (seq n (List.length l))) l) = l
            /\ map (fun p => fst p) (combine (map f (seq n (List.length l))) l)
               = map (fun _ => a) l.
Proof.
  induction l as [|b l IH]; intros n H; cbn; [auto|].
  destruct (IH (S n) H) as [E1 E2]. rewrite E1, E2, H. auto.
Qed.

Lemma rankExpiringIngredients_run (h : JSDate.Host) (clock : JSDate.Clock)
      (pantry : list InventoryItem.t) (n : nat) :
  RecipeFallback.rankExpiringIngredients h clock pantry n
  = (RecipeFallback.sort RecipeFallback.comparator
       (map (fun p => Props.rankedAt h (fst p) (snd p))
            (combine (map clock (seq n (List.length pantry))) pantry)),
     (n + List.length pantry)%nat).
Proof.
  unfold RecipeFallback.rankExpiringIngredients, JSDate.bind.
  rewrite mapM_rankItem. reflexivity.
Qed.

Lemma sort_two {A : Type} (cmp : A -> A -> option Z) (a b : A) :
  RecipeFallback.sort cmp [a; b] = [a; b]
  \/ RecipeFallback.sort cmp [a; b] = [b; a].
Proof. cbn. destruct (_ <=? 0)%Z; auto. Qed.

Lemma rankedAt_same_expiration (h : JSDate.Host) (instant : Z)
      (a b : InventoryItem.t) :
  Props.effectiveExpiration a = Props.effectiveExpiration b ->
  RankedIngredient.daysUntilExpiration (Props.rankedAt h instant a)
  = RankedIngredient.daysUntilExpiration (Props.rankedAt h instant b).
Proof. unfold Props.rankedAt. cbn. intros ->. reflexivity. Qed.

(** C2, as stated, fails: two items that expire at the same instant are
    ranked, by a clock that advances between the two readings, as expiring
    in 2 days and in 1 day; no single instant gives that ranking. *)
Lemma C2_no_single_instant :
  map RankedIngredient.daysUntilExpiration
      (fst (RecipeFallback.rankExpiringIngredients
              JSDate.utcHost Props.tickingClock Props.twoItems 0%nat))
  = [Some 1%Z; Some 2%Z]
  /\ ~ exists instant : Z,
         fst (RecipeFallback.rankExpiringIngredients
                JSDate.utcHost Props.tickingClock Props.twoItems 0%nat)
         = Props.rankingAt JSDate.utcHost instant Props.twoItems.
Proof.
  assert (L : map RankedIngredient.daysUntilExpiration
                (fst (RecipeFallback.rankExpiringIngredients
                        JSDate.utcHost Props.tickingClock Props.twoItems 0%nat))
              = [Some 1%Z; Some 2%Z]) by (vm_compute; reflexivity).
  split; [exact L|]. intros [instant H].
  rewrite H in L. clear H.
  unfold Props.rankingAt, Props.twoItems in L. cbn [map] in L.
  pose proof (rankedAt_same_expiration JSDate.utcHost instant
                (Props.item "milk" "1970-01-02T00:00:00.001Z" None)
                (Props.item "egg" "1970-01-02T00:00:00.001Z" None)
                eq_refl) as S.
  destruct (sort_two RecipeFallback.comparator
              (Props.rankedAt JSDate.utcHost instant
                 (Props.item "milk" "1970-01-02T00:00:00.001Z" None))
              (Props.rankedAt JSDate.utcHost instant
                 (Props.item "egg" "1970-01-02T00:00:00.001Z" None)))
    as [T | T];
    rewrite T in L; cbn [map] in L;
    revert S L;
    generalize (RankedIngredient.daysUntilExpiration
                  (Props.rankedAt JSDate.utcHost instant
                     (Props.item "milk" "1970-01-02T00:00:00.001Z" None)));
    generalize (RankedIngredient.daysUntilExpiration
                  (Props.rankedAt JSDate.utcHost instant
                     (Props.item "egg" "1970-01-02T00:00:00.001Z" None)));
    intros x y S L; injection L as L1 L2; congruence.
Qed.

(** C2, amended: one ranking pass reads the clock once for each item, in
    the order of the list, and each item's [daysUntilExpiration] is
    [ceil((effectiveExpiration - instant) / 1 day)] for the instant of its
    own reading; the ranking is a function of the item list and of these
    readings.  When all the readings return one instant, the ranking is
    the ranking of the list against that instant. *)
Theorem C2_one_reading_per_item
        (h : JSDate.Host) (clock : JSDate.Clock)
        (pantry : list InventoryItem.t) (n : nat) :
  RecipeFallback.rankExpiringIngredients h clock pantry n
  = (RecipeFallback.sort RecipeFallback.comparator
       (map (fun p => Props.rankedAt h (fst p) (snd p))
            (combine (map clock (seq n (List.length pantry))) pantry)),
     (n + List.length pantry)%nat)
  /\ forall instant : Z,
       RecipeFallback.rankExpiringIngredients h (fun _ => instant) pantry n
       = (Props.rankingAt h instant pantry, (n + List.length pantry)%nat).
Proof.
  split; [apply rankExpiringIngredients_run|].
  intros instant. rewrite rankExpiringIngredients_run.
  unfold Props.rankingAt. do 2 f_equal.
  generalize n. clear n.
  induction pantry as [|item pantry IH]; intros n; cbn; [reflexivity|].
  rewrite IH. reflexivity.
Qed.

(** *** The order of the ranking *)


Lemma insert_Permutation {A : Type} (cmp : A -> A -> option Z) (x : A)
      (l : list A) :
  Permutation (x :: l) (RecipeFallback.insert cmp x l).
Proof.
  induction l as [|z l IH]; cbn; [reflexivity|].
  destruct (_ <=? 0)%Z; [reflexivity|].
  rewrite perm_swap. apply perm_skip. exact IH.
Qed.

Lemma sort_Permutation {A : Type} (cmp : A -> A -> option Z) (l : list A) :
  Permutation l (RecipeFallback.sort cmp l).
Proof.
  induction l as [|x l IH]; cbn; [reflexivity|].
  rewrite <- insert_Permutation. apply perm_skip. exact IH.
Qed.










(* ================================================================== *)
(** * Further properties *)

(** ** The edit distance *)

Lemma cost_sym (x y : ascii) : ShelfLife.cost x y = ShelfLife.cost y x.
Proof. unfold ShelfLife.cost. rewrite Ascii.eqb_sym. reflexivity. Qed.

Lemma cost_le_1 (x y : ascii) : (ShelfLife.cost x y <= 1)%nat.
Proof. unfold ShelfLife.cost. destruct (Ascii.eqb x y); lia. Qed.

Lemma cell_col_0 (a b : list ascii) (row : nat) : Props.cell a b row 0 = row.
Proof. destruct row; reflexivity. Qed.

Lemma cell_symmetric (a b : list ascii) (row : nat) :
  forall col, Props.cell a b row col = Props.cell b a col row.
Proof.
  induction row as [|r IHr]; intros col.
  - rewrite cell_col_0. reflexivity.
  - induction col as [|c IHc].
    + reflexivity.
    + rewrite !cell_S_S, IHc, (IHr (S c)), (IHr c), cost_sym. lia.
Qed.

Lemma cell_bounds (a b : list ascii) (row : nat) :
  forall col,
    (row - col <= Props.cell a b row col
     /\ col - row <= Props.cell a b row col
     /\ Props.cell a b row col <= Nat.max row col)%nat.
Proof.
  induction row as [|r IHr]; intros col.
  - cbn. lia.
  - induction col as [|c IHc].
    + cbn. lia.
    + rewrite cell_S_S.
      pose proof (IHr (S c)). pose proof (IHr c).
      pose proof (cost_le_1 (nth r a zero) (nth c b zero)). lia.
Qed.

Lemma cost_zero (x y : ascii) : ShelfLife.cost x y = 0%nat <-> x = y.
Proof.
  unfold ShelfLife.cost. destruct (Ascii.eqb_spec x y); split; try tauto;
    try discriminate.
Qed.

Lemma cell_zero (a b : list ascii) (row : nat) :
  (row <= List.length a)%nat -> (row <= List.length b)%nat ->
  (Props.cell a b row row = 0%nat <-> firstn row a = firstn row b).
Proof.
  revert a b. induction row as [|r IH]; intros a b La Lb.
  - cbn. tauto.
  - rewrite cell_S_S.
    pose proof (cell_bounds a b r (S r)). pose proof (cell_bounds a b (S r) r).
    pose proof (cell_bounds a b r r).
    specialize (IH a b ltac:(lia) ltac:(lia)).
    assert (Sa : firstn (S r) a = firstn r a ++ [nth r a zero]).
    { clear -La. revert a La. induction r as [|r IHr]; intros [|x a] L;
        cbn in *; try lia; [reflexivity|].
      f_equal. apply (IHr a). lia. }
    assert (Sb : firstn (S r) b = firstn r b ++ [nth r b zero]).
    { clear -Lb. revert b Lb. induction r as [|r IHr]; intros [|x b] L;
        cbn in *; try lia; [reflexivity|].
      f_equal. apply (IHr b). lia. }
    rewrite Sa, Sb. split.
    + intros E.
      assert (Props.cell a b r r = 0 /\ ShelfLife.cost (nth r a zero) (nth r b zero) = 0)%nat
        as [E1 E2] by lia.
      apply IH in E1. apply cost_zero in E2. congruence.
    + intros E. apply app_inj_tail in E. destruct E as [E1 E2].
      apply IH in E1. apply cost_zero in E2. lia.
Qed.

(** [levenshteinDistance] is symmetric. *)
Lemma levenshtein_symmetric (a b : string) :
  ShelfLife.levenshteinDistance a b = ShelfLife.levenshteinDistance b a.
Proof.
  rewrite !levenshteinDistance_editDistance. unfold Props.editDistance.
  apply cell_symmetric.
Qed.

(** [levenshteinDistance] is at least the difference of the two lengths
    and at most the greater of them. *)
Lemma levenshtein_bounds (a b : string) :
  (String.length a - String.length b <= ShelfLife.levenshteinDistance a b
   /\ String.length b - String.length a <= ShelfLife.levenshteinDistance a b
   /\ ShelfLife.levenshteinDistance a b
      <= Nat.max (String.length a) (String.length b))%nat.
Proof.
  rewrite levenshteinDistance_editDistance. apply cell_bounds.
Qed.

(** [levenshteinDistance] is 0 exactly for equal strings. *)
Lemma levenshtein_zero (a b : string) :
  ShelfLife.levenshteinDistance a b = 0%nat <-> a = b.
Proof.
  rewrite levenshteinDistance_editDistance. unfold Props.editDistance.
  split.
  - intros E.
    pose proof (cell_bounds (chars a) (chars b) (String.length a) (String.length b)) as B.
    assert (L : String.length a = String.length b) by lia.
    rewrite <- L in E.
    apply cell_zero in E; rewrite ?chars_length; try lia.
    rewrite <- (chars_length a) in E at 1. rewrite L, <- (chars_length b) in E.
    rewrite !firstn_all in E.
    rewrite <- (str_chars a), <- (str_chars b), E. reflexivity.
  - intros <-. apply cell_zero; rewrite ?chars_length; try lia. reflexivity.
Qed.


(** ** Confidence and trusted names *)

Lemma toFixed2_range (x : Q) :
  (0.55 <= x)%Q -> (x <= 1)%Q ->
  (0.55 <= ShelfLife.toFixed2 x)%Q /\ (ShelfLife.toFixed2 x <= 1)%Q.
Proof.
  intros L U. unfold ShelfLife.toFixed2.
  assert (G : (55 # 1 <= x * 100 + (1 # 2))%Q) by lra.
  apply Qfloor_resp_le in G. change (Qfloor (55 # 1)) with 55%Z in G.
  assert (H : (x * 100 + (1 # 2) <= 201 # 2)%Q) by lra.
  apply Qfloor_resp_le in H. change (Qfloor (201 # 2)) with 100%Z in H.
  unfold Qle. cbn [Qnum Qden]. lia.
Qed.

Lemma similarityOf_le_1 (d m : nat) : (ShelfLife.similarityOf d m <= 1)%Q.
Proof.
  unfold ShelfLife.similarityOf. destruct (m =? 0)%nat; [discriminate|].
  assert (0 <= ShelfLife.natQ d / ShelfLife.natQ m)%Q.
  { assert (N : forall n, (0 <= ShelfLife.natQ n)%Q)
      by (intros n; unfold ShelfLife.natQ, Qle; cbn; lia).
    unfold Qdiv. apply Qmult_le_0_compat; [apply N|].
    apply Qinv_le_0_compat, N. }
  lra.
Qed.

Lemma alias_in_vocabulary (n v : string) :
  In (n, v) ShelfLife.INGREDIENT_ALIASES ->
  In v (keys ShelfLife.SHELF_LIFE_BY_INGREDIENT).
Proof.
  intros H.
  assert (T : forallb (fun kv => inb (snd kv)
                                     (keys ShelfLife.SHELF_LIFE_BY_INGREDIENT))
                      ShelfLife.INGREDIENT_ALIASES = true)
    by (vm_compute; reflexivity).
  rewrite forallb_forall in T. specialize (T _ H). cbn [snd] in T.
  unfold inb in T. apply existsb_exists in T. destruct T as [x [Hx E]].
  apply String.eqb_eq in E. subst. exact Hx.
Qed.

Lemma assoc_keys {A : Type} (k : string) (l : list (string * A)) (v : A) :
  assoc k l = Some v -> In k (keys l).
Proof.
  intros H. apply assoc_In in H. unfold keys.
  change k with (fst (k, v)). apply in_map. exact H.
Qed.

(** The confidence is a number from 0 to 1; it is 0 only for an input
    that normalizes to the empty string and at least 0.5 otherwise; and a
    name returned with a confidence above 0.5 is a vocabulary entry, for
    which the shelf-life table has a number of days, or else the member
    [constructor]. *)
Theorem confidence_range (raw : string) :
  (0 <= ShelfLife.confidence (ShelfLife.canonicalizeIngredient raw))%Q
  /\ (ShelfLife.confidence (ShelfLife.canonicalizeIngredient raw) <= 1)%Q
  /\ (ShelfLife.normalizeToken raw = "" <->
      (ShelfLife.confidence (ShelfLife.canonicalizeIngredient raw) == 0)%Q)
  /\ (ShelfLife.normalizeToken raw <> "" ->
      (0.5 <= ShelfLife.confidence (ShelfLife.canonicalizeIngredient raw))%Q)
  /\ ((0.5 < ShelfLife.confidence (ShelfLife.canonicalizeIngredient raw))%Q ->
      (exists entry days,
          ShelfLife.canonicalName (ShelfLife.canonicalizeIngredient raw)
          = Just entry
          /\ assoc entry ShelfLife.SHELF_LIFE_BY_INGREDIENT = Some days)
      \/ ShelfLife.canonicalName (ShelfLife.canonicalizeIngredient raw)
         = Member "constructor").
Proof.
  assert (K : forall k, In k (keys ShelfLife.SHELF_LIFE_BY_INGREDIENT) ->
                        exists days,
                          assoc k ShelfLife.SHELF_LIFE_BY_INGREDIENT = Some days).
  { intros k H.
    destruct (assoc k ShelfLife.SHELF_LIFE_BY_INGREDIENT) as [d|] eqn:A;
      [eexists; reflexivity|].
    apply assoc_None_keys in A. contradiction. }
  pose proof (normalizeToken_lowercase raw) as L.
  pose proof (canonicalize_resolution raw) as R.
  remember (ShelfLife.normalizeToken raw) as n eqn:En.
  remember (ShelfLife.canonicalizeIngredient raw) as r eqn:Er.
  destruct R as [E | alias N A T | N A V | k d N A V B S | k d N A V B S];
    cbn [ShelfLife.canonicalName ShelfLife.confidence];
    (split; [|split; [|split; [|split]]]);
    try (unfold Qle; cbn; lia);
    try (split; [intros H; contradiction
                | intros H; unfold Qeq in H; cbn in H; lia]);
    try (intros _; unfold Qle; cbn; lia);
    try (intros H; unfold Qlt in H; cbn in H; lia).
  - (* empty *) split; [reflexivity | intros _; exact E].
  - intros H; contradiction.
  - (* alias *)
    intros _. unfold getProperty in A.
    destruct (assoc n ShelfLife.INGREDIENT_ALIASES) as [v|] eqn:Av.
    + injection A as <-. left. apply assoc_In in Av.
      apply alias_in_vocabulary in Av. destruct (K _ Av) as [days D].
      exists v, days. auto.
    + destruct (inb n objectPrototype) eqn:I; [|discriminate].
      injection A as <-. right. f_equal. apply lowercase_member; assumption.
  - (* vocabulary *)
    intros _. left. unfold getProperty in A, V.
    destruct (assoc n ShelfLife.SHELF_LIFE_BY_INGREDIENT) as [days|] eqn:Av.
    + exists n, days. auto.
    + destruct (inb n objectPrototype); [|discriminate V].
      destruct (assoc n ShelfLife.INGREDIENT_ALIASES) as [v|] eqn:Aa;
        [|discriminate A].
      apply assoc_In in Aa. destruct (alias_resolves _ _ Aa) as [_ [Ne _]].
      cbn in A. apply negb_false_iff, String.eqb_eq in A. contradiction.
  - (* fuzzy match *)
    apply Qle_bool_iff in S.
    destruct (toFixed2_range _ S (similarityOf_le_1 _ _)) as [F1 F2]. lra.
  - apply Qle_bool_iff in S.
    destruct (toFixed2_range _ S (similarityOf_le_1 _ _)) as [F1 F2]. lra.
  - apply Qle_bool_iff in S.
    destruct (toFixed2_range _ S (similarityOf_le_1 _ _)) as [F1 F2].
    split; [intros H; contradiction | intros H; lra].
  - apply Qle_bool_iff in S.
    destruct (toFixed2_range _ S (similarityOf_le_1 _ _)) as [F1 F2].
    intros _. lra.
  - intros _. left.
    destruct (bestMatchFor_firstMinimum n) as [k' [d' [B' M]]].
    rewrite B in B'. injection B' as <- <-.
    apply firstMinimum_In in M. destruct (K _ M) as [days D].
    exists k, days. auto.
Qed.


(** ** Shelf life and expiration *)

Lemma shelfLife_range (name : string) :
  inb name objectPrototype = false ->
  exists n,
    ShelfLife.getShelfLifeDays name = Just n /\ (2 <= n <= 45)%Z
    /\ (assoc name ShelfLife.SHELF_LIFE_BY_INGREDIENT = None -> n = 7%Z).
Proof.
  intros I. unfold ShelfLife.getShelfLifeDays, getProperty. rewrite I.
  destruct (assoc name ShelfLife.SHELF_LIFE_BY_INGREDIENT) as [v|] eqn:A.
  - exists v. split; [reflexivity|]. split; [|discriminate].
    apply assoc_In in A.
    assert (T : forallb (fun kv => (2 <=? snd kv)%Z && (snd kv <=? 45)%Z)
                        ShelfLife.SHELF_LIFE_BY_INGREDIENT = true)
      by (vm_compute; reflexivity).
    rewrite forallb_forall in T. specialize (T _ A). cbn in T. lia.
  - exists 7%Z. split; [reflexivity|]. split; [lia | reflexivity].
Qed.

(** The text of a returned canonical name is no member of
    [Object.prototype]. *)
Lemma returned_name_not_member (raw : string) :
  inb (toString (ShelfLife.canonicalName (ShelfLife.canonicalizeIngredient raw)))
      objectPrototype = false.
Proof.
  assert (K : forall k, In k (keys ShelfLife.SHELF_LIFE_BY_INGREDIENT) ->
                        inb k objectPrototype = false).
  { assert (T : forallb (fun k => negb (inb k objectPrototype))
                        (keys ShelfLife.SHELF_LIFE_BY_INGREDIENT) = true)
      by (vm_compute; reflexivity).
    rewrite forallb_forall in T. intros k H. apply negb_true_iff, T, H. }
  pose proof (normalizeToken_lowercase raw) as L.
  pose proof (canonicalize_resolution raw) as R.
  remember (ShelfLife.normalizeToken raw) as n eqn:En.
  remember (ShelfLife.canonicalizeIngredient raw) as r eqn:Er.
  assert (New : truthyString (getProperty ShelfLife.INGREDIENT_ALIASES n)
                = false -> inb n objectPrototype = false).
  { unfold getProperty. intros A.
    destruct (inb n objectPrototype); [|reflexivity].
    destruct (assoc n ShelfLife.INGREDIENT_ALIASES) as [v|] eqn:Aa;
      [|discriminate A].
    apply assoc_In in Aa. destruct (alias_resolves _ _ Aa) as [_ [Ne _]].
    cbn in A. apply negb_false_iff, String.eqb_eq in A. contradiction. }
  destruct R as [E | alias N A T | N A V | k d N A V B S | k d N A V B S];
    cbn [ShelfLife.canonicalName toString].
  - reflexivity.
  - unfold getProperty in A.
    destruct (assoc n ShelfLife.INGREDIENT_ALIASES) as [v|] eqn:Av.
    + injection A as <-. apply assoc_In, alias_in_vocabulary in Av.
      apply K. exact Av.
    + destruct (inb n objectPrototype) eqn:I; [|discriminate].
      injection A as <-. rewrite (lowercase_member n L I). reflexivity.
  - apply New. exact A.
  - destruct (bestMatchFor_firstMinimum n) as [k' [d' [B' M]]].
    rewrite B in B'. injection B' as <- <-.
    apply firstMinimum_In in M. apply K. exact M.
  - apply New. exact A.
Qed.

(** [expirationDateForItem] without an override, for a canonical name that
    is no member of [Object.prototype], a valid purchase date and a host
    whose local time is less than a day from UTC: the shelf life is the
    number of days of the table, or 7, always from 2 to 45; the expiration
    is the purchase instant moved by that many calendar days of local time,
    an instant later than the purchase, returned in ISO form unless it lies
    beyond the range of [Date], in which case a [RangeError] is thrown. *)
Theorem expiration_is_purchase_plus_shelf_life
        (h : JSDate.Host) (canonicalName purchaseDate : string) (t : Z) :
  (forall t b, Z.abs (JSDate.LocalTZA h t b) < JSDate.msPerDay)%Z ->
  inb canonicalName objectPrototype = false ->
  JSDate.newDate h purchaseDate = Some t ->
  exists days u : Z,
    ShelfLife.getShelfLifeDays canonicalName = Just days
    /\ (2 <= days <= 45)%Z
    /\ (assoc canonicalName ShelfLife.SHELF_LIFE_BY_INGREDIENT = None ->
        days = 7%Z)
    /\ u = JSDate.UTC h (JSDate.LocalTime h t + days * JSDate.msPerDay)%Z
    /\ (t < u)%Z
    /\ ShelfLife.expirationDateForItem h canonicalName purchaseDate None
       = (if (u <=? 8640000000000000)%Z then Ok (JSDate.formatTime u)
          else Throw RangeError).
Proof.
  intros TZ I P.
  destruct (shelfLife_range canonicalName I) as [days [G [R D]]].
  destruct (expiration_after_purchase h canonicalName purchaseDate t TZ I P)
    as [n [u [G' [U [Lt E]]]]].
  rewrite G in G'. injection G' as <-.
  exists days, u. repeat split; try assumption; try lia.
  rewrite E. unfold JSDate.toISOString, JSDate.TimeClip.
  pose proof (TZ t true) as Z1.
  assert (R0 : (- 8640000000000000 <= t)%Z).
  { unfold JSDate.newDate in P.
    destruct (match JSDate.parseFormat h purchaseDate with
              | Some t0 => Some t0
              | None => JSDate.fallbackParse h purchaseDate
              end) as [t0|]; [|discriminate].
    unfold JSDate.TimeClip in P.
    destruct (8640000000000000 <? Z.abs t0)%Z eqn:C; [discriminate|].
    injection P as <-. apply Z.ltb_ge in C. lia. }
  destruct (Z.leb_spec u 8640000000000000);
    destruct (Z.ltb_spec 8640000000000000 (Z.abs u)); try reflexivity; lia.
Qed.

Lemma expiration_witness :
  ShelfLife.expirationDateForItem JSDate.utcHost "chicken" "2024-01-01" None
  = Ok "2024-01-03T00:00:00.000Z".
Proof.
  destruct (expiration_is_purchase_plus_shelf_life JSDate.utcHost
              "chicken" "2024-01-01" 1704067200000%Z)
    as [days [u [G [R [D [U [Lt E]]]]]]].
  - intros t b. vm_compute. reflexivity.
  - vm_compute. reflexivity.
  - vm_compute. reflexivity.
  - vm_compute in G. injection G as <-. rewrite E, U.
    vm_compute. reflexivity.
Defined.

(** [estimateExpirationDate] resolves the ingredient name and then does
    what [expirationDateForItem] does for the text of the canonical name.
    That text is never the name of a member of [Object.prototype], so the
    shelf life used is a number of days from 2 to 45 for every ingredient
    name.  Given a purchase date the clock is not read; without one the
    clock is read once and its instant is the purchase date. *)
Theorem estimate_resolves_then_adds_shelf_life
        (h : JSDate.Host) (clock : JSDate.Clock) (ingredientName : string)
        (n : nat) :
  let name :=
    toString (ShelfLife.canonicalName
                (ShelfLife.canonicalizeIngredient ingredientName)) in
  inb name objectPrototype = false
  /\ (exists days,
        ShelfLife.getShelfLifeDays name = Just days /\ (2 <= days <= 45)%Z)
  /\ (forall purchaseDate,
        ShelfLife.estimateExpirationDate h clock ingredientName
          (Some purchaseDate) n
        = (ShelfLife.expirationDateForItem h name purchaseDate None, n))
  /\ ShelfLife.estimateExpirationDate h clock ingredientName None n
     = (match JSDate.toISOString (JSDate.TimeClip (clock n)) with
        | Ok iso => ShelfLife.expirationDateForItem h name iso None
        | Throw e => Throw e
        end, S n).
Proof.
  intros name.
  pose proof (returned_name_not_member ingredientName) as I. fold name in I.
  split; [exact I|]. split.
  - destruct (shelfLife_range name I) as [days [G [R _]]].
    exists days. auto.
  - split; [intros purchaseDate; reflexivity|].
    unfold ShelfLife.estimateExpirationDate, JSDate.bind, JSDate.now,
      JSDate.ret.
    destruct (JSDate.toISOString (JSDate.TimeClip (clock n))); reflexivity.
Qed.

(** ** Days until expiration *)

Lemma ceilDiv_bracket (a b : Z) :
  (0 < b)%Z ->
  ((JSDate.ceilDiv a b - 1) * b < a <= JSDate.ceilDiv a b * b)%Z.
Proof.
  intros B. unfold JSDate.ceilDiv.
  pose proof (Z.div_mod (- a) b ltac:(lia)).
  pose proof (Z.mod_pos_bound (- a) b B). nia.
Qed.

(** [daysUntil] reads the clock once and never throws: for a date that is
    no valid date it returns [NaN]; for a valid one it returns the integer
    [d] with [(d - 1) days < target - now <= d days].  As the clock
    advances, the number of days until a fixed date does not increase. *)
Theorem daysUntil_brackets_the_remaining_time
        (h : JSDate.Host) (clock : JSDate.Clock) (dateIso : string) (n : nat) :
  snd (ShelfLife.daysUntil h clock dateIso n) = S n
  /\ (JSDate.newDate h dateIso = None ->
      fst (ShelfLife.daysUntil h clock dateIso n) = None)
  /\ (forall target,
        JSDate.newDate h dateIso = Some target ->
        exists d,
          fst (ShelfLife.daysUntil h clock dateIso n) = Some d
          /\ ((d - 1) * JSDate.msPerDay < target - clock n
              <= d * JSDate.msPerDay)%Z)
  /\ (forall later m d d',
        (clock n <= later m)%Z ->
        fst (ShelfLife.daysUntil h clock dateIso n) = Some d ->
        fst (ShelfLife.daysUntil h later dateIso m) = Some d' ->
        (d' <= d)%Z).
Proof.
  unfold ShelfLife.daysUntil, JSDate.bind, JSDate.now, JSDate.ret,
    JSDate.getTime. cbn [fst snd].
  split; [reflexivity|]. split; [intros ->; reflexivity|]. split.
  - intros target ->. eexists. split; [reflexivity|].
    apply ceilDiv_bracket. reflexivity.
  - intros later m d d' Le.
    destruct (JSDate.newDate h dateIso) as [t|]; [|discriminate].
    intros [= <-] [= <-].
    pose proof (ceilDiv_bracket (t - clock n) JSDate.msPerDay eq_refl).
    pose proof (ceilDiv_bracket (t - later m) JSDate.msPerDay eq_refl).
    unfold JSDate.msPerDay in *. nia.
Qed.

(** ** Invariants of the ranking *)

Lemma rankedAt_names (h : JSDate.Host) (clock : JSDate.Clock)
      (pantry : list InventoryItem.t) :
  forall n,
    map (fun r => (RankedIngredient.canonicalName r,
                   RankedIngredient.displayName r))
        (map (fun p => Props.rankedAt h (fst p) (snd p))
             (combine (map clock (seq n (List.length pantry))) pantry))
    = map (fun i => (InventoryItem.canonicalName i,
                     InventoryItem.displayName i)) pantry.
Proof.
  induction pantry as [|item pantry IH]; intros n; cbn; [reflexivity|].
  rewrite IH. reflexivity.
Qed.

(** The ranking has one ranked ingredient for each item of the pantry,
    with the item's canonical name and display name, also when dates are
    invalid; the urgency score of each is [max(0, 7 - days)] of its own
    days, so it is never negative, is 0 exactly from 7 days on, and is
    [NaN] exactly when the days are; and the pass reads the clock as many
    times as there are items. *)
Theorem ranking_invariants
        (h : JSDate.Host) (clock : JSDate.Clock)
        (pantry : list InventoryItem.t) (n : nat) :
  let ranked := fst (RecipeFallback.rankExpiringIngredients h clock pantry n) in
  List.length ranked = List.length pantry
  /\ Permutation
       (map (fun i => (InventoryItem.canonicalName i,
                       InventoryItem.displayName i)) pantry)
       (map (fun r => (RankedIngredient.canonicalName r,
                       RankedIngredient.displayName r)) ranked)
  /\ (forall r, In r ranked ->
        match RankedIngredient.daysUntilExpiration r,
              RankedIngredient.urgencyScore r with
        | Some d, Some u =>
            (0 <= u)%Z /\ (u = 0%Z <-> (7 <= d)%Z)
            /\ ((d < 7)%Z -> u = (7 - d)%Z)
        | None, None => True
        | _, _ => False
        end)
  /\ snd (RecipeFallback.rankExpiringIngredients h clock pantry n)
     = (n + List.length pantry)%nat.
Proof.
  intros ranked. unfold ranked. rewrite rankExpiringIngredients_run.
  cbn [fst snd].
  set (l := map (fun p => Props.rankedAt h (fst p) (snd p))
                (combine (map clock (seq n (List.length pantry))) pantry)).
  pose proof (sort_Permutation RecipeFallback.comparator l) as P.
  split; [|split; [|split]].
  - rewrite <- (Permutation_length P). unfold l.
    rewrite length_map, length_combine, length_map, length_seq. lia.
  - rewrite <- (rankedAt_names h clock pantry n). fold l.
    apply Permutation_map. exact P.
  - intros r Hr. apply (Permutation_in _ (Permutation_sym P)) in Hr.
    unfold l in Hr. apply in_map_iff in Hr. destruct Hr as [[t i] [<- _]].
    unfold Props.rankedAt.
    cbn [RankedIngredient.daysUntilExpiration RankedIngredient.urgencyScore
         fst snd].
    destruct (JSDate.newDate h (Props.effectiveExpiration i)) as [z|];
      cbn [ShelfLife.urgencyScore]; [|exact I].
    generalize (JSDate.ceilDiv (z - t) JSDate.msPerDay). intros d. lia.
  - reflexivity.
Qed.


(** ** What the receipt parser emits *)

Lemma inferUnit_units (line : string) :
  In (ReceiptParser.inferUnit line) ["lb"; "kg"; "l"; "item"].
Proof.
  unfold ReceiptParser.inferUnit.
  destruct (Regex.test _ line); [left; reflexivity|].
  destruct (Regex.test _ line); [right; left; reflexivity|].
  destruct (Regex.test _ line); [right; right; left; reflexivity|].
  right; right; right; left; reflexivity.
Qed.

(** A name other than [unknown] comes with a confidence from 0.5 to 1. *)
Lemma named_confidence (raw : string) :
  ShelfLife.canonicalName (ShelfLife.canonicalizeIngredient raw)
  <> Just "unknown" ->
  (0.5 <= ShelfLife.confidence (ShelfLife.canonicalizeIngredient raw))%Q
  /\ (ShelfLife.confidence (ShelfLife.canonicalizeIngredient raw) <= 1)%Q.
Proof.
  pose proof (canonicalize_resolution raw) as R.
  remember (ShelfLife.normalizeToken raw) as n eqn:En.
  remember (ShelfLife.canonicalizeIngredient raw) as r eqn:Er.
  destruct R as [E | alias N A T | N A V | k d N A V B S | k d N A V B S];
    cbn [ShelfLife.canonicalName ShelfLife.confidence]; intros U;
    try (split; unfold Qle; cbn; lia).
  - congruence.
  - apply Qle_bool_iff in S.
    destruct (toFixed2_range _ S (similarityOf_le_1 _ _)) as [F1 F2].
    split; lra.
Qed.

Lemma strictEq_false (v : value string) (s : string) :
  strictEq v s = false -> v <> Just s.
Proof.
  destruct v as [x|k]; cbn; [|discriminate].
  intros E [= ->]. rewrite String.eqb_refl in E. discriminate.
Qed.

Lemma Some_inj {A : Type} (a b : A) : Some a = Some b -> a = b.
Proof. congruence. Qed.

(** What the first loop pushes for a line that it keeps. *)
Lemma parseLine_fields (line : string) (item : ParsedReceiptItem.t) :
  ReceiptParser.parseLine line = Some item ->
  ParsedReceiptItem.rawLine item = line
  /\ ParsedReceiptItem.canonicalName item <> Just "unknown"
  /\ ParsedReceiptItem.displayName item = ParsedReceiptItem.canonicalName item
  /\ Props.nonNegative (ParsedReceiptItem.quantity item)
  /\ In (ParsedReceiptItem.unit item) ["lb"; "kg"; "l"; "item"]
  /\ (0.5 <= ParsedReceiptItem.confidence item)%Q
  /\ (ParsedReceiptItem.confidence item <= 1)%Q.
Proof.
  unfold ReceiptParser.parseLine.
  destruct (existsb _ ReceiptParser.IGNORED_LINE_PATTERNS); [discriminate|].
  destruct (_ || _); [discriminate|].
  destruct (strictEq _ _) eqn:U; [discriminate|].
  intros H. apply Some_inj in H. subst item.
  cbn [ParsedReceiptItem.rawLine ParsedReceiptItem.canonicalName
       ParsedReceiptItem.displayName ParsedReceiptItem.quantity
       ParsedReceiptItem.unit ParsedReceiptItem.confidence].
  apply strictEq_false in U.
  destruct (named_confidence _ U) as [C1 C2].
  repeat split; try assumption.
  - apply inferQuantity_nonneg.
  - apply inferUnit_units.
Qed.

Lemma parseLines_In (lines : list string) (p : ParsedReceiptItem.t) :
  In p (ReceiptParser.parseLines lines) <->
  exists line, In line lines /\ ReceiptParser.parseLine line = Some p.
Proof.
  unfold ReceiptParser.parseLines. rewrite in_flat_map. split.
  - intros [line [H1 H2]]. exists line. split; [exact H1|].
    destruct (ReceiptParser.parseLine line); [|destruct H2].
    destruct H2 as [<- | []]. reflexivity.
  - intros [line [H1 H2]]. exists line. split; [exact H1|].
    rewrite H2. left. reflexivity.
Qed.

Lemma dropSpaces_fixed (l : list ascii) :
  match l with [] => True | c :: _ => isSpace c = false end ->
  dropSpaces l = l.
Proof. destruct l as [|c l]; cbn; [reflexivity | intros ->; reflexivity]. Qed.

Lemma dropSpaces_head (l : list ascii) :
  match dropSpaces l with [] => True | c :: _ => isSpace c = false end.
Proof.
  induction l as [|c l IH]; cbn; [exact I|].
  destruct (isSpace c) eqn:E; [exact IH | exact E].
Qed.

Lemma dropSpaces_suffix (l : list ascii) :
  exists s, l = s ++ dropSpaces l.
Proof.
  induction l as [|c l [s IH]]; cbn; [exists []; reflexivity|].
  destruct (isSpace c).
  - exists (c :: s). cbn. f_equal. exact IH.
  - exists []. reflexivity.
Qed.

(** [trim] leaves a trimmed string as it is. *)
Lemma trim_idempotent (s : string) : trim (trim s) = trim s.
Proof.
  unfold trim. rewrite chars_str. f_equal.
  set (A := dropSpaces (chars s)).
  set (B := dropSpaces (rev A)).
  assert (P : match rev B with [] => True | c :: _ => isSpace c = false end).
  { destruct (dropSpaces_suffix (rev A)) as [sp E]. fold B in E.
    apply (f_equal (@rev ascii)) in E. rewrite rev_involutive, rev_app_distr in E.
    pose proof (dropSpaces_head (chars s)) as H. fold A in H.
    destruct (rev B) as [|c l]; [exact I|].
    rewrite E in H. exact H. }
  rewrite (dropSpaces_fixed _ P), rev_involutive.
  rewrite (dropSpaces_fixed B); [reflexivity|]. apply dropSpaces_head.
Qed.

Lemma splitLines_trimmed (rawText line : string) :
  In line (ReceiptParser.splitLines rawText) -> trim line = line /\ line <> "".
Proof.
  unfold ReceiptParser.splitLines. intros H. apply filter_In in H.
  destruct H as [H N]. apply negb_true_iff, String.eqb_neq in N.
  split; [|exact N]. apply in_map_iff in H. destruct H as [x [<- _]].
  apply trim_idempotent.
Qed.

(** Every item that [parseReceiptText] returns names an ingredient other
    than [unknown], shows that name as its display name, has one of the
    four units, a quantity that is not negative, a confidence from 0.5 to
    1, and as raw line one of the non-blank, trimmed lines of the text. *)
Theorem parsed_items_are_well_formed (rawText : string)
        (item : ParsedReceiptItem.t) :
  In item (ReceiptParser.parseReceiptText rawText) ->
  ParsedReceiptItem.canonicalName item <> Just "unknown"
  /\ ParsedReceiptItem.displayName item = ParsedReceiptItem.canonicalName item
  /\ In (ParsedReceiptItem.unit item) ["lb"; "kg"; "l"; "item"]
  /\ Props.nonNegative (ParsedReceiptItem.quantity item)
  /\ (0.5 <= ParsedReceiptItem.confidence item)%Q
  /\ (ParsedReceiptItem.confidence item <= 1)%Q
  /\ In (ParsedReceiptItem.rawLine item) (ReceiptParser.splitLines rawText)
  /\ ParsedReceiptItem.rawLine item <> ""
  /\ trim (ParsedReceiptItem.rawLine item) = ParsedReceiptItem.rawLine item.
Proof.
  unfold ReceiptParser.parseReceiptText, ReceiptParser.dedupe,
    ReceiptParser.mapValues.
  set (parsed := ReceiptParser.parseLines (ReceiptParser.splitLines rawText)).
  intros H. apply in_map_iff in H. destruct H as [[k item'] [E H]].
  cbn in E. subst item'. apply dedupe_entry in H.
  destruct H as [first [group [F [-> K]]]].
  assert (G : forall p, In p (first :: group) -> In p parsed).
  { intros p Hp. rewrite <- F in Hp. apply filter_In in Hp. tauto. }
  assert (P : forall p, In p (first :: group) ->
                        exists line, In line (ReceiptParser.splitLines rawText)
                                     /\ ReceiptParser.parseLine line = Some p).
  { intros p Hp. apply parseLines_In. apply G. exact Hp. }
  destruct (mergeLoop_fields group first) as [R [C [D [U [S [M1 M2]]]]]].
  destruct (P first (or_introl eq_refl)) as [line [Hl Hp]].
  destruct (parseLine_fields _ _ Hp) as [F1 [F2 [F3 [F4 [F5 [F6 F7]]]]]].
  rewrite R, C, D, U, S, F1.
  assert (Conf : forall p, In p (first :: group) ->
                  (0.5 <= ParsedReceiptItem.confidence p)%Q
                  /\ (ParsedReceiptItem.confidence p <= 1)%Q).
  { intros p Hq. destruct (P p Hq) as [l' [_ Hp']].
    destruct (parseLine_fields _ _ Hp') as [_ [_ [_ [_ [_ [A B]]]]]]. auto. }
  apply in_map_iff in M1. destruct M1 as [q [Eq Hq]].
  destruct (Conf q Hq) as [Q1 Q2]. rewrite Eq in Q1, Q2.
  repeat split; try assumption.
  - apply sumQuantity_nonneg. intros p Hq'.
    destruct (P p Hq') as [l' [_ Hp']].
    destruct (parseLine_fields _ _ Hp') as [_ [_ [_ [A _]]]]. exact A.
  - apply (splitLines_trimmed rawText line Hl).
  - apply (splitLines_trimmed rawText line Hl).
Qed.

(** ** The order of the items *)

Lemma existsb_pairEqb (x : value string * string) (l : list (value string * string)) :
  existsb (Props.pairEqb x) l = true <-> In x l.
Proof.
  rewrite existsb_exists. split.
  - intros [y [H E]]. apply pairEqb_eq in E. subst. exact H.
  - intros H. exists x. split; [exact H | apply pairEqb_eq; reflexivity].
Qed.

Lemma firstOccurrences_ext {A : Type} (eqb : A -> A -> bool) (l : list A) :
  forall s1 s2,
    (forall x, existsb (eqb x) s1 = existsb (eqb x) s2) ->
    Props.firstOccurrences eqb s1 l = Props.firstOccurrences eqb s2 l.
Proof.
  induction l as [|x l IH]; intros s1 s2 H; cbn; [reflexivity|].
  rewrite <- H. destruct (existsb (eqb x) s1); [apply IH; exact H|].
  f_equal. apply IH. intros y. cbn. rewrite H. reflexivity.
Qed.

Lemma mapSet_In {V : Type} (k k0 : string) (v v0 : V) (m : list (string * V)) :
  In (k0, v0) (ReceiptParser.mapSet k v m) ->
  (k0, v0) = (k, v) \/ In (k0, v0) m.
Proof.
  induction m as [|[k' v'] m IH]; cbn.
  - intros [H | []]. left. symmetry. exact H.
  - destruct (String.eqb k k'); cbn; intros [H | H]; auto.
    destruct (IH H); auto.
Qed.

Lemma mapSet_append {V : Type} (k : string) (v : V) (m : list (string * V)) :
  assoc k m = None -> ReceiptParser.mapSet k v m = m ++ [(k, v)].
Proof.
  induction m as [|[k' v'] m IH]; cbn; [reflexivity|].
  destruct (String.eqb k k'); [discriminate|].
  intros H. rewrite (IH H). reflexivity.
Qed.

Lemma mapSet_replace {V B : Type} (g : V -> B) (k : string) (v e : V)
      (m : list (string * V)) :
  assoc k m = Some e -> g v = g e ->
  map (fun x => g (snd x)) (ReceiptParser.mapSet k v m)
  = map (fun x => g (snd x)) m.
Proof.
  intros A G. induction m as [|[k' v'] m IH]; cbn in *; [discriminate|].
  destruct (String.eqb k k'); cbn.
  - injection A as ->. rewrite G. reflexivity.
  - rewrite (IH A). reflexivity.
Qed.

Lemma merge_pairOf (e item : ParsedReceiptItem.t) :
  Props.pairOf (ReceiptParser.merge e item) = Props.pairOf e.
Proof. reflexivity. Qed.

Lemma dedupLoop_order (l : list ParsedReceiptItem.t) :
  forall m,
    (forall k v, In (k, v) m ->
                 ReceiptParser.keyOf v = k
                 /\ Props.returnedName (ParsedReceiptItem.canonicalName v)) ->
    (forall p, In p l ->
               Props.returnedName (ParsedReceiptItem.canonicalName p)) ->
    map (fun x => Props.pairOf (snd x)) (fold_left ReceiptParser.dedupStep l m)
    = map (fun x => Props.pairOf (snd x)) m
      ++ Props.firstOccurrences Props.pairEqb
           (map (fun x => Props.pairOf (snd x)) m) (map Props.pairOf l).
Proof.
  induction l as [|item l IH]; intros m Inv W.
  - cbn. rewrite app_nil_r. reflexivity.
  - cbn [fold_left map Props.firstOccurrences].
    assert (Wi : Props.returnedName (ParsedReceiptItem.canonicalName item))
      by (apply W; left; reflexivity).
    assert (Wl : forall p, In p l ->
                   Props.returnedName (ParsedReceiptItem.canonicalName p))
      by (intros p Hp; apply W; right; exact Hp).
    unfold ReceiptParser.dedupStep at 2, ReceiptParser.mapGet.
    destruct (assoc (ReceiptParser.keyOf item) m) as [e|] eqn:A.
    + pose proof (assoc_In _ _ _ A) as He.
      destruct (Inv _ _ He) as [Ke We].
      assert (Pe : Props.pairOf e = Props.pairOf item)
        by (apply keyOf_inj; assumption).
      rewrite IH; [| |exact Wl].
      * rewrite (mapSet_replace Props.pairOf _ _ e m A (merge_pairOf e item)).
        replace (existsb (Props.pairEqb (Props.pairOf item))
                         (map (fun x => Props.pairOf (snd x)) m)) with true;
          [reflexivity|].
        symmetry. apply existsb_pairEqb. rewrite <- Pe.
        change (Props.pairOf e) with ((fun x => Props.pairOf (snd x))
                                        (ReceiptParser.keyOf item, e)).
        apply in_map. exact He.
      * intros k v H. apply mapSet_In in H. destruct H as [[= -> ->] | H];
          [|apply Inv; exact H].
        split; [|exact We].
        rewrite <- Ke. apply keyOf_pairOf, merge_pairOf.
    + rewrite (mapSet_append _ item m A).
      rewrite IH; [| |exact Wl].
      * rewrite map_app. cbn [map snd].
        replace (existsb (Props.pairEqb (Props.pairOf item))
                         (map (fun x => Props.pairOf (snd x)) m)) with false.
        -- rewrite <- app_assoc. cbn [app]. do 2 f_equal.
           apply firstOccurrences_ext. intros x.
           rewrite existsb_app. cbn. rewrite orb_false_r, orb_comm.
           reflexivity.
        -- symmetry. apply not_true_is_false. intros H.
           apply existsb_pairEqb, in_map_iff in H.
           destruct H as [[k v] [E H]]. cbn [snd] in E.
           destruct (Inv _ _ H) as [Kv _].
           apply assoc_None_keys in A. apply A.
           rewrite <- (keyOf_pairOf _ _ E), Kv.
           change k with (fst (k, v)). apply in_map. exact H.
      * intros k v H. apply in_app_or in H.
        destruct H as [H | [[= <- <-] | []]]; [apply Inv; exact H|].
        split; [reflexivity | exact Wi].
Qed.

(** The items that [parseReceiptText] returns are in the order in which
    their pairs (canonicalName, unit) first appear among the parsed
    lines. *)
Theorem parsed_items_keep_first_appearance_order (rawText : string) :
  map Props.pairOf (ReceiptParser.parseReceiptText rawText)
  = Props.firstOccurrences Props.pairEqb []
      (map Props.pairOf
           (ReceiptParser.parseLines (ReceiptParser.splitLines rawText))).
Proof.
  unfold ReceiptParser.parseReceiptText, ReceiptParser.dedupe,
    ReceiptParser.mapValues.
  rewrite map_map.
  rewrite dedupLoop_order.
  - reflexivity.
  - intros k v [].
  - intros p. apply parseLines_returnedName.
Qed.


(** ** The fallback recipes *)

Lemma firstn_In {A : Type} (n : nat) (l : list A) (x : A) :
  In x (firstn n l) -> In x l.
Proof.
  revert l. induction n as [|n IH]; intros [|y l]; cbn; try tauto.
  intros [H | H]; auto.
Qed.

Lemma inb_In (x : string) (l : list string) : inb x l = true <-> In x l.
Proof.
  unfold inb. rewrite existsb_exists. split.
  - intros [y [H E]]. apply String.eqb_eq in E. subst. exact H.
  - intros H. exists x. split; [exact H | apply String.eqb_refl].
Qed.

Lemma filter_length_le {A : Type} (f : A -> bool) (l : list A) :
  (List.length (filter f l) <= List.length l)%nat.
Proof. induction l as [|x l IH]; cbn; [lia|]. destruct (f x); cbn; lia. Qed.

Lemma ranked_names (h : JSDate.Host) (clock : JSDate.Clock)
      (pantry : list InventoryItem.t) (n : nat) (x : string) :
  In x (map RankedIngredient.canonicalName
            (fst (RecipeFallback.rankExpiringIngredients h clock pantry n))) ->
  In x (map InventoryItem.canonicalName pantry).
Proof.
  rewrite rankExpiringIngredients_run. cbn [fst]. intros H.
  apply in_map_iff in H. destruct H as [r [<- H]].
  apply (Permutation_in _ (Permutation_sym (sort_Permutation _ _))) in H.
  apply in_map_iff in H. destruct H as [[t i] [<- H]].
  apply in_combine_r in H. cbn. apply in_map. exact H.
Qed.

(** [fallbackRecipes] returns at most five recipes, in the order of the
    templates.  Every recipe returned uses at least one and at most five
    pantry ingredients; each of them is the non-empty canonical name of a
    pantry item among the six most urgent of the ranking; the omelet never
    uses fish; and no ingredient listed as missing is the canonical name
    of a pantry item.  For an empty pantry no recipe is returned. *)
Theorem fallback_recipes_use_the_pantry
        (h : JSDate.Host) (clock : JSDate.Clock)
        (pantry : list InventoryItem.t) (n : nat) :
  let recipes := fst (RecipeFallback.fallbackRecipes h clock pantry n) in
  let ranked := fst (RecipeFallback.rankExpiringIngredients h clock pantry n) in
  (List.length recipes <= 5)%nat
  /\ (forall recipe, In recipe recipes ->
        RecipeSuggestion.pantryIngredientsUsed recipe <> []
        /\ (List.length (RecipeSuggestion.pantryIngredientsUsed recipe) <= 5)%nat
        /\ (forall x, In x (RecipeSuggestion.pantryIngredientsUsed recipe) ->
              x <> ""
              /\ In x (map RankedIngredient.canonicalName (firstn 6 ranked))
              /\ In x (map InventoryItem.canonicalName pantry))
        /\ (RecipeSuggestion.title recipe = "Pantry Omelet Bowl" ->
            ~ In "fish" (RecipeSuggestion.pantryIngredientsUsed recipe))
        /\ (forall x, In x (RecipeSuggestion.missingIngredients recipe) ->
              ~ In x (map InventoryItem.canonicalName pantry)))
  /\ (pantry = [] -> recipes = []).
Proof.
  intros recipes ranked.
  assert (R : recipes
              = RecipeFallback.slice0 5
                  (filter (fun recipe =>
                     (0 <? List.length
                             (RecipeSuggestion.pantryIngredientsUsed recipe))%nat)
                     (map RecipeFallback.withUsedNames
                        (RecipeFallback.templates
                           (map RankedIngredient.canonicalName
                                (RecipeFallback.slice0 6 ranked))
                           (map InventoryItem.canonicalName pantry))))).
  { unfold recipes, ranked, RecipeFallback.fallbackRecipes, JSDate.bind,
      JSDate.ret.
    destruct (RecipeFallback.rankExpiringIngredients h clock pantry n).
    reflexivity. }
  set (top := map RankedIngredient.canonicalName
                  (RecipeFallback.slice0 6 ranked)) in R.
  set (inventory := map InventoryItem.canonicalName pantry) in *.
  assert (Top : forall x, In x top -> In x inventory).
  { intros x H. unfold top, RecipeFallback.slice0 in H.
    apply in_map_iff in H. destruct H as [r [<- H]]. apply firstn_In in H.
    apply (ranked_names h clock pantry n). apply in_map. exact H. }
  split; [|split].
  - rewrite R. unfold RecipeFallback.slice0. rewrite length_firstn. lia.
  - intros recipe H. rewrite R in H. apply firstn_In in H.
    apply filter_In in H. destruct H as [H Ne].
    apply Nat.ltb_lt in Ne. apply in_map_iff in H.
    destruct H as [template [<- H]].
    cbn [RecipeFallback.withUsedNames RecipeSuggestion.pantryIngredientsUsed
         RecipeSuggestion.missingIngredients RecipeSuggestion.title] in *.
    assert (U : forall x,
               In x (filter (fun x => negb (String.eqb x ""))
                            (RecipeSuggestion.pantryIngredientsUsed template)) ->
               x <> "" /\ In x (RecipeSuggestion.pantryIngredientsUsed template)).
    { intros x Hx. apply filter_In in Hx. destruct Hx as [Hx E].
      apply negb_true_iff, String.eqb_neq in E. auto. }
    assert (M : forall names x,
               In x (RecipeFallback.notIn inventory names) -> ~ In x inventory).
    { intros names x Hx. apply filter_In in Hx. destruct Hx as [_ E].
      apply negb_true_iff in E. intros I. apply inb_In in I. congruence. }
    assert (S : forall k (l : list string) x,
               In x (RecipeFallback.slice0 k l) -> In x l)
      by (intros k l x; apply firstn_In).
    assert (Len : forall k (l : list string),
               (k <= 5)%nat ->
               (List.length (filter (fun x => negb (String.eqb x ""))
                                    (RecipeFallback.slice0 k l)) <= 5)%nat).
    { intros k l Hk. etransitivity; [apply filter_length_le|].
      unfold RecipeFallback.slice0. rewrite length_firstn. lia. }
    split; [intros E; rewrite E in Ne; cbn in Ne; lia|].
    unfold RecipeFallback.templates in H.
    destruct H as [<- | [<- | [<- | [<- | [<- | []]]]]];
      cbn [RecipeSuggestion.pantryIngredientsUsed
           RecipeSuggestion.missingIngredients RecipeSuggestion.title] in *;
      (split; [apply Len; lia|]);
      (split; [|split; [|apply M]]);
      try (intros x Hx; destruct (U x Hx) as [U1 U2];
           apply S in U2;
           try (apply filter_In in U2; destruct U2 as [U2 _]);
           repeat split; [exact U1 | exact U2 | apply Top; exact U2]);
      try (intros T; discriminate T).
    intros _ F. apply U in F. destruct F as [_ F].
    apply firstn_In in F. apply filter_In in F. destruct F as [_ F].
    discriminate F.
  - intros ->. unfold recipes.
    unfold RecipeFallback.fallbackRecipes, JSDate.bind.
    rewrite rankExpiringIngredients_run. reflexivity.
Qed.


(** ** Normalization *)

(** [normalizeToken] returns letters [a] to [z] only, no more of them than
    the input has characters; it leaves such a string as it is, so it is
    idempotent; and it does not see the case of the letters [A] to [Z] nor
    any character that is no letter: it commutes with appending. *)
Theorem normalizeToken_canonical_form (raw : string) :
  Props.lowercase (ShelfLife.normalizeToken raw)
  /\ (String.length (ShelfLife.normalizeToken raw) <= String.length raw)%nat
  /\ ShelfLife.normalizeToken (ShelfLife.normalizeToken raw)
     = ShelfLife.normalizeToken raw
  /\ (Props.lowercase raw -> ShelfLife.normalizeToken raw = raw)
  /\ (forall other,
        ShelfLife.normalizeToken (raw ++ other)
        = (ShelfLife.normalizeToken raw ++ ShelfLife.normalizeToken other)%string)
  /\ ShelfLife.normalizeToken (toLowerCase raw) = ShelfLife.normalizeToken raw.
Proof.
  split; [apply normalizeToken_lowercase|].
  split.
  { unfold ShelfLife.normalizeToken, toLowerCase.
    rewrite <- !chars_length, !chars_str.
    etransitivity; [apply filter_length_le|]. rewrite length_map. lia. }
  split; [apply normalizeToken_idempotent|].
  split; [apply normalizeToken_fixed|].
  split.
  - intros other. unfold ShelfLife.normalizeToken, toLowerCase.
    rewrite !chars_str.
    assert (A : forall a b, chars (a ++ b)%string = chars a ++ chars b).
    { intros a b. unfold chars. induction a as [|c a IH]; cbn;
        [reflexivity | rewrite IH; reflexivity]. }
    assert (B : forall a b, str (a ++ b) = (str a ++ str b)%string).
    { intros a b. unfold str. induction a as [|c a IH]; cbn;
        [reflexivity | rewrite IH; reflexivity]. }
    rewrite A, map_app, filter_app, B. reflexivity.
  - unfold ShelfLife.normalizeToken, toLowerCase at 1.
    unfold toLowerCase at 1. rewrite !chars_str. unfold toLowerCase.
    rewrite chars_str. f_equal.
    induction (chars raw) as [|c l IH]; cbn [map filter]; [reflexivity|].
    assert (L : isLower (lowerChar (lowerChar c)) = isLower (lowerChar c)
                /\ (isLower (lowerChar c) = true ->
                    lowerChar (lowerChar c) = lowerChar c)).
    { split.
      - destruct (isLower (lowerChar c)) eqn:E.
        + rewrite (lowerChar_lower _ E). exact E.
        + assert (F : forallb (fun c => implb (isLower (lowerChar (lowerChar c)))
                                              (isLower (lowerChar c)))
                              (map ascii_of_nat (seq 0 256)) = true)
            by (vm_compute; reflexivity).
          rewrite forallb_forall in F.
          specialize (F c). rewrite E in F.
          destruct (isLower (lowerChar (lowerChar c))); [|reflexivity].
          assert (X : implb true false = true); [|discriminate X].
          apply F. apply in_map_iff. exists (nat_of_ascii c).
          split; [apply ascii_nat_embedding|].
          apply in_seq. pose proof (nat_ascii_bounded c). lia.
      - apply lowerChar_lower. }
    destruct L as [L1 L2]. rewrite L1.
    destruct (isLower (lowerChar c)) eqn:E; [|exact IH].
    rewrite (L2 eq_refl), IH. reflexivity.
Qed.

(** ** The recurrence of the edit distance *)

Lemma nth_firstn_lt {A : Type} (l : list A) :
  forall n i d, (i < n)%nat -> nth i (firstn n l) d = nth i l d.
Proof.
  induction l as [|x l IH]; intros [|n] [|i] d H; cbn; try reflexivity;
    try lia.
  apply IH. lia.
Qed.

Lemma firstn_firstn_S {A : Type} (l : list A) :
  forall n, firstn n (firstn (S n) l) = firstn n l.
Proof.
  induction l as [|x l IH]; intros [|n]; cbn; try reflexivity.
  f_equal. apply IH.
Qed.

(** A cell depends on the prefixes that it compares only. *)
Lemma cell_prefix (a a' b b' : list ascii) (row : nat) :
  forall col,
    firstn row a = firstn row a' -> firstn col b = firstn col b' ->
    Props.cell a b row col = Props.cell a' b' row col.
Proof.
  induction row as [|r IHr]; intros col Ea Eb; [reflexivity|].
  assert (Ea' : firstn r a = firstn r a')
    by (rewrite <- (firstn_firstn_S a), <- (firstn_firstn_S a'), Ea;
        reflexivity).
  assert (Na : nth r a zero = nth r a' zero)
    by (rewrite <- (nth_firstn_lt a (S r) r zero), <- (nth_firstn_lt a' (S r) r zero),
          Ea by lia; reflexivity).
  induction col as [|c IHc]; [reflexivity|].
  assert (Eb' : firstn c b = firstn c b')
    by (rewrite <- (firstn_firstn_S b), <- (firstn_firstn_S b'), Eb;
        reflexivity).
  assert (Nb : nth c b zero = nth c b' zero)
    by (rewrite <- (nth_firstn_lt b (S c) c zero), <- (nth_firstn_lt b' (S c) c zero),
          Eb by lia; reflexivity).
  rewrite !cell_S_S, (IHr (S c) Ea' Eb), (IHr c Ea' Eb'), (IHc Eb'), Na, Nb.
  reflexivity.
Qed.

Lemma chars_snoc (a : string) (x : ascii) :
  chars (a ++ String x "")%string = chars a ++ [x]
  /\ String.length (a ++ String x "")%string = S (String.length a).
Proof.
  unfold chars. induction a as [|c a [IH1 IH2]]; cbn; [auto|].
  rewrite IH1, IH2. auto.
Qed.

(** [levenshteinDistance] satisfies the recurrence of the edit distance:
    the distance from or to the empty string is the length of the other
    string, and the distance between two strings that end in [x] and [y] is
    the least of: deleting [x], inserting [y], and turning [x] into [y] at
    cost 0 when they are equal and 1 otherwise. *)
Theorem levenshtein_recurrence :
  (forall b, ShelfLife.levenshteinDistance "" b = String.length b)
  /\ (forall a, ShelfLife.levenshteinDistance a "" = String.length a)
  /\ (forall a b x y,
        ShelfLife.levenshteinDistance (a ++ String x "") (b ++ String y "")
        = Nat.min
            (Nat.min
               (ShelfLife.levenshteinDistance a (b ++ String y "") + 1)
               (ShelfLife.levenshteinDistance (a ++ String x "") b + 1))
            (ShelfLife.levenshteinDistance a b
             + (if Ascii.eqb x y then 0 else 1)))%nat.
Proof.
  split; [|split].
  - intros b. rewrite levenshteinDistance_editDistance. reflexivity.
  - intros a. rewrite levenshteinDistance_editDistance.
    unfold Props.editDistance. apply cell_col_0.
  - intros a b x y. rewrite !levenshteinDistance_editDistance.
    unfold Props.editDistance.
    destruct (chars_snoc a x) as [Ca La]. destruct (chars_snoc b y) as [Cb Lb].
    rewrite Ca, Cb, La, Lb, cell_S_S.
    rewrite <- (chars_length a), <- (chars_length b).
    rewrite !app_nth2, !Nat.sub_diag by lia. cbn [nth].
    assert (Pa : firstn (List.length (chars a)) (chars a ++ [x])
                 = firstn (List.length (chars a)) (chars a))
      by (rewrite firstn_app, Nat.sub_diag, firstn_O, app_nil_r; reflexivity).
    assert (Pb : firstn (List.length (chars b)) (chars b ++ [y])
                 = firstn (List.length (chars b)) (chars b))
      by (rewrite firstn_app, Nat.sub_diag, firstn_O, app_nil_r; reflexivity).
    rewrite (cell_prefix (chars a ++ [x]) (chars a) (chars b ++ [y])
                         (chars b ++ [y]) _ _ Pa eq_refl).
    rewrite (cell_prefix (chars a ++ [x]) (chars a ++ [x]) (chars b ++ [y])
                         (chars b) _ _ eq_refl Pb).
    rewrite (cell_prefix (chars a ++ [x]) (chars a) (chars b ++ [y])
                         (chars b) _ _ Pa Pb).
    reflexivity.
Qed.

(** ** Quantities *)




(** ** Instances *)

Lemma canonicalize_fuzzy_witness :
  exists (entry : string) (d : nat),
    Props.firstMinimum
      (Props.editDistance (ShelfLife.normalizeToken "Brocoli!"))
      (keys ShelfLife.SHELF_LIFE_BY_INGREDIENT) entry d
    /\ let similarity :=
         (1 - ShelfLife.natQ d
              / ShelfLife.natQ
                  (Nat.max (String.length entry)
                           (String.length (ShelfLife.normalizeToken "Brocoli!"))))%Q in
       ShelfLife.canonicalizeIngredient "Brocoli!"
       = if Qle_bool 0.55 similarity
         then {| ShelfLife.canonicalName := Just entry;
                 ShelfLife.confidence := ShelfLife.toFixed2 similarity |}
         else {| ShelfLife.canonicalName :=
                   Just (ShelfLife.normalizeToken "Brocoli!");
                 ShelfLife.confidence := 0.5 |}.
Proof.
  apply (canonicalize_fuzzy "Brocoli!").
  - vm_compute. discriminate.
  - vm_compute. reflexivity.
  - vm_compute. reflexivity.
  - vm_compute. discriminate.
Defined.

Lemma canonicalize_idempotent_witness :
  exists again,
    ShelfLife.canonicalizeValue
      (ShelfLife.canonicalName (ShelfLife.canonicalizeIngredient "Bnna"))
    = Ok again
    /\ ShelfLife.canonicalName again
       = ShelfLife.canonicalName (ShelfLife.canonicalizeIngredient "Bnna").
Proof.
  apply (canonicalize_idempotent "Bnna"). vm_compute. discriminate.
Defined.

Lemma parsed_items_witness :
  let item :=
    {| ParsedReceiptItem.rawLine := "2x Bnna $1.99";
       ParsedReceiptItem.canonicalName := Just "banana";
       ParsedReceiptItem.displayName := Just "banana";
       ParsedReceiptItem.quantity := Finite 2;
       ParsedReceiptItem.unit := "item";
       ParsedReceiptItem.confidence := 0.95%Q |} in
  In item (ReceiptParser.parseReceiptText "2x Bnna $1.99")
  /\ ParsedReceiptItem.canonicalName item <> Just "unknown"
  /\ In (ParsedReceiptItem.unit item) ["lb"; "kg"; "l"; "item"].
Proof.
  intros item.
  assert (H : In item (ReceiptParser.parseReceiptText "2x Bnna $1.99"))
    by (vm_compute; left; reflexivity).
  split; [exact H|].
  destruct (parsed_items_are_well_formed "2x Bnna $1.99" item H)
    as [A [_ [B _]]].
  split; [exact A | exact B].
Defined.


(** ** The date-time format read back *)

Lemma DayFromYear_succ (y : Z) :
  (JSDate.DayFromYear (y + 1) = JSDate.DayFromYear y + JSDate.DaysInYear y)%Z.
Proof.
  unfold JSDate.DayFromYear, JSDate.DaysInYear.
  destruct (y mod 4 =? 0)%Z eqn:E4; destruct (y mod 100 =? 0)%Z eqn:E100;
    destruct (y mod 400 =? 0)%Z eqn:E400; cbn [negb];
    rewrite ?Z.eqb_eq, ?Z.eqb_neq in *;
    Z.div_mod_to_equations; lia.
Qed.

Lemma leapDays_range (y : Z) :
  JSDate.leapDays y = 0%Z \/ JSDate.leapDays y = 1%Z.
Proof.
  unfold JSDate.leapDays, JSDate.DaysInYear.
  repeat match goal with
         | |- context [if ?b then _ else _] => destruct b
         end; lia.
Qed.

Lemma DayWithinYear_range (t : Z) :
  (0 <= JSDate.DayWithinYear t
   < 365 + JSDate.leapDays (JSDate.YearFromTime t))%Z.
Proof.
  pose proof (YearFromTime_spec t) as Y.
  rewrite DayFromYear_succ in Y.
  unfold JSDate.DayWithinYear, JSDate.leapDays. lia.
Qed.

(** The day of the month lies within the month. *)
Lemma DateFromTime_range (t : Z) :
  (1 <= JSDate.DateFromTime t
   <= JSDate.daysInMonth (JSDate.YearFromTime t) (JSDate.MonthFromTime t + 1))%Z.
Proof.
  pose proof (DayWithinYear_range t) as D.
  pose proof (leapDays_range (JSDate.YearFromTime t)) as L.
  unfold JSDate.daysInMonth, JSDate.DateFromTime, JSDate.MonthFromTime.
  set (d := JSDate.DayWithinYear t) in *.
  set (l := JSDate.leapDays (JSDate.YearFromTime t)) in *.
  clearbody d l.
  destruct L; subst l;
  repeat match goal with
         | |- context [if ?b then _ else _] =>
             let E := fresh "E" in destruct b eqn:E
         end;
    rewrite ?Z.ltb_lt, ?Z.ltb_ge in *; cbn; lia.
Qed.

Lemma TimeWithinDay_fields (t : Z) :
  let w := JSDate.TimeWithinDay t in
  (0 <= w / JSDate.msPerHour <= 23
   /\ 0 <= w mod JSDate.msPerHour / JSDate.msPerMinute <= 59
   /\ 0 <= w mod JSDate.msPerMinute / JSDate.msPerSecond <= 59
   /\ 0 <= w mod JSDate.msPerSecond <= 999
   /\ JSDate.MakeTime (w / JSDate.msPerHour)
        (w mod JSDate.msPerHour / JSDate.msPerMinute)
        (w mod JSDate.msPerMinute / JSDate.msPerSecond)
        (w mod JSDate.msPerSecond) = w)%Z.
Proof.
  intros w.
  assert (W : (0 <= w < 86400000)%Z).
  { unfold w, JSDate.TimeWithinDay, JSDate.msPerDay.
    apply Z.mod_pos_bound. lia. }
  clearbody w.
  unfold JSDate.MakeTime, JSDate.msPerHour, JSDate.msPerMinute,
    JSDate.msPerSecond.
  Z.div_mod_to_equations. lia.
Qed.

Lemma countUp_In (k : nat) (n x : Z) :
  (n <= x < n + Z.of_nat k)%Z -> In x (Props.countUp k n).
Proof.
  revert n. induction k as [|k IH]; intros n R; [lia|].
  cbn [Props.countUp]. destruct (Z.eq_dec n x) as [E|E]; [left; exact E|].
  right. apply IH. lia.
Qed.

Lemma pad_digits (width : nat) (bound n : Z) :
  forallb (Props.padReadsBack width) (Props.countUp (Z.to_nat bound) 0) = true ->
  (0 <= n < bound)%Z ->
  List.length (chars (JSDate.pad width n)) = width
  /\ JSDate.digits (chars (JSDate.pad width n)) = Some n.
Proof.
  intros T R. rewrite forallb_forall in T.
  specialize (T n (countUp_In (Z.to_nat bound) 0 n ltac:(lia))).
  unfold Props.padReadsBack in T.
  apply andb_true_iff in T. destruct T as [T1 T2].
  apply Nat.eqb_eq in T1. split; [exact T1|].
  destruct (JSDate.digits (chars (JSDate.pad width n))); [|discriminate].
  apply Z.eqb_eq in T2. congruence.
Qed.

Lemma pad2_digits (n : Z) :
  (0 <= n <= 99)%Z ->
  exists a b, JSDate.pad 2 n = str [a; b] /\ JSDate.digits [a; b] = Some n.
Proof.
  intros R.
  assert (T : forallb (Props.padReadsBack 2) (Props.countUp (Z.to_nat 100) 0) = true)
    by (vm_compute; reflexivity).
  destruct (pad_digits 2 100 n T ltac:(lia)) as [L D].
  clear T.
  rewrite <- (str_chars (JSDate.pad 2 n)).
  destruct (chars (JSDate.pad 2 n)) as [|a [|b [|c l]]]; try discriminate.
  exists a, b. split; [reflexivity | exact D].
Qed.

Lemma pad3_digits (n : Z) :
  (0 <= n <= 999)%Z ->
  exists a b c,
    JSDate.pad 3 n = str [a; b; c] /\ JSDate.digits [a; b; c] = Some n.
Proof.
  intros R.
  assert (T : forallb (Props.padReadsBack 3) (Props.countUp (Z.to_nat 1000) 0) = true)
    by (vm_compute; reflexivity).
  destruct (pad_digits 3 1000 n T ltac:(lia)) as [L D].
  clear T.
  rewrite <- (str_chars (JSDate.pad 3 n)).
  destruct (chars (JSDate.pad 3 n)) as [|a [|b [|c [|e l]]]];
    try discriminate.
  exists a, b, c. split; [reflexivity | exact D].
Qed.

Lemma pad4_digits (n : Z) :
  (0 <= n <= 9999)%Z ->
  exists a b c d,
    JSDate.pad 4 n = str [a; b; c; d]
    /\ JSDate.digits [a; b; c; d] = Some n.
Proof.
  intros R.
  assert (T : forallb (Props.padReadsBack 4) (Props.countUp (Z.to_nat 10000) 0) = true)
    by (vm_compute; reflexivity).
  destruct (pad_digits 4 10000 n T ltac:(lia)) as [L D].
  clear T.
  rewrite <- (str_chars (JSDate.pad 4 n)).
  destruct (chars (JSDate.pad 4 n)) as [|a [|b [|c [|d [|e l]]]]];
    try discriminate.
  exists a, b, c, d. split; [reflexivity | exact D].
Qed.

Lemma year_range_time (t : Z) :
  (0 <= JSDate.YearFromTime t <= 9999)%Z ->
  (-62167219200000 <= t < 253402300800000)%Z.
Proof.
  intros R. pose proof (YearFromTime_spec t) as Y.
  assert (L : (JSDate.DayFromYear 0 <= JSDate.DayFromYear (JSDate.YearFromTime t))%Z).
  { unfold JSDate.DayFromYear. Z.div_mod_to_equations. lia. }
  assert (U : (JSDate.DayFromYear (JSDate.YearFromTime t + 1)
               <= JSDate.DayFromYear 10000)%Z).
  { unfold JSDate.DayFromYear. Z.div_mod_to_equations. lia. }
  assert (E0 : JSDate.DayFromYear 0 = (-719528)%Z) by reflexivity.
  assert (E1 : JSDate.DayFromYear 10000 = 2932897%Z) by reflexivity.
  rewrite E0 in L. rewrite E1 in U.
  unfold JSDate.Day, JSDate.msPerDay in Y.
  generalize dependent (JSDate.DayFromYear (JSDate.YearFromTime t)).
  generalize dependent (JSDate.DayFromYear (JSDate.YearFromTime t + 1)).
  intros. Z.div_mod_to_equations. lia.
Qed.

(** [new Date(s)] of the string [s] that [toISOString] returns for an
    instant of the years 0 to 9999 is that instant, on every host. *)
Lemma formatTime_newDate (h : JSDate.Host) (t : Z) :
  (0 <= JSDate.YearFromTime t <= 9999)%Z ->
  JSDate.newDate h (JSDate.formatTime t) = Some t.
Proof.
  intros R.
  pose proof (MonthFromTime_range t) as M.
  pose proof (DateFromTime_range t) as D.
  destruct (TimeWithinDay_fields t) as [F1 [F2 [F3 [F4 F5]]]].
  pose proof (MakeDay_shift t 0) as S. rewrite Z.add_0_r in S.
  cbn [Z.mul] in S. rewrite Z.add_0_r in S.
  pose proof (year_range_time t R) as C.
  unfold JSDate.formatTime.
  replace ((0 <=? JSDate.YearFromTime t)%Z && (JSDate.YearFromTime t <=? 9999)%Z)
    with true by (symmetry; apply andb_true_iff; split; apply Z.leb_le; lia).
  set (y := JSDate.YearFromTime t) in *.
  set (m := JSDate.MonthFromTime t) in *.
  set (d := JSDate.DateFromTime t) in *.
  set (w := JSDate.TimeWithinDay t) in *.
  set (hh := (w / JSDate.msPerHour)%Z) in *.
  set (mm := (w mod JSDate.msPerHour / JSDate.msPerMinute)%Z) in *.
  set (ss := (w mod JSDate.msPerMinute / JSDate.msPerSecond)%Z) in *.
  set (ms := (w mod JSDate.msPerSecond)%Z) in *.
  assert (Dm : (d <= 31)%Z).
  { assert (forall k, (JSDate.daysInMonth y k <= 31)%Z).
    { intros k. pose proof (leapDays_range y).
      unfold JSDate.daysInMonth.
      repeat match goal with
             | |- context [match ?x with _ => _ end] => destruct x
             end; lia. }
    specialize (H (m + 1)%Z). lia. }
  destruct (pad4_digits y ltac:(lia)) as [y1 [y2 [y3 [y4 [Py Dy]]]]].
  destruct (pad2_digits (m + 1) ltac:(lia)) as [m1 [m2 [Pm Dmo]]].
  destruct (pad2_digits d ltac:(lia)) as [d1 [d2 [Pd Dd]]].
  destruct (pad2_digits hh ltac:(lia)) as [h1 [h2 [Ph Dh]]].
  destruct (pad2_digits mm ltac:(lia)) as [n1 [n2 [Pn Dn]]].
  destruct (pad2_digits ss ltac:(lia)) as [s1 [s2 [Ps Ds]]].
  destruct (pad3_digits ms ltac:(lia)) as [f1 [f2 [f3 [Pf Df]]]].
  rewrite Py, Pm, Pd, Ph, Pn, Ps, Pf.
  clearbody y m d w hh mm ss ms.
  unfold JSDate.newDate, JSDate.parseFormat.
  cbn [str string_of_list_ascii append chars list_ascii_of_string].
  cbv beta iota. rewrite Dy, Dmo, Dd.
  replace ((1 <=? m + 1)%Z && (m + 1 <=? 12)%Z && (1 <=? d)%Z
           && (d <=? JSDate.daysInMonth y (m + 1))%Z) with true
    by (symmetry; rewrite !andb_true_iff, !Z.leb_le; lia).
  unfold JSDate.parseTime. cbv beta iota zeta. rewrite Dh, Dn, Ds, Df.
  replace ((hh <=? 23)%Z && (mm <=? 59)%Z && (ss <=? 59)%Z) with true
    by (symmetry; rewrite !andb_true_iff, !Z.leb_le; lia).
  cbn [orb]. rewrite F5.
  replace (m + 1 - 1)%Z with m by lia. rewrite S.
  unfold JSDate.TimeClip.
  replace (8640000000000000 <? Z.abs t)%Z with false
    by (symmetry; apply Z.ltb_ge; lia).
  reflexivity.
Qed.

(** ** New pantry items *)

Lemma isSpace_no_letter (c : ascii) :
  isSpace c = true -> isLower (lowerChar c) = false.
Proof.
  destruct c as [[] [] [] [] [] [] [] []]; vm_compute; congruence.
Qed.

Lemma dropSpaces_nil (l : list ascii) :
  dropSpaces l = [] -> Forall (fun c => isSpace c = true) l.
Proof.
  induction l as [|c l IH]; cbn; intros H; [constructor|].
  destruct (isSpace c) eqn:E; [|discriminate].
  constructor; [exact E | exact (IH H)].
Qed.

Lemma str_nil (l : list ascii) : str l = "" -> l = [].
Proof. destruct l; [reflexivity | discriminate]. Qed.

(** A name that [trim] empties has no letter. *)
Lemma trim_empty_normalizes (s : string) :
  trim s = "" -> ShelfLife.normalizeToken s = "".
Proof.
  unfold trim. intros H. apply str_nil in H.
  assert (R : rev (dropSpaces (chars s)) = []).
  { pose proof (dropSpaces_head (chars s)) as Hd.
    destruct (dropSpaces (chars s)) as [|c l] eqn:D; [reflexivity|].
    assert (N : dropSpaces (rev (c :: l)) = []).
    { destruct (dropSpaces (rev (c :: l))); [reflexivity|].
      apply (f_equal (@List.length ascii)) in H.
      rewrite length_rev in H. discriminate. }
    apply dropSpaces_nil in N. rewrite Forall_forall in N.
    specialize (N c). rewrite <- in_rev in N.
    rewrite (N (or_introl eq_refl)) in Hd. discriminate. }
  assert (D : dropSpaces (chars s) = []).
  { destruct (dropSpaces (chars s)); [reflexivity|].
    cbn in R. destruct (rev l); discriminate. }
  apply dropSpaces_nil in D. clear H R.
  unfold ShelfLife.normalizeToken, toLowerCase. rewrite chars_str.
  induction D as [|c l Hc Hl IH]; [reflexivity|].
  cbn [map filter]. rewrite (isSpace_no_letter c Hc). exact IH.
Qed.

Lemma blank_name_is_unknown (s : string) :
  trim s = "" ->
  ShelfLife.canonicalName (ShelfLife.canonicalizeIngredient s) = Just "unknown".
Proof.
  intros H. unfold ShelfLife.canonicalizeIngredient.
  rewrite (trim_empty_normalizes s H). reflexivity.
Qed.

Lemma expiration_of_invalid_purchase
      (h : JSDate.Host) (canonicalName purchaseDate : string) :
  JSDate.newDate h purchaseDate = None ->
  ShelfLife.expirationDateForItem h canonicalName purchaseDate None
  = Throw RangeError.
Proof.
  intros P. unfold ShelfLife.expirationDateForItem. rewrite P. reflexivity.
Qed.

Lemma toISOString_Ok (tv : option Z) (iso : string) :
  JSDate.toISOString tv = Ok iso ->
  exists t, tv = Some t /\ iso = JSDate.formatTime t.
Proof.
  destruct tv as [t|]; cbn; intros H; [|discriminate].
  injection H as <-. exists t. split; reflexivity.
Qed.

Lemma TimeClip_Some (t u : Z) : JSDate.TimeClip t = Some u -> u = t.
Proof.
  unfold JSDate.TimeClip.
  destruct (8640000000000000 <? Z.abs t)%Z; congruence.
Qed.

Lemma orElse_nonempty (a b : string) : b <> "" -> Pantry.orElse a b <> "".
Proof.
  intros B. unfold Pantry.orElse. cbn [truthyString].
  destruct (String.eqb a "") eqn:E; cbn [negb]; [exact B|].
  apply String.eqb_neq. exact E.
Qed.

(** What [createInventoryItem] stores, when it returns.  The clock is read
    once.  The display name is a trimmed, non-empty string even when the
    canonical name is none; the unit is not empty.  The purchase date is a
    valid date, the one given or the instant of creation; the computed
    expiration is the ISO form of an instant 2 to 45 local calendar days
    after the purchase, and reads back as that instant while it lies in the
    years 0 to 9999; a stored override is the ISO form of the instant that
    the given override denotes.  So the effective expiration of the item is
    a valid date, as the ranking requires, while it lies in those years. *)
Theorem created_item_is_well_formed
        (h : JSDate.Host) (clock : JSDate.Clock) (uuid : string)
        (input : NewItem.t) (n n' : nat) (item : StoredItem.t) :
  (forall t b, Z.abs (JSDate.LocalTZA h t b) < JSDate.msPerDay)%Z ->
  Pantry.createInventoryItem h clock uuid input n = (Ok item, n') ->
  (n' = S n
  /\ StoredItem.id item = uuid
  /\ StoredItem.quantity item = NewItem.quantity input
  /\ StoredItem.source item = NewItem.source input
  /\ StoredItem.canonicalName item
     = ShelfLife.canonicalName
         (ShelfLife.canonicalizeIngredient (NewItem.name input))
  /\ (exists s, StoredItem.displayName item = Just s /\ s <> ""
                /\ trim s = s)
  /\ StoredItem.unit item <> ""
  /\ StoredItem.createdAt item = JSDate.formatTime (clock n)
  /\ StoredItem.updatedAt item = StoredItem.createdAt item
  /\ StoredItem.purchaseDate item
     = match NewItem.purchaseDate input with
       | Some given => given
       | None => StoredItem.createdAt item
       end
  /\ (exists p e days : Z,
        JSDate.newDate h (StoredItem.purchaseDate item) = Some p
        /\ (2 <= days <= 45)%Z
        /\ e = JSDate.UTC h (JSDate.LocalTime h p + days * JSDate.msPerDay)%Z
        /\ (p < e)%Z
        /\ StoredItem.computedExpirationDate item = JSDate.formatTime e
        /\ ((0 <= JSDate.YearFromTime e <= 9999)%Z ->
            JSDate.newDate h (StoredItem.computedExpirationDate item)
            = Some e))
  /\ match StoredItem.overrideExpirationDate item with
     | Some iso =>
         exists override v,
           NewItem.expirationDateOverride input = Some override
           /\ override <> ""
           /\ JSDate.newDate h override = Some v
           /\ iso = JSDate.formatTime v
           /\ ((0 <= JSDate.YearFromTime v <= 9999)%Z ->
               JSDate.newDate h iso = Some v)
     | None =>
         NewItem.expirationDateOverride input = None
         \/ NewItem.expirationDateOverride input = Some ""
     end)
  /\ (forall inv,
        Pantry.asInventoryItem item = Some inv ->
        exists e,
          Props.effectiveExpiration inv = JSDate.formatTime e
          /\ ((0 <= JSDate.YearFromTime e <= 9999)%Z ->
              Props.validDates h inv)).
Proof.
  intros TZ RUN.
  match goal with |- ?F /\ _ => assert (Fields : F) end.
  2:{ split; [exact Fields|].
      destruct Fields as (_ & _ & _ & _ & _ & _ & _ & _ & _ & _ & C & O).
      intros inv A. unfold Pantry.asInventoryItem in A.
      destruct (StoredItem.canonicalName item); [|discriminate].
      destruct (StoredItem.displayName item); [|discriminate].
      injection A as <-. unfold Props.validDates, Props.effectiveExpiration.
      cbn [InventoryItem.overrideExpirationDate
             InventoryItem.computedExpirationDate].
      destruct (StoredItem.overrideExpirationDate item) as [iso|].
      - destruct O as (override & v & _ & _ & _ & E & V).
        exists v. split; [exact E|]. intros Y. rewrite (V Y). discriminate.
      - destruct C as (p & e & days & _ & _ & _ & _ & E & V).
        exists e. split; [exact E|]. intros Y. rewrite (V Y). discriminate. }
  unfold Pantry.createInventoryItem, JSDate.bind, JSDate.now, JSDate.ret
    in RUN.
  cbv beta iota in RUN.
  apply pair_equal_spec in RUN. destruct RUN as [RUN <-].
  split; [reflexivity|].
  destruct (JSDate.toISOString (JSDate.TimeClip (clock n))) as [now|]
    eqn:NOW; [|discriminate].
  apply toISOString_Ok in NOW. destruct NOW as [t [T ->]].
  apply TimeClip_Some in T. subst t.
  set (purchase := match NewItem.purchaseDate input with
                   | Some given => given
                   | None => JSDate.formatTime (clock n)
                   end) in *.
  set (name := toString (ShelfLife.canonicalName
                 (ShelfLife.canonicalizeIngredient (NewItem.name input))))
    in *.
  destruct (ShelfLife.expirationDateForItem h name purchase None)
    as [computed|] eqn:X; [|discriminate].
  destruct (JSDate.newDate h purchase) as [p|] eqn:P;
    [|rewrite (expiration_of_invalid_purchase h name purchase P) in X;
      discriminate].
  pose proof (returned_name_not_member (NewItem.name input)) as I.
  fold name in I.
  destruct (shelfLife_range name I) as [days [G [R _]]].
  destruct (expiration_after_purchase h name purchase p TZ I P)
    as [days' [e [G' [E [Lt X']]]]].
  rewrite G in G'. injection G' as <-.
  rewrite X' in X. apply toISOString_Ok in X. destruct X as [e' [C ->]].
  apply TimeClip_Some in C. subst e'.
  assert (DN : exists s,
             (let trimmed := trim (NewItem.name input) in
              if truthyString (Some (Just trimmed)) then Just trimmed
              else ShelfLife.canonicalName
                     (ShelfLife.canonicalizeIngredient (NewItem.name input)))
             = Just s /\ s <> "" /\ trim s = s).
  { cbn [truthyString].
    destruct (String.eqb (trim (NewItem.name input)) "") eqn:B; cbn [negb].
    - apply String.eqb_eq in B. rewrite (blank_name_is_unknown _ B).
      exists "unknown". split; [reflexivity|].
      split; [discriminate | reflexivity].
    - apply String.eqb_neq in B. exists (trim (NewItem.name input)).
      split; [reflexivity|]. split; [exact B | apply trim_idempotent]. }
  assert (UN : Pantry.orElse (NewItem.unit input) "item" <> "")
    by (apply orElse_nonempty; discriminate).
  assert (CE : exists p0 e0 days0 : Z,
             JSDate.newDate h purchase = Some p0
             /\ (2 <= days0 <= 45)%Z
             /\ e0 = JSDate.UTC h
                       (JSDate.LocalTime h p0 + days0 * JSDate.msPerDay)%Z
             /\ (p0 < e0)%Z
             /\ JSDate.formatTime e = JSDate.formatTime e0
             /\ ((0 <= JSDate.YearFromTime e0 <= 9999)%Z ->
                 JSDate.newDate h (JSDate.formatTime e) = Some e0)).
  { exists p, e, days. repeat split; try assumption; try lia.
    apply formatTime_newDate. }
  clear X' E Lt G R I.
  destruct (NewItem.expirationDateOverride input) as [override|] eqn:O.
  - cbn [truthyString] in RUN.
    destruct (String.eqb override "") eqn:B; cbn [negb] in RUN.
    + apply String.eqb_eq in B. subst override.
      injection RUN as <-. cbn.
      repeat (split; [first [reflexivity | assumption]|]).
      right. reflexivity.
    + apply String.eqb_neq in B.
      destruct (JSDate.toISOString (JSDate.newDate h override)) as [iso|]
        eqn:V; [|discriminate].
      apply toISOString_Ok in V. destruct V as [v [V ->]].
      injection RUN as <-. cbn.
      repeat (split; [first [reflexivity | assumption]|]).
      exists override, v. repeat split; try assumption.
      apply formatTime_newDate.
  - injection RUN as <-. cbn.
    repeat (split; [first [reflexivity | assumption]|]).
    left. reflexivity.
Qed.

Lemma newDate_range (h : JSDate.Host) (s : string) (t : Z) :
  JSDate.newDate h s = Some t -> (Z.abs t <= 8640000000000000)%Z.
Proof.
  unfold JSDate.newDate.
  destruct (match JSDate.parseFormat h s with
            | Some t0 => Some t0
            | None => JSDate.fallbackParse h s
            end) as [t0|]; [|discriminate].
  unfold JSDate.TimeClip.
  destruct (8640000000000000 <? Z.abs t0)%Z eqn:C; [discriminate|].
  intros [= <-]. apply Z.ltb_ge in C. exact C.
Qed.

(** The two outcomes of [expirationDateForItem] without an override, for a
    name that is no member of [Object.prototype]. *)
Lemma expiration_outcome
      (h : JSDate.Host) (name purchase : string) :
  (forall t b, Z.abs (JSDate.LocalTZA h t b) < JSDate.msPerDay)%Z ->
  inb name objectPrototype = false ->
  exists days,
    ShelfLife.getShelfLifeDays name = Just days /\ (2 <= days <= 45)%Z
    /\ match JSDate.newDate h purchase with
       | None =>
           ShelfLife.expirationDateForItem h name purchase None
           = Throw RangeError
       | Some p =>
           let e :=
             JSDate.UTC h (JSDate.LocalTime h p + days * JSDate.msPerDay)%Z in
           (p < e < p + 47 * JSDate.msPerDay)%Z
           /\ ShelfLife.expirationDateForItem h name purchase None
              = (if (e <=? 8640000000000000)%Z then Ok (JSDate.formatTime e)
                 else Throw RangeError)
       end.
Proof.
  intros TZ I.
  destruct (shelfLife_range name I) as [days [G [R _]]].
  exists days. split; [exact G|]. split; [exact R|].
  destruct (JSDate.newDate h purchase) as [p|] eqn:P;
    [|apply expiration_of_invalid_purchase; exact P].
  destruct (expiration_after_purchase h name purchase p TZ I P)
    as [days' [e [G' [E [Lt X]]]]].
  rewrite G in G'. injection G' as <-.
  cbv zeta. rewrite <- E. split.
  - split; [exact Lt|].
    pose proof (TZ p true) as Z1.
    pose proof (TZ (JSDate.LocalTime h p + days * JSDate.msPerDay)%Z false)
      as Z2.
    unfold JSDate.UTC, JSDate.LocalTime in *.
    unfold JSDate.msPerDay in *. lia.
  - rewrite X. unfold JSDate.toISOString, JSDate.TimeClip.
    pose proof (newDate_range h purchase p P) as R0.
    destruct (Z.leb_spec e 8640000000000000);
      destruct (Z.ltb_spec 8640000000000000 (Z.abs e)); try reflexivity; lia.
Qed.

(** [createInventoryItem] reads the clock once and fails only with a
    [RangeError], never with a [TypeError], whatever the name is.  It
    returns an item exactly when the instant of the clock, the purchase
    date and a given non-empty override are valid dates and the expiration
    computed from the purchase date is within the range of [Date].  An item
    created without dates while the clock shows a year from 0 to 9999 is
    always returned, with the instant of the clock as its purchase date. *)
Theorem createInventoryItem_fails_only_on_dates
        (h : JSDate.Host) (clock : JSDate.Clock) (uuid : string)
        (input : NewItem.t) (n : nat) :
  (forall t b, Z.abs (JSDate.LocalTZA h t b) < JSDate.msPerDay)%Z ->
  let run := Pantry.createInventoryItem h clock uuid input n in
  let purchase :=
    match NewItem.purchaseDate input with
    | Some given => given
    | None => JSDate.formatTime (clock n)
    end in
  let name :=
    toString (ShelfLife.canonicalName
                (ShelfLife.canonicalizeIngredient (NewItem.name input))) in
  snd run = S n
  /\ (forall e, fst run = Throw e -> e = RangeError)
  /\ ((exists item, fst run = Ok item) <->
      (Z.abs (clock n) <= 8640000000000000)%Z
      /\ (exists p days,
            JSDate.newDate h purchase = Some p
            /\ ShelfLife.getShelfLifeDays name = Just days
            /\ (JSDate.UTC h (JSDate.LocalTime h p + days * JSDate.msPerDay)
                <= 8640000000000000)%Z)
      /\ (forall override,
            NewItem.expirationDateOverride input = Some override ->
            override <> "" -> JSDate.newDate h override <> None))
  /\ (NewItem.purchaseDate input = None ->
      NewItem.expirationDateOverride input = None ->
      (0 <= JSDate.YearFromTime (clock n) <= 9999)%Z ->
      exists item,
        fst run = Ok item
        /\ JSDate.newDate h (StoredItem.purchaseDate item) = Some (clock n)).
Proof.
  intros TZ run purchase name.
  pose proof (returned_name_not_member (NewItem.name input)) as I.
  fold name in I.
  destruct (expiration_outcome h name purchase TZ I) as [days [G [R X]]].
  subst run name.
  unfold Pantry.createInventoryItem, JSDate.bind, JSDate.now, JSDate.ret.
  cbv beta iota. cbn [fst snd]. split; [reflexivity|].
  assert (TC : JSDate.TimeClip (clock n)
               = if (8640000000000000 <? Z.abs (clock n))%Z then None
                 else Some (clock n)) by reflexivity.
  rewrite TC. clear TC.
  destruct (Z.ltb_spec 8640000000000000 (Z.abs (clock n))) as [C|C];
    cbn [JSDate.toISOString].
  { split; [intros e [= <-]; reflexivity|]. split.
    - split; [intros [item H]; discriminate | intros [H _]; lia].
    - intros _ _ Y. apply year_range_time in Y. lia. }
  fold purchase.
  destruct (JSDate.newDate h purchase) as [p|] eqn:P.
  2:{ rewrite X. split; [intros e [= <-]; reflexivity|]. split.
      - split; [intros [item H]; discriminate|].
        intros [_ [[p [d [H _]]] _]]. discriminate.
      - intros N _ Y. unfold purchase in P. rewrite N in P.
        rewrite (formatTime_newDate h _ Y) in P. discriminate. }
  cbv zeta in X. destruct X as [B X]. rewrite X. clear X.
  set (e := JSDate.UTC h (JSDate.LocalTime h p + days * JSDate.msPerDay)%Z)
    in *.
  destruct (Z.leb_spec e 8640000000000000) as [U|U].
  2:{ split; [intros x [= <-]; reflexivity|]. split.
      - split; [intros [item H]; discriminate|].
        intros [_ [[p' [d' [P' [G' H]]]] _]].
        rewrite G in G'. injection G' as <-. injection P' as <-.
        fold e in H. lia.
      - intros N _ Y. unfold purchase in P. rewrite N in P.
        rewrite (formatTime_newDate h _ Y) in P. injection P as <-.
        apply year_range_time in Y. unfold JSDate.msPerDay in B. lia. }
  assert (Now : NewItem.purchaseDate input = None ->
                (0 <= JSDate.YearFromTime (clock n) <= 9999)%Z ->
                JSDate.newDate h purchase = Some (clock n)).
  { intros N Y. unfold purchase. rewrite N. apply formatTime_newDate, Y. }
  destruct (NewItem.expirationDateOverride input) as [override|] eqn:O.
  - cbn [truthyString].
    destruct (String.eqb override "") eqn:E; cbn [negb].
    + apply String.eqb_eq in E. subst override.
      split; [intros x H; discriminate|]. split.
      * split; [|intros _; eexists; reflexivity].
        intros _. split; [lia|]. split.
        -- exists p, days. repeat split; assumption.
        -- intros o [= <-] H. contradiction H. reflexivity.
      * intros _ H. discriminate.
    + apply String.eqb_neq in E.
      destruct (JSDate.newDate h override) as [v|] eqn:V;
        cbn [JSDate.toISOString].
      * split; [intros x H; discriminate|]. split.
        -- split; [|intros _; eexists; reflexivity].
           intros _. split; [lia|]. split.
           ++ exists p, days. repeat split; assumption.
           ++ intros o [= <-] _. rewrite V. discriminate.
        -- intros _ H. discriminate.
      * split; [intros x [= <-]; reflexivity|]. split.
        -- split; [intros [item H]; discriminate|].
           intros [_ [_ H]]. exfalso. apply (H override eq_refl E). exact V.
        -- intros _ H. discriminate.
  - split; [intros x H; discriminate|]. split.
    + split; [|intros _; eexists; reflexivity].
      intros _. split; [lia|]. split.
      * exists p, days. repeat split; assumption.
      * intros o H. discriminate.
    + intros N _ Y. eexists. split; [reflexivity|].
      cbn [StoredItem.purchaseDate]. apply Now; assumption.
Qed.

(** [migrateLegacy] fails only with a [RangeError].  A non-empty
    expiration date of the legacy item is stored as it is, without being
    read as a date, after one reading of the clock.  An empty one is
    replaced by an estimate, 2 to 45 calendar days after the purchase
    date.  When the item has a purchase date, the estimate starts from it
    and the clock is read once; if that purchase date is no valid date the
    migration throws, also when it is the empty string, in whose place the
    item would store the instant of the migration.  When the item has no
    purchase date, the clock is read a second time and the estimate starts
    from that second instant, while the item stores the first as its
    purchase date; with the second instant in a year from 0 to 9999 the
    item is returned. *)
Theorem migrateLegacy_outcome
        (h : JSDate.Host) (clock : JSDate.Clock)
        (legacy : LegacyIngredient.t) (n : nat) :
  (forall t b, Z.abs (JSDate.LocalTZA h t b) < JSDate.msPerDay)%Z ->
  (Z.abs (clock n) <= 8640000000000000)%Z ->
  let run := Pantry.migrateLegacy h clock legacy n in
  let kept item :=
    StoredItem.id item = LegacyIngredient.id legacy
    /\ StoredItem.canonicalName item
       = ShelfLife.canonicalName
           (ShelfLife.canonicalizeIngredient (LegacyIngredient.name legacy))
    /\ StoredItem.displayName item = Just (LegacyIngredient.name legacy)
    /\ StoredItem.quantity item = LegacyIngredient.quantity legacy
    /\ StoredItem.unit item = LegacyIngredient.unit legacy
    /\ StoredItem.purchaseDate item
       = match LegacyIngredient.purchaseDate legacy with
         | Some given =>
             if String.eqb given "" then JSDate.formatTime (clock n)
             else given
         | None => JSDate.formatTime (clock n)
         end
    /\ StoredItem.overrideExpirationDate item = None
    /\ StoredItem.source item = manual
    /\ StoredItem.createdAt item = JSDate.formatTime (clock n)
    /\ StoredItem.updatedAt item = JSDate.formatTime (clock n) in
  snd run
  = (if String.eqb (LegacyIngredient.expirationDate legacy) ""
     then match LegacyIngredient.purchaseDate legacy with
          | Some _ => S n
          | None => S (S n)
          end
     else S n)
  /\ (forall e, fst run = Throw e -> e = RangeError)
  /\ (LegacyIngredient.expirationDate legacy <> "" ->
      exists item,
        fst run = Ok item /\ kept item
        /\ StoredItem.computedExpirationDate item
           = LegacyIngredient.expirationDate legacy)
  /\ (forall given,
      LegacyIngredient.expirationDate legacy = "" ->
      LegacyIngredient.purchaseDate legacy = Some given ->
      match JSDate.newDate h given with
      | None => fst run = Throw RangeError
      | Some p =>
          exists days e : Z,
            (2 <= days <= 45)%Z
            /\ e = JSDate.UTC h
                     (JSDate.LocalTime h p + days * JSDate.msPerDay)%Z
            /\ (p < e)%Z
            /\ if (e <=? 8640000000000000)%Z
               then exists item,
                      fst run = Ok item /\ kept item
                      /\ StoredItem.computedExpirationDate item
                         = JSDate.formatTime e
               else fst run = Throw RangeError
      end)
  /\ (LegacyIngredient.expirationDate legacy = "" ->
      LegacyIngredient.purchaseDate legacy = Some "" ->
      JSDate.fallbackParse h "" = None ->
      fst run = Throw RangeError)
  /\ (LegacyIngredient.expirationDate legacy = "" ->
      LegacyIngredient.purchaseDate legacy = None ->
      (0 <= JSDate.YearFromTime (clock (S n)) <= 9999)%Z ->
      exists (days e : Z) (item : StoredItem.t),
        (2 <= days <= 45)%Z
        /\ e = JSDate.UTC h
                 (JSDate.LocalTime h (clock (S n)) + days * JSDate.msPerDay)%Z
        /\ (clock (S n) < e)%Z
        /\ fst run = Ok item /\ kept item
        /\ StoredItem.computedExpirationDate item = JSDate.formatTime e).
Proof.
  intros TZ C run kept.
  pose proof (returned_name_not_member (LegacyIngredient.name legacy)) as NM.
  assert (TC : JSDate.TimeClip (clock n) = Some (clock n)).
  { unfold JSDate.TimeClip.
    destruct (Z.ltb_spec 8640000000000000 (Z.abs (clock n))); [lia|].
    reflexivity. }
  assert (P : forall given,
              Pantry.orElse given (JSDate.formatTime (clock n))
              = (if String.eqb given "" then JSDate.formatTime (clock n)
                 else given)).
  { intros given. unfold Pantry.orElse. cbn [truthyString].
    destruct (String.eqb given ""); reflexivity. }
  assert (E : forall given,
              ShelfLife.estimateExpirationDate h clock
                (LegacyIngredient.name legacy) (Some given) (S n)
              = (ShelfLife.expirationDateForItem h
                   (toString
                      (ShelfLife.canonicalName
                         (ShelfLife.canonicalizeIngredient
                            (LegacyIngredient.name legacy))))
                   given None, S n))
    by reflexivity.
  assert (D : ShelfLife.estimateExpirationDate h clock
                (LegacyIngredient.name legacy) None (S n)
              = (match JSDate.toISOString (JSDate.TimeClip (clock (S n))) with
                 | Throw e => Throw e
                 | Ok iso =>
                     ShelfLife.expirationDateForItem h
                       (toString
                          (ShelfLife.canonicalName
                             (ShelfLife.canonicalizeIngredient
                                (LegacyIngredient.name legacy))))
                       iso None
                 end, S (S n)))
    by reflexivity.
  assert (RE : forall purchase e,
             ShelfLife.expirationDateForItem h
               (toString
                  (ShelfLife.canonicalName
                     (ShelfLife.canonicalizeIngredient
                        (LegacyIngredient.name legacy))))
               purchase None = Throw e -> e = RangeError).
  { intros purchase e.
    destruct (expiration_outcome h _ purchase TZ NM) as [days [G [R X]]].
    destruct (JSDate.newDate h purchase) as [p|].
    - cbv zeta in X. destruct X as [_ X]. rewrite X.
      destruct (_ <=? _)%Z; [discriminate | intros [= <-]; reflexivity].
    - rewrite X. intros [= <-]. reflexivity. }
  subst run.
  unfold Pantry.migrateLegacy, JSDate.bind, JSDate.now.
  rewrite TC. cbn [JSDate.toISOString truthyString].
  destruct (String.eqb (LegacyIngredient.expirationDate legacy) "") eqn:B;
    cbn [negb].
  - apply String.eqb_eq in B.
    destruct (LegacyIngredient.purchaseDate legacy) as [given|] eqn:PD.
    + rewrite E. clear E D.
      destruct (expiration_outcome h _ given TZ NM) as [days [G [R X]]].
      unfold JSDate.ret. cbv beta iota. cbn [fst snd].
      split; [reflexivity|]. split.
      { intros e. specialize (RE given e).
        destruct (ShelfLife.expirationDateForItem h _ given None);
          [discriminate|]. intros [= <-]. apply RE. reflexivity. }
      split; [intros H; contradiction|].
      split; [|split].
      * intros given' _ [= <-].
        destruct (JSDate.newDate h given) as [p|] eqn:N; [|rewrite X; reflexivity].
        cbv zeta in X. destruct X as [[Lt _] X]. rewrite X.
        exists days, (JSDate.UTC h
                        (JSDate.LocalTime h p + days * JSDate.msPerDay)%Z).
        split; [exact R|]. split; [reflexivity|]. split; [exact Lt|].
        destruct (_ <=? 8640000000000000)%Z; [|reflexivity].
        eexists. split; [reflexivity|]. unfold kept. cbn.
        rewrite P. repeat split; reflexivity.
      * intros _ [= Q] F. subst given.
        assert (N : JSDate.newDate h "" = None).
        { unfold JSDate.newDate. cbn. rewrite F. reflexivity. }
        rewrite N in X. rewrite X. reflexivity.
      * intros _ H. discriminate H.
    + rewrite D. clear E D.
      unfold JSDate.ret. cbv beta iota. cbn [fst snd].
      split; [reflexivity|]. split.
      { intros e.
        destruct (JSDate.toISOString (JSDate.TimeClip (clock (S n))))
          as [iso|x] eqn:T.
        - specialize (RE iso e).
          destruct (ShelfLife.expirationDateForItem h _ iso None);
            [discriminate|]. intros [= <-]. apply RE. reflexivity.
        - destruct (JSDate.TimeClip (clock (S n))); cbn in T;
            [discriminate|]. injection T as <-. intros [= <-]. reflexivity. }
      split; [intros H; contradiction|].
      split; [intros given _ H; discriminate H|].
      split; [intros _ H; discriminate H|].
      intros _ _ Y.
      pose proof (year_range_time _ Y) as YR.
      assert (TC' : JSDate.TimeClip (clock (S n)) = Some (clock (S n))).
      { unfold JSDate.TimeClip.
        destruct (Z.ltb_spec 8640000000000000 (Z.abs (clock (S n)))); [lia|].
        reflexivity. }
      rewrite TC'. cbn [JSDate.toISOString].
      destruct (expiration_outcome h _ (JSDate.formatTime (clock (S n))) TZ NM)
        as [days [G [R X]]].
      rewrite (formatTime_newDate h _ Y) in X.
      cbv zeta in X. destruct X as [[Lt Ub] X]. rewrite X.
      set (e := JSDate.UTC h
                  (JSDate.LocalTime h (clock (S n)) + days * JSDate.msPerDay)%Z)
        in *.
      assert (U : (e <=? 8640000000000000)%Z = true).
      { apply Z.leb_le. unfold JSDate.msPerDay in Ub. lia. }
      rewrite U. exists days, e. eexists.
      split; [exact R|]. split; [reflexivity|]. split; [exact Lt|].
      split; [reflexivity|]. split; [|reflexivity].
      unfold kept. cbn. repeat split; reflexivity.
  - apply String.eqb_neq in B.
    split; [reflexivity|]. split; [intros e H; discriminate H|]. split.
    + intros _. eexists. split; [reflexivity|]. unfold kept. cbn.
      destruct (LegacyIngredient.purchaseDate legacy) as [given|];
        [rewrite P|]; repeat split; reflexivity.
    + split; [intros given H; contradiction|].
      split; intros H; contradiction.
Qed.

Lemma utcHost_offset :
  forall t b, (Z.abs (JSDate.LocalTZA JSDate.utcHost t b) < JSDate.msPerDay)%Z.
Proof. intros t b. reflexivity. Qed.

Lemma created_item_witness :
  let input :=
    {| NewItem.name := "  Bnna ";
       NewItem.quantity := 2%Z;
       NewItem.unit := "";
       NewItem.purchaseDate := None;
       NewItem.expirationDateOverride := Some "2024-02-01";
       NewItem.source := receipt |} in
  let item :=
    {| StoredItem.id := "7f1c";
       StoredItem.canonicalName := Just "banana";
       StoredItem.displayName := Just "Bnna";
       StoredItem.quantity := 2%Z;
       StoredItem.unit := "item";
       StoredItem.purchaseDate := "2024-01-01T00:00:00.000Z";
       StoredItem.computedExpirationDate := "2024-01-06T00:00:00.000Z";
       StoredItem.overrideExpirationDate := Some "2024-02-01T00:00:00.000Z";
       StoredItem.source := receipt;
       StoredItem.createdAt := "2024-01-01T00:00:00.000Z";
       StoredItem.updatedAt := "2024-01-01T00:00:00.000Z" |} in
  Pantry.createInventoryItem JSDate.utcHost (fun _ => Props.midnight)
    "7f1c" input 0%nat = (Ok item, 1%nat)
  /\ StoredItem.unit item <> ""
  /\ exists inv e,
       Pantry.asInventoryItem item = Some inv
       /\ Props.effectiveExpiration inv = JSDate.formatTime e.
Proof.
  intros input item.
  assert (RUN : Pantry.createInventoryItem JSDate.utcHost
                  (fun _ => Props.midnight) "7f1c" input 0%nat
                = (Ok item, 1%nat)) by (vm_compute; reflexivity).
  split; [exact RUN|].
  destruct (created_item_is_well_formed JSDate.utcHost
              (fun _ => Props.midnight) "7f1c" input 0%nat 1%nat item
              utcHost_offset RUN)
    as [(_ & _ & _ & _ & _ & _ & U & _) V].
  split; [exact U|].
  destruct (V _ eq_refl) as [e [E _]].
  eexists. exists e. split; [reflexivity | exact E].
Defined.

Lemma createInventoryItem_witness :
  let input :=
    {| NewItem.name := "constructor";
       NewItem.quantity := 1%Z;
       NewItem.unit := "item";
       NewItem.purchaseDate := None;
       NewItem.expirationDateOverride := None;
       NewItem.source := manual |} in
  exists item,
    fst (Pantry.createInventoryItem JSDate.utcHost (fun _ => Props.midnight)
           "7f1c" input 0%nat) = Ok item
    /\ JSDate.newDate JSDate.utcHost (StoredItem.purchaseDate item)
       = Some Props.midnight.
Proof.
  intros input.
  destruct (createInventoryItem_fails_only_on_dates JSDate.utcHost
              (fun _ => Props.midnight) "7f1c" input 0%nat utcHost_offset)
    as (_ & _ & _ & N).
  apply N; [reflexivity | reflexivity |].
  assert (Y : JSDate.YearFromTime Props.midnight = 2024%Z)
    by (vm_compute; reflexivity).
  rewrite Y. lia.
Defined.

Lemma migrateLegacy_witness :
  let legacy :=
    {| LegacyIngredient.id := "1";
       LegacyIngredient.name := "milk";
       LegacyIngredient.quantity := 1%Z;
       LegacyIngredient.unit := "l";
       LegacyIngredient.purchaseDate := None;
       LegacyIngredient.expirationDate := "" |} in
  exists item,
    Pantry.migrateLegacy JSDate.utcHost Props.tickingClock legacy 0%nat
    = (Ok item, 2%nat)
    /\ StoredItem.purchaseDate item = "1970-01-01T00:00:00.000Z"
    /\ exists e, StoredItem.computedExpirationDate item = JSDate.formatTime e
                 /\ (Props.tickingClock 1%nat < e)%Z.
Proof.
  intros legacy.
  assert (C : (Z.abs (Props.tickingClock 0%nat) <= 8640000000000000)%Z)
    by (vm_compute; discriminate).
  assert (Y : (0 <= JSDate.YearFromTime (Props.tickingClock 1%nat) <= 9999)%Z)
    by (vm_compute; split; discriminate).
  destruct (migrateLegacy_outcome JSDate.utcHost Props.tickingClock
              legacy 0%nat utcHost_offset C)
    as (_ & _ & _ & _ & _ & A).
  destruct (A eq_refl eq_refl Y)
    as (days & e & item & _ & _ & Lt & R & K & X).
  exists item. split; [|split].
  - rewrite (surjective_pairing
               (Pantry.migrateLegacy JSDate.utcHost Props.tickingClock
                  legacy 0%nat)).
    rewrite R. f_equal.
  - destruct K as (_ & _ & _ & _ & _ & PD & _). exact PD.
  - exists e. split; [exact X | exact Lt].
Defined.


(** ** Lines of a receipt text *)

Lemma matchAt_newline (prev : option ascii) (s : list ascii) :
  Regex.matchAt
    (Regex.Cat (Regex.Opt (Regex.chr "013")) (Regex.chr "010")) prev s
  = match s with
    | c :: s' =>
        if Ascii.eqb "010" c then Some (s', None)
        else if Ascii.eqb "013" c then
          match s' with
          | d :: s'' => if Ascii.eqb "010" d then Some (s'', None) else None
          | [] => None
          end
        else None
    | [] => None
    end.
Proof.
  unfold Regex.matchAt, Regex.Opt, Regex.chr. cbn [Regex.rmatch].
  destruct s as [|c s']; [reflexivity|].
  destruct (Ascii.eqb "013" c) eqn:R; destruct (Ascii.eqb "010" c) eqn:N;
    try reflexivity.
  - apply Ascii.eqb_eq in R. apply Ascii.eqb_eq in N. congruence.
  - destruct s' as [|d s'']; [reflexivity|].
    destruct (Ascii.eqb "010" d); reflexivity.
Qed.

Lemma splitGo_prev (p p' : option ascii) (s : list ascii) (skip : nat)
      (piece : list ascii) :
  Regex.splitGo (Regex.Cat (Regex.Opt (Regex.chr "013")) (Regex.chr "010"))
                p s skip piece
  = Regex.splitGo (Regex.Cat (Regex.Opt (Regex.chr "013")) (Regex.chr "010"))
                  p' s skip piece.
Proof.
  destruct s as [|c s]; [reflexivity|].
  cbn [Regex.splitGo]. rewrite !matchAt_newline. reflexivity.
Qed.

Lemma splitGo_newline (piece : list ascii) (s : list ascii) :
  Regex.splitGo (Regex.Cat (Regex.Opt (Regex.chr "013")) (Regex.chr "010"))
                None s 0 piece
  = match s with
    | [] => [rev piece]
    | c :: s' =>
        let go := Regex.splitGo
                    (Regex.Cat (Regex.Opt (Regex.chr "013"))
                               (Regex.chr "010")) None in
        if Ascii.eqb "010" c then rev piece :: go s' 0%nat []
        else if Ascii.eqb "013" c then
          match s' with
          | d :: s'' =>
              if Ascii.eqb "010" d then rev piece :: go s'' 0%nat []
              else go s' 0%nat (c :: piece)
          | [] => go s' 0%nat (c :: piece)
          end
        else go s' 0%nat (c :: piece)
    end.
Proof.
  destruct s as [|c s']; [reflexivity|].
  cbn [Regex.splitGo]. rewrite matchAt_newline. cbv zeta.
  destruct (Ascii.eqb "010" c).
  - replace (List.length (c :: s') - List.length s')%nat with 1%nat
      by (cbn [List.length]; lia).
    f_equal. apply splitGo_prev.
  - destruct (Ascii.eqb "013" c); [|apply splitGo_prev].
    destruct s' as [|d s'']; [apply splitGo_prev|].
    destruct (Ascii.eqb "010" d); [|apply splitGo_prev].
    replace (List.length (c :: d :: s'') - List.length s'')%nat with 2%nat
      by (cbn [List.length]; lia).
    f_equal. cbn [Regex.splitGo]. apply splitGo_prev.
Qed.

(** Whether a separator starts at the head of [c :: s]. *)
Lemma pieces_piece (s piece : list ascii) :
  Regex.splitGo (Regex.Cat (Regex.Opt (Regex.chr "013")) (Regex.chr "010"))
                None s 0 piece
  = (rev piece ++ hd [] (Props.pieces s)) :: tl (Props.pieces s).
Proof.
  unfold Props.pieces. revert piece.
  induction s as [|c s IH]; intros piece.
  - cbn. rewrite app_nil_r. reflexivity.
  - rewrite (splitGo_newline piece), (splitGo_newline []). cbv zeta.
    assert (K : Regex.splitGo
                  (Regex.Cat (Regex.Opt (Regex.chr "013")) (Regex.chr "010"))
                  None s 0 (c :: piece)
                = (rev piece
                   ++ hd [] (Regex.splitGo
                               (Regex.Cat (Regex.Opt (Regex.chr "013"))
                                          (Regex.chr "010")) None s 0 [c]))
                  :: tl (Regex.splitGo
                           (Regex.Cat (Regex.Opt (Regex.chr "013"))
                                      (Regex.chr "010")) None s 0 [c])).
    { rewrite (IH (c :: piece)), (IH [c]). cbn [rev hd tl app].
      rewrite <- app_assoc. reflexivity. }
    destruct (Ascii.eqb "010" c).
    + cbn. rewrite app_nil_r. reflexivity.
    + destruct (Ascii.eqb "013" c); [|exact K].
      destruct s as [|d s'']; [exact K|].
      destruct (Ascii.eqb "010" d); [|exact K].
      cbn. rewrite app_nil_r. reflexivity.
Qed.

Lemma pieces_nil : Props.pieces [] = [[]].
Proof. reflexivity. Qed.

Lemma pieces_cons (c : ascii) (s : list ascii) :
  Props.pieces (c :: s)
  = if Ascii.eqb "010" c then [] :: Props.pieces s
    else if Ascii.eqb "013" c then
      match s with
      | d :: s'' =>
          if Ascii.eqb "010" d then [] :: Props.pieces s''
          else (c :: hd [] (Props.pieces s)) :: tl (Props.pieces s)
      | [] => [[c]]
      end
    else (c :: hd [] (Props.pieces s)) :: tl (Props.pieces s).
Proof.
  unfold Props.pieces at 1. rewrite splitGo_newline. cbv zeta.
  fold (Props.pieces s).
  destruct (Ascii.eqb "010" c); [reflexivity|].
  destruct (Ascii.eqb "013" c); [|apply (pieces_piece s [c])].
  destruct s as [|d s'']; [reflexivity|].
  destruct (Ascii.eqb "010" d); [reflexivity|].
  apply (pieces_piece (d :: s'') [c]).
Qed.

Lemma pieces_nonempty (s : list ascii) : Props.pieces s <> [].
Proof.
  destruct s as [|c s]; [discriminate|].
  rewrite pieces_cons.
  repeat match goal with
         | |- context [if ?b then _ else _] => destruct b
         | |- context [match ?x with [] => _ | _ :: _ => _ end] => destruct x
         end; discriminate.
Qed.

Lemma list_pair_ind {A : Type} (P : list A -> Prop) :
  P [] -> (forall x, P [x]) ->
  (forall x y l, P l -> P (y :: l) -> P (x :: y :: l)) ->
  forall l, P l.
Proof.
  intros H0 H1 H2 l.
  assert (B : P l /\ forall x, P (x :: l)).
  { induction l as [|y l [IH1 IH2]]; [split; [exact H0 | exact H1]|].
    split; [apply IH2|]. intros x. apply H2; [exact IH1 | apply IH2]. }
  exact (proj1 B).
Qed.

Lemma onLast_cons {A : Type} (f : A -> A) (x : A) (l : list A) :
  l <> [] -> Props.onLast f (x :: l) = x :: Props.onLast f l.
Proof. destruct l; [intros H; contradiction H; reflexivity | reflexivity]. Qed.

Lemma onLast_nonempty {A : Type} (f : A -> A) (l : list A) :
  l <> [] -> Props.onLast f l <> [].
Proof.
  destruct l as [|x [|y l]]; [intros H; contradiction H; reflexivity | |];
    discriminate.
Qed.

Lemma map_onLast {A B : Type} (g : A -> B) (f : A -> A) (l : list A) :
  (forall x, g (f x) = g x) -> map g (Props.onLast f l) = map g l.
Proof.
  intros H. induction l as [|x [|y l] IH]; [reflexivity | |].
  - cbn. rewrite H. reflexivity.
  - change (Props.onLast f (x :: y :: l)) with (x :: Props.onLast f (y :: l)).
    cbn [map]. cbn [map] in IH. rewrite IH. reflexivity.
Qed.

(** A character put before the first piece stays there when [f] acts on the
    last piece, if [f] commutes with putting it there. *)
Lemma onLast_head (f : list ascii -> list ascii) (c : ascii)
      (l : list (list ascii)) :
  l <> [] ->
  (tl l = [] -> f (c :: hd [] l) = c :: f (hd [] l)) ->
  Props.onLast f ((c :: hd [] l) :: tl l)
  = (c :: hd [] (Props.onLast f l)) :: tl (Props.onLast f l).
Proof.
  destruct l as [|h [|y t]]; [intros H; contradiction H; reflexivity | |].
  - intros _ F. specialize (F eq_refl). cbn in *. rewrite F. reflexivity.
  - intros _ _. reflexivity.
Qed.

Lemma hd_app_nonempty {A : Type} (d : A) (l m : list A) :
  l <> [] -> hd d (l ++ m) = hd d l /\ tl (l ++ m) = tl l ++ m.
Proof. destruct l; [intros H; contradiction H; reflexivity | split; reflexivity]. Qed.

Lemma chomp_cons (c : ascii) (p : list ascii) :
  p <> [] \/ Ascii.eqb c "013" = false ->
  Props.chomp (c :: p) = c :: Props.chomp p.
Proof.
  destruct p as [|d p]; [|reflexivity].
  intros [H | H]; [contradiction H; reflexivity|].
  cbn. rewrite H. reflexivity.
Qed.

(** The first piece of a text that does not start with a separator is not
    empty when it is the only piece. *)
Lemma pieces_single (c : ascii) (s : list ascii) :
  Ascii.eqb "010" c = false ->
  tl (Props.pieces (c :: s)) = [] -> hd [] (Props.pieces (c :: s)) <> [].
Proof.
  intros N. rewrite pieces_cons, N.
  destruct (Ascii.eqb "013" c); [|discriminate].
  destruct s as [|d s'']; [discriminate|].
  destruct (Ascii.eqb "010" d); [|discriminate].
  cbn [tl]. intros H. contradiction (pieces_nonempty s'' H).
Qed.

Lemma eqb_sym_false (a b : ascii) :
  Ascii.eqb a b = false -> Ascii.eqb b a = false.
Proof. rewrite Ascii.eqb_sym. auto. Qed.

(** The pieces of two texts joined by a line feed *)
Lemma pieces_app_LF (a b : list ascii) :
  Props.pieces (a ++ "010"%char :: b)
  = Props.onLast Props.chomp (Props.pieces a) ++ Props.pieces b.
Proof.
  induction a as [|x|x y a IH1 IH2] using list_pair_ind.
  - cbn [app]. rewrite pieces_cons. reflexivity.
  - cbn [app]. rewrite (pieces_cons x ("010"%char :: b)), (pieces_cons x []).
    destruct (Ascii.eqb "010" x) eqn:N;
      [rewrite (pieces_cons "010" b); reflexivity|].
    destruct (Ascii.eqb "013" x) eqn:R.
    + cbn [Ascii.eqb Bool.eqb andb]. cbn [Props.onLast Props.chomp].
      rewrite Ascii.eqb_sym, R. reflexivity.
    + rewrite (pieces_cons "010" b). cbn [Ascii.eqb Bool.eqb andb hd tl].
      cbn [Props.pieces Regex.splitGo rev hd tl Props.onLast Props.chomp].
      rewrite Ascii.eqb_sym, R. reflexivity.
  - change ((x :: y :: a) ++ "010"%char :: b)
      with (x :: (y :: a) ++ "010"%char :: b).
    rewrite (pieces_cons x ((y :: a) ++ "010"%char :: b)),
      (pieces_cons x (y :: a)).
    assert (K : (Ascii.eqb "013" x = false \/ Ascii.eqb "010" y = false) ->
                (x :: hd [] (Props.pieces ((y :: a) ++ "010"%char :: b)))
                :: tl (Props.pieces ((y :: a) ++ "010"%char :: b))
                = Props.onLast Props.chomp
                    ((x :: hd [] (Props.pieces (y :: a)))
                     :: tl (Props.pieces (y :: a)))
                  ++ Props.pieces b).
    { intros C. rewrite IH2.
      pose proof (pieces_nonempty (y :: a)) as NE.
      destruct (hd_app_nonempty [] (Props.onLast Props.chomp
                                      (Props.pieces (y :: a)))
                  (Props.pieces b) (onLast_nonempty _ _ NE)) as [-> ->].
      rewrite onLast_head; [reflexivity | exact NE |].
      intros T. apply chomp_cons.
      destruct C as [C | C].
      - right. rewrite Ascii.eqb_sym. exact C.
      - left. apply pieces_single; assumption. }
    destruct (Ascii.eqb "010" x) eqn:N.
    + rewrite IH2.
      rewrite onLast_cons by apply pieces_nonempty. reflexivity.
    + destruct (Ascii.eqb "013" x) eqn:R; [|apply K; left; reflexivity].
      cbn [app]. destruct (Ascii.eqb "010" y) eqn:N'.
      * rewrite IH1.
        rewrite onLast_cons by apply pieces_nonempty. reflexivity.
      * apply K. right. reflexivity.
Qed.

(** The pieces of a text followed by a character that is no line feed *)
Lemma pieces_snoc (a : list ascii) (c : ascii) :
  Ascii.eqb "010" c = false ->
  Props.pieces (a ++ [c])
  = Props.onLast (fun p => p ++ [c]) (Props.pieces a).
Proof.
  intros C.
  assert (One : Props.pieces [c] = [[c]]).
  { rewrite pieces_cons, C. destruct (Ascii.eqb "013" c); reflexivity. }
  induction a as [|x|x y a IH1 IH2] using list_pair_ind.
  - exact One.
  - cbn [app]. rewrite (pieces_cons x [c]), (pieces_cons x []).
    destruct (Ascii.eqb "010" x) eqn:N; [rewrite One; reflexivity|].
    rewrite C, One. destruct (Ascii.eqb "013" x); reflexivity.
  - change ((x :: y :: a) ++ [c]) with (x :: (y :: a) ++ [c]).
    rewrite (pieces_cons x ((y :: a) ++ [c])), (pieces_cons x (y :: a)).
    assert (K : (x :: hd [] (Props.pieces ((y :: a) ++ [c])))
                :: tl (Props.pieces ((y :: a) ++ [c]))
                = Props.onLast (fun p => p ++ [c])
                    ((x :: hd [] (Props.pieces (y :: a)))
                     :: tl (Props.pieces (y :: a)))).
    { rewrite IH2. symmetry.
      apply onLast_head; [apply pieces_nonempty | reflexivity]. }
    destruct (Ascii.eqb "010" x) eqn:N.
    + rewrite IH2.
      rewrite onLast_cons by apply pieces_nonempty. reflexivity.
    + destruct (Ascii.eqb "013" x) eqn:R; [|exact K].
      cbn [app]. destruct (Ascii.eqb "010" y) eqn:N'; [|exact K].
      rewrite IH1.
      rewrite onLast_cons by apply pieces_nonempty. reflexivity.
Qed.

Lemma trim_str (l : list ascii) :
  trim (str l) = str (rev (dropSpaces (rev (dropSpaces l)))).
Proof. unfold trim. rewrite chars_str. reflexivity. Qed.

Lemma dropSpaces_snoc (p : list ascii) (c : ascii) :
  isSpace c = true ->
  dropSpaces (p ++ [c])
  = match dropSpaces p with [] => [] | _ :: _ => dropSpaces p ++ [c] end.
Proof.
  intros C. induction p as [|x p IH]; cbn; [rewrite C; reflexivity|].
  destruct (isSpace x); [exact IH | reflexivity].
Qed.

Lemma trim_cons (p : list ascii) (c : ascii) :
  isSpace c = true -> trim (str (c :: p)) = trim (str p).
Proof. intros C. rewrite !trim_str. cbn [dropSpaces]. rewrite C. reflexivity. Qed.

Lemma trim_snoc (p : list ascii) (c : ascii) :
  isSpace c = true -> trim (str (p ++ [c])) = trim (str p).
Proof.
  intros C. rewrite !trim_str, (dropSpaces_snoc p c C).
  destruct (dropSpaces p) as [|x l]; [reflexivity|].
  rewrite rev_app_distr. cbn [rev app dropSpaces]. rewrite C. reflexivity.
Qed.

Lemma chomp_spec (p : list ascii) :
  Props.chomp p = p \/ p = Props.chomp p ++ ["013"%char].
Proof.
  induction p as [|c [|d p] IH]; [left; reflexivity | |].
  - cbn. destruct (Ascii.eqb c "013") eqn:E; [|left; reflexivity].
    apply Ascii.eqb_eq in E. subst c. right. reflexivity.
  - change (Props.chomp (c :: d :: p)) with (c :: Props.chomp (d :: p)).
    destruct IH as [-> | IH]; [left; reflexivity|].
    right. cbn [app]. f_equal. exact IH.
Qed.

Lemma trim_chomp (p : list ascii) :
  trim (str (Props.chomp p)) = trim (str p).
Proof.
  destruct (chomp_spec p) as [-> | E]; [reflexivity|].
  rewrite E at 2. symmetry. apply trim_snoc. reflexivity.
Qed.

(** The lines that [parseReceiptText] reads are the pieces, trimmed, that
    are not empty. *)
Lemma splitLines_pieces (rawText : string) :
  ReceiptParser.splitLines rawText
  = filter (fun line => negb (String.eqb line ""))
      (map (fun p => trim (str p)) (Props.pieces (chars rawText))).
Proof.
  unfold ReceiptParser.splitLines, Regex.split.
  destruct rawText as [|c s]; [reflexivity|].
  rewrite map_map. reflexivity.
Qed.

Lemma chars_app (a b : string) : chars (a ++ b) = chars a ++ chars b.
Proof.
  unfold chars. induction a as [|c a IH]; cbn; [reflexivity|].
  rewrite IH. reflexivity.
Qed.

(** Two texts joined by a line feed have the lines of the first followed by
    the lines of the second. *)
Lemma splitLines_app (a b : string) :
  ReceiptParser.splitLines (a ++ Props.LF ++ b)
  = ReceiptParser.splitLines a ++ ReceiptParser.splitLines b.
Proof.
  rewrite !splitLines_pieces, !chars_app.
  change (chars Props.LF) with ["010"%char]. cbn [app].
  rewrite pieces_app_LF, map_app, filter_app.
  rewrite (map_onLast (fun p => trim (str p)) Props.chomp _ trim_chomp).
  reflexivity.
Qed.

Lemma splitLines_space_first (c : ascii) (s : string) :
  isSpace c = true ->
  ReceiptParser.splitLines (String c s) = ReceiptParser.splitLines s.
Proof.
  intros C. rewrite !splitLines_pieces.
  change (chars (String c s)) with (c :: chars s).
  assert (E : trim (str []) = "") by reflexivity.
  rewrite pieces_cons.
  assert (K : filter (fun line => negb (String.eqb line ""))
                (map (fun p => trim (str p))
                   ((c :: hd [] (Props.pieces (chars s)))
                    :: tl (Props.pieces (chars s))))
              = filter (fun line => negb (String.eqb line ""))
                  (map (fun p => trim (str p)) (Props.pieces (chars s)))).
  { pose proof (pieces_nonempty (chars s)) as NE.
    destruct (Props.pieces (chars s)) as [|h t];
      [contradiction NE; reflexivity|].
    cbn [hd tl map]. rewrite (trim_cons h c C). reflexivity. }
  destruct (Ascii.eqb "010" c) eqn:N.
  - cbn [map filter]. rewrite E. reflexivity.
  - destruct (Ascii.eqb "013" c) eqn:R; [|exact K].
    destruct (chars s) as [|d s''] eqn:S; [exact K|].
    destruct (Ascii.eqb "010" d) eqn:N'; [|exact K].
    rewrite (pieces_cons d s''), N'. reflexivity.
Qed.

Lemma splitLines_space_last (c : ascii) (s : string) :
  isSpace c = true ->
  ReceiptParser.splitLines (s ++ String c "") = ReceiptParser.splitLines s.
Proof.
  intros C. destruct (Ascii.eqb "010" c) eqn:N.
  - apply Ascii.eqb_eq in N. subst c.
    change (String "010" "") with (Props.LF ++ "")%string.
    rewrite splitLines_app. apply app_nil_r.
  - rewrite !splitLines_pieces, chars_app.
    change (chars (String c "")) with [c].
    rewrite (pieces_snoc _ c N).
    rewrite (map_onLast (fun p => trim (str p)) (fun p => p ++ [c]));
      [reflexivity|].
    intros p. apply trim_snoc. exact C.
Qed.

Lemma splitLines_dropSpaces (l : list ascii) :
  ReceiptParser.splitLines (str (dropSpaces l))
  = ReceiptParser.splitLines (str l).
Proof.
  induction l as [|c l IH]; [reflexivity|].
  cbn [dropSpaces]. destruct (isSpace c) eqn:C; [|reflexivity].
  rewrite IH. symmetry. apply (splitLines_space_first c (str l) C).
Qed.

Lemma str_app (a b : list ascii) : str (a ++ b) = (str a ++ str b)%string.
Proof.
  unfold str. induction a as [|c a IH]; cbn; [reflexivity|].
  rewrite IH. reflexivity.
Qed.

(** The lines of a text and of the text trimmed are the same. *)
Lemma splitLines_trim (rawText : string) :
  ReceiptParser.splitLines (trim rawText) = ReceiptParser.splitLines rawText.
Proof.
  unfold trim.
  rewrite <- (str_chars rawText) at 2.
  rewrite <- (splitLines_dropSpaces (chars rawText)).
  set (l := dropSpaces (chars rawText)). clearbody l.
  rewrite <- (rev_involutive l) at 2.
  induction (rev l) as [|c r IH]; [reflexivity|].
  cbn [dropSpaces]. destruct (isSpace c) eqn:C; [|reflexivity].
  rewrite IH. cbn [rev]. rewrite str_app. symmetry.
  apply (splitLines_space_last c (str (rev r)) C).
Qed.

Lemma pieces_one (l : list ascii) :
  forallb (fun c => negb (Ascii.eqb "010" c)) l = true ->
  Props.pieces l = [l].
Proof.
  induction l as [|c l IH]; [reflexivity|].
  cbn [forallb]. intros H. apply andb_true_iff in H. destruct H as [N H].
  apply negb_true_iff in N. specialize (IH H).
  rewrite pieces_cons, N, IH. cbn [hd tl].
  destruct (Ascii.eqb "013" c); [|reflexivity].
  destruct l as [|d l']; [reflexivity|].
  cbn [forallb] in H. apply andb_true_iff in H. destruct H as [N' _].
  apply negb_true_iff in N'. rewrite N'. reflexivity.
Qed.

Lemma text_cons (line : string) (lines : list string) :
  lines <> [] ->
  Props.text (line :: lines) = (line ++ Props.LF ++ Props.text lines)%string.
Proof.
  unfold Props.text. destruct lines; [intros H; contradiction H|]; reflexivity.
Qed.

Lemma splitLines_text (lines : list string) :
  ReceiptParser.splitLines (Props.text lines)
  = flat_map ReceiptParser.splitLines lines.
Proof.
  induction lines as [|line lines IH]; [reflexivity|].
  destruct lines as [|next lines].
  - cbn [flat_map]. rewrite app_nil_r. reflexivity.
  - rewrite text_cons by discriminate. rewrite splitLines_app, IH.
    reflexivity.
Qed.

Lemma parseLines_app (a b : list string) :
  ReceiptParser.parseLines (a ++ b)
  = ReceiptParser.parseLines a ++ ReceiptParser.parseLines b.
Proof. unfold ReceiptParser.parseLines. apply flat_map_app. Qed.

(** The lines of a receipt are parsed one by one.  For a text made of
    lines joined by line feeds, the lines read are those of each line in
    turn; a line without a line feed is read trimmed, or skipped when it is
    blank; so the result for two texts joined by a line feed is the merge
    of what is parsed from the first and from the second, in this order;
    and white space around the whole text changes nothing. *)
Theorem receipt_lines_are_parsed_one_by_one :
  (forall lines,
     ReceiptParser.parseReceiptText (Props.text lines)
     = ReceiptParser.dedupe
         (flat_map (fun line =>
                      ReceiptParser.parseLines (ReceiptParser.splitLines line))
                   lines))
  /\ (forall line,
        forallb (fun c => negb (Ascii.eqb "010" c)) (chars line) = true ->
        ReceiptParser.splitLines line
        = if String.eqb (trim line) "" then [] else [trim line])
  /\ (forall a b,
        ReceiptParser.parseReceiptText (a ++ Props.LF ++ b)
        = ReceiptParser.dedupe
            (ReceiptParser.parseLines (ReceiptParser.splitLines a)
             ++ ReceiptParser.parseLines (ReceiptParser.splitLines b)))
  /\ (forall rawText,
        ReceiptParser.parseReceiptText (trim rawText)
        = ReceiptParser.parseReceiptText rawText).
Proof.
  split; [|split; [|split]].
  - intros lines. unfold ReceiptParser.parseReceiptText.
    rewrite splitLines_text. f_equal.
    induction lines as [|line lines IH]; [reflexivity|].
    cbn [flat_map]. rewrite parseLines_app, IH. reflexivity.
  - intros line H. rewrite splitLines_pieces, (pieces_one _ H).
    cbn [map filter]. rewrite str_chars.
    destruct (String.eqb (trim line) ""); reflexivity.
  - intros a b. unfold ReceiptParser.parseReceiptText.
    rewrite splitLines_app, parseLines_app. reflexivity.
  - intros rawText. unfold ReceiptParser.parseReceiptText.
    rewrite splitLines_trim. reflexivity.
Qed.

Lemma firstOccurrences_length {A : Type} (eqb : A -> A -> bool)
      (seen l : list A) :
  (List.length (Props.firstOccurrences eqb seen l) <= List.length l)%nat.
Proof.
  revert seen. induction l as [|x l IH]; intros seen;
    cbn [Props.firstOccurrences List.length]; [lia|].
  destruct (existsb (eqb x) seen); cbn [List.length];
    [apply le_S, IH | apply le_n_S, IH].
Qed.

Lemma dedupe_length (parsed : list ParsedReceiptItem.t) :
  (forall p, In p parsed ->
             Props.returnedName (ParsedReceiptItem.canonicalName p)) ->
  List.length (ReceiptParser.dedupe parsed)
  = List.length (Props.firstOccurrences Props.pairEqb []
                   (map Props.pairOf parsed)).
Proof.
  intros W. unfold ReceiptParser.dedupe, ReceiptParser.mapValues.
  rewrite length_map.
  rewrite <- (length_map (fun x => Props.pairOf (snd x))).
  rewrite dedupLoop_order; [reflexivity | intros k v [] | exact W].
Qed.

Lemma parseLines_length (lines : list string) :
  (List.length (ReceiptParser.parseLines lines) <= List.length lines)%nat.
Proof.
  unfold ReceiptParser.parseLines.
  induction lines as [|line lines IH]; cbn [flat_map List.length];
    [apply le_n|].
  rewrite length_app.
  destruct (ReceiptParser.parseLine line); cbn [List.length]; lia.
Qed.

(** The answers of the route that parses a receipt.  A request whose
    [rawText] is a text with anything but white space is answered with the
    items of [parseReceiptText] for the text as it was sent, the trimming
    changing nothing, and with their number as [totalParsedLines]: the
    number of distinct pairs (canonicalName, unit) among the parsed lines,
    at most the number of lines read.  A missing or blank [rawText] is a
    bad request, and no item would be parsed from it; an error is answered
    only for a body that is no JSON, is [null] or whose [rawText] is no
    string. *)
Theorem parse_route_answers (request : ParseRoute.body) :
  match ParseRoute.POST request with
  | ParseRoute.Parsed items totalParsedLines =>
      exists rawText,
        request = ParseRoute.Value (ParseRoute.Text rawText)
        /\ trim rawText <> ""
        /\ items = ReceiptParser.parseReceiptText rawText
        /\ totalParsedLines = List.length items
        /\ totalParsedLines
           = List.length
               (Props.firstOccurrences Props.pairEqb []
                  (map Props.pairOf
                     (ReceiptParser.parseLines
                        (ReceiptParser.splitLines rawText))))
        /\ (totalParsedLines
            <= List.length (ReceiptParser.splitLines rawText))%nat
  | ParseRoute.BadRequest =>
      request = ParseRoute.Value ParseRoute.Missing
      \/ exists rawText,
           request = ParseRoute.Value (ParseRoute.Text rawText)
           /\ trim rawText = ""
           /\ ReceiptParser.parseReceiptText rawText = []
  | ParseRoute.ServerError =>
      request = ParseRoute.Rejected \/ request = ParseRoute.Null
      \/ request = ParseRoute.Value ParseRoute.NoString
  end.
Proof.
  destruct request as [| |[|rawText|]]; cbn [ParseRoute.POST];
    [left; reflexivity | right; left; reflexivity | left; reflexivity | |
     right; right; reflexivity].
  cbn [truthyString]. rewrite negb_involutive.
  destruct (String.eqb (trim rawText) "") eqn:B.
  - apply String.eqb_eq in B. right. exists rawText.
    split; [reflexivity|]. split; [exact B|].
    unfold ReceiptParser.parseReceiptText.
    rewrite <- splitLines_trim, B. reflexivity.
  - apply String.eqb_neq in B. exists rawText.
    assert (E : ReceiptParser.parseReceiptText (trim rawText)
                = ReceiptParser.parseReceiptText rawText).
    { unfold ReceiptParser.parseReceiptText. rewrite splitLines_trim.
      reflexivity. }
    rewrite E.
    assert (L : List.length (ReceiptParser.parseReceiptText rawText)
                = List.length
                    (Props.firstOccurrences Props.pairEqb []
                       (map Props.pairOf
                          (ReceiptParser.parseLines
                             (ReceiptParser.splitLines rawText))))).
    { apply dedupe_length. intros p. apply parseLines_returnedName. }
    repeat split; try assumption; try reflexivity.
    rewrite L.
    pose proof (firstOccurrences_length Props.pairEqb []
                  (map Props.pairOf
                     (ReceiptParser.parseLines
                        (ReceiptParser.splitLines rawText)))) as F.
    rewrite length_map in F.
    pose proof (parseLines_length (ReceiptParser.splitLines rawText)). lia.
Qed.


(** ** Names of a shelf-life request *)

Lemma lowerChar_idem (c : ascii) : lowerChar (lowerChar c) = lowerChar c.
Proof. destruct c as [[] [] [] [] [] [] [] []]; vm_compute; reflexivity. Qed.

Lemma isSpace_lowerChar (c : ascii) : isSpace (lowerChar c) = isSpace c.
Proof. destruct c as [[] [] [] [] [] [] [] []]; vm_compute; reflexivity. Qed.

Lemma isLower_no_space (c : ascii) : isLower c = true -> isSpace c = false.
Proof. destruct c as [[] [] [] [] [] [] [] []]; vm_compute; congruence. Qed.

Lemma toLowerCase_idem (s : string) :
  toLowerCase (toLowerCase s) = toLowerCase s.
Proof.
  unfold toLowerCase. rewrite chars_str, map_map. f_equal.
  apply map_ext. intros c. apply lowerChar_idem.
Qed.

Lemma dropSpaces_lower (l : list ascii) :
  dropSpaces (map lowerChar l) = map lowerChar (dropSpaces l).
Proof.
  induction l as [|c l IH]; [reflexivity|].
  cbn [map dropSpaces]. rewrite isSpace_lowerChar.
  destruct (isSpace c); [exact IH | reflexivity].
Qed.

Lemma trim_toLowerCase (s : string) :
  trim (toLowerCase s) = toLowerCase (trim s).
Proof.
  unfold trim, toLowerCase. rewrite !chars_str. f_equal.
  rewrite dropSpaces_lower, <- map_rev, dropSpaces_lower, map_rev.
  reflexivity.
Qed.

Lemma toLowerCase_nonempty (s : string) : s <> "" -> toLowerCase s <> "".
Proof.
  unfold toLowerCase. intros H E. apply str_nil in E.
  apply map_eq_nil in E. apply H. rewrite <- (str_chars s), E. reflexivity.
Qed.

Lemma toLowerCase_lowercase (s : string) :
  Props.lowercase s -> toLowerCase s = s.
Proof.
  unfold Props.lowercase, toLowerCase. intros H.
  rewrite <- (str_chars s) at 2. f_equal.
  induction H as [|c l Hc Hl IH]; [reflexivity|].
  cbn [map]. rewrite (lowerChar_lower _ Hc), IH. reflexivity.
Qed.

Lemma trim_lowercase (s : string) : Props.lowercase s -> trim s = s.
Proof.
  unfold Props.lowercase, trim. intros H.
  assert (F : forall l, Forall (fun c => isLower c = true) l ->
                        dropSpaces l = l).
  { intros l [|c l' Hc Hl]; [reflexivity|].
    cbn. rewrite (isLower_no_space c Hc). reflexivity. }
  rewrite (F _ H), (F (rev (chars s))), rev_involutive, str_chars;
    [reflexivity|].
  apply Forall_rev. exact H.
Qed.

(** [canonicalizeIngredient] returns a value that is no string exactly for
    the names that normalize to [constructor]; every string it returns is
    a non-empty word of the letters [a] to [z]. *)
Lemma canonical_name_cases (raw : string) :
  (ShelfLife.normalizeToken raw = "constructor"
   /\ ShelfLife.canonicalName (ShelfLife.canonicalizeIngredient raw)
      = Member "constructor")
  \/ (ShelfLife.normalizeToken raw <> "constructor"
      /\ exists s,
           ShelfLife.canonicalName (ShelfLife.canonicalizeIngredient raw)
           = Just s
           /\ s <> "" /\ Props.lowercase s).
Proof.
  destruct (String.eqb (ShelfLife.normalizeToken raw) "constructor") eqn:C.
  - apply String.eqb_eq in C. left. split; [exact C|].
    rewrite (canonicalize_normalized raw "constructor")
      by (rewrite C; vm_compute; reflexivity).
    vm_compute. reflexivity.
  - apply String.eqb_neq in C. right. split; [exact C|].
    pose proof (normalizeToken_lowercase raw) as L.
    pose proof (canonicalize_returnedName raw) as RN.
    assert (Done : forall s,
               ShelfLife.canonicalName (ShelfLife.canonicalizeIngredient raw)
               = Just s -> s <> "" ->
               exists s0,
                 ShelfLife.canonicalName
                   (ShelfLife.canonicalizeIngredient raw) = Just s0
                 /\ s0 <> "" /\ Props.lowercase s0).
    { intros s E N. exists s. split; [exact E|]. split; [exact N|].
      rewrite E in RN. exact RN. }
    pose proof (canonicalize_resolution raw) as R.
    remember (ShelfLife.normalizeToken raw) as n eqn:En.
    remember (ShelfLife.canonicalizeIngredient raw) as r eqn:Er.
    destruct R as [E | alias N A T | N A V | k d N A V B S | k d N A V B S];
      cbn [ShelfLife.canonicalName] in *.
    + apply (Done "unknown"); [reflexivity | discriminate].
    + rewrite (getProperty_own ShelfLife.INGREDIENT_ALIASES _ L C) in A.
      destruct (assoc n ShelfLife.INGREDIENT_ALIASES) as [v|] eqn:Av;
        [|discriminate].
      injection A as <-. apply assoc_In in Av.
      destruct (alias_resolves _ _ Av) as [_ [V1 _]].
      apply (Done v); [reflexivity | exact V1].
    + apply (Done n); [reflexivity | exact N].
    + destruct (bestMatchFor_firstMinimum n) as [k' [d' [B' M]]].
      rewrite B in B'. injection B' as <- <-.
      apply firstMinimum_In in M.
      destruct (vocabulary_resolves _ M) as [_ [K1 _]].
      apply (Done k); [reflexivity | exact K1].
    + apply (Done n); [reflexivity | exact N].
Qed.

(** What one turn of the loop of [normalizeItems] does. *)
Lemma normalizeStep_spec (unique : list (string * string))
      (item : ShelfLifeRequestItem.t) :
  if Props.namedConstructor item
  then ShelfLifeRoute.normalizeStep unique (ShelfLifeRoute.Item item)
       = Throw TypeError
  else
    let k := Props.requestedName item in
    exists d,
      k <> "" /\ trim k = k /\ toLowerCase k = k /\ d <> "" /\ trim d = d
      /\ ShelfLifeRoute.normalizeStep unique (ShelfLifeRoute.Item item)
         = Ok (match assoc k unique with
               | Some _ => unique
               | None => unique ++ [(k, d)]
               end).
Proof.
  unfold Props.namedConstructor, Props.requestedName,
    ShelfLifeRoute.normalizeStep, ReceiptParser.mapGet.
  set (itemName := match ShelfLifeRequestItem.name item with
                   | Some s => trim s
                   | None => ""
                   end).
  set (inputCanonical := match ShelfLifeRequestItem.canonicalName item with
                         | Some s => trim s
                         | None => ""
                         end).
  assert (TN : trim itemName = itemName).
  { unfold itemName. destruct (ShelfLifeRequestItem.name item);
      [apply trim_idempotent | reflexivity]. }
  assert (TC : trim inputCanonical = inputCanonical).
  { unfold inputCanonical.
    destruct (ShelfLifeRequestItem.canonicalName item);
      [apply trim_idempotent | reflexivity]. }
  assert (B : match ShelfLifeRequestItem.canonicalName item with
              | Some s => String.eqb (trim s) ""
              | None => true
              end = String.eqb inputCanonical "").
  { unfold inputCanonical.
    destruct (ShelfLifeRequestItem.canonicalName item); reflexivity. }
  rewrite B. clear B. cbv zeta. cbn [truthyString].
  assert (Step : forall c,
    c <> "" -> trim c = c ->
    let k := toLowerCase (trim c) in
    exists d,
      k <> "" /\ trim k = k /\ toLowerCase k = k /\ d <> "" /\ trim d = d
      /\ (if negb (negb (String.eqb k ""))
          then Ok unique
          else match assoc k unique with
               | Some _ => Ok unique
               | None =>
                   Ok (ReceiptParser.mapSet k
                         (if negb (String.eqb itemName "") then itemName
                          else k) unique)
               end)
         = Ok (match assoc k unique with
               | Some _ => unique
               | None => unique ++ [(k, d)]
               end)).
  { intros c N T k.
    assert (K1 : k <> "").
    { unfold k. rewrite T. apply toLowerCase_nonempty, N. }
    assert (K2 : trim k = k).
    { unfold k. rewrite trim_toLowerCase, trim_idempotent. reflexivity. }
    assert (K3 : toLowerCase k = k) by apply toLowerCase_idem.
    exists (if negb (String.eqb itemName "") then itemName else k).
    split; [exact K1|]. split; [exact K2|]. split; [exact K3|].
    split; [|split].
    - destruct (String.eqb itemName "") eqn:E; cbn [negb]; [exact K1|].
      apply String.eqb_neq. exact E.
    - destruct (String.eqb itemName ""); cbn [negb]; assumption.
    - apply String.eqb_neq in K1. rewrite K1. cbn [negb].
      destruct (assoc k unique) eqn:A; [reflexivity|].
      rewrite (mapSet_append _ _ _ A). reflexivity. }
  destruct (String.eqb inputCanonical "") eqn:E; cbn [negb andb].
  - destruct (canonical_name_cases itemName) as [[C M] | [C [s [J [N L]]]]].
    + rewrite C, M. reflexivity.
    + apply String.eqb_neq in C. rewrite C, J. cbn [toString].
      apply (Step s N (trim_lowercase s L)).
  - apply String.eqb_neq in E. apply (Step inputCanonical E TC).
Qed.

Lemma assoc_existsb {V : Type} (k : string) (m : list (string * V)) :
  existsb (String.eqb k) (map fst m)
  = match assoc k m with Some _ => true | None => false end.
Proof.
  induction m as [|[k' v] m IH]; [reflexivity|].
  cbn [map fst existsb assoc]. destruct (String.eqb k k'); [reflexivity|].
  exact IH.
Qed.

Lemma normalizeLoop_spec (rawItems : list ShelfLifeRoute.element) :
  forall unique,
    if existsb Props.throws rawItems
    then ShelfLifeRoute.normalizeLoop rawItems unique = Throw TypeError
    else
      exists unique',
        ShelfLifeRoute.normalizeLoop rawItems unique = Ok unique'
        /\ map fst unique'
           = map fst unique
             ++ Props.firstOccurrences String.eqb (map fst unique)
                  (map Props.requestedName (Props.itemsOf rawItems))
        /\ ((forall k d, In (k, d) unique -> Props.wellNamed k d) ->
            forall k d, In (k, d) unique' -> Props.wellNamed k d).
Proof.
  induction rawItems as [|[|item] rest IH]; intros unique.
  - cbn. exists unique. rewrite app_nil_r. auto.
  - reflexivity.
  - unfold Props.itemsOf.
    cbn [existsb ShelfLifeRoute.normalizeLoop flat_map app map
         Props.firstOccurrences Props.throws].
    fold (Props.itemsOf rest).
    pose proof (normalizeStep_spec unique item) as S.
    destruct (Props.namedConstructor item); cbn [orb].
    + rewrite S. reflexivity.
    + cbv zeta in S. destruct S as [d [K1 [K2 [K3 [D1 [D2 S]]]]]].
      rewrite S. rewrite assoc_existsb.
      destruct (assoc (Props.requestedName item) unique) as [v|] eqn:A.
      * exact (IH unique).
      * specialize (IH (unique ++ [(Props.requestedName item, d)])).
        destruct (existsb Props.throws rest); [exact IH|].
        destruct IH as [unique' [R [O W]]]. exists unique'.
        split; [exact R|]. split.
        -- rewrite O, map_app. cbn [map fst]. rewrite <- app_assoc.
           cbn [app]. do 2 f_equal. apply firstOccurrences_ext.
           intros x. rewrite existsb_app. cbn [existsb].
           rewrite orb_false_r, orb_comm. reflexivity.
        -- intros G. apply W. intros k0 d0 H. apply in_app_or in H.
           destruct H as [H | [[= <- <-] | []]]; [apply G; exact H|].
           repeat split; assumption.
Qed.

Lemma firstOccurrences_In (seen l : list string) (x : string) :
  In x l ->
  In x seen \/ In x (Props.firstOccurrences String.eqb seen l).
Proof.
  revert seen. induction l as [|y l IH]; intros seen; [intros []|].
  cbn [Props.firstOccurrences]. intros [<- | H].
  - destruct (existsb (String.eqb y) seen) eqn:E; [|right; left; reflexivity].
    left. apply existsb_exists in E. destruct E as [z [Hz E]].
    apply String.eqb_eq in E. subst z. exact Hz.
  - destruct (existsb (String.eqb y) seen).
    + apply IH. exact H.
    + destruct (IH (y :: seen) H) as [[<- | S] | F].
      * right. left. reflexivity.
      * left. exact S.
      * right. right. exact F.
Qed.

Lemma firstOccurrences_NoDup (seen l : list string) :
  NoDup (Props.firstOccurrences String.eqb seen l)
  /\ forall x, In x (Props.firstOccurrences String.eqb seen l) ->
               In x l /\ ~ In x seen.
Proof.
  revert seen. induction l as [|y l IH]; intros seen.
  - split; [constructor | intros x []].
  - cbn [Props.firstOccurrences].
    destruct (existsb (String.eqb y) seen) eqn:E.
    + destruct (IH seen) as [N D]. split; [exact N|].
      intros x H. destruct (D x H). split; [right|]; assumption.
    + destruct (IH (y :: seen)) as [N D]. split.
      * constructor; [|exact N]. intros H. destruct (D y H) as [_ F].
        apply F. left. reflexivity.
      * intros x [<- | H].
        -- split; [left; reflexivity|]. intros S.
           assert (T : existsb (String.eqb y) seen = true).
           { apply existsb_exists. exists y.
             split; [exact S | apply String.eqb_refl]. }
           congruence.
        -- destruct (D x H) as [I F]. split; [right; exact I|].
           intros S. apply F. right. exact S.
Qed.

Lemma normalizeItems_run (rawItems : list ShelfLifeRoute.element) :
  if existsb Props.throws rawItems
  then ShelfLifeRoute.normalizeItems rawItems = Throw TypeError
  else
    exists items,
      ShelfLifeRoute.normalizeItems rawItems = Ok items
      /\ map NormalizedItem.canonicalName items
         = Props.firstOccurrences String.eqb []
             (map Props.requestedName (Props.itemsOf rawItems))
      /\ forall item, In item items ->
           Props.wellNamed (NormalizedItem.canonicalName item)
                           (NormalizedItem.displayName item).
Proof.
  unfold ShelfLifeRoute.normalizeItems.
  pose proof (normalizeLoop_spec rawItems []) as S.
  destruct (existsb Props.throws rawItems).
  - rewrite S. reflexivity.
  - destruct S as [unique [R [O W]]]. rewrite R.
    eexists. split; [reflexivity|]. split.
    + rewrite map_map. cbn [NormalizedItem.canonicalName]. exact O.
    + intros item H. apply in_map_iff in H.
      destruct H as [[k d] [<- H]]. cbn. apply W; [intros ? ? []|exact H].
Qed.

Lemma itemsOf_In (rawItems : list ShelfLifeRoute.element)
      (raw : ShelfLifeRequestItem.t) :
  In raw (Props.itemsOf rawItems) <-> In (ShelfLifeRoute.Item raw) rawItems.
Proof.
  unfold Props.itemsOf. rewrite in_flat_map. split.
  - intros [[|item] [H I]]; [destruct I|].
    destruct I as [<- | []]. exact H.
  - intros H. eexists. split; [exact H|]. left. reflexivity.
Qed.

(** A request on which the loop does not throw has no element [null]. *)
Lemma itemsOf_all (rawItems : list ShelfLifeRoute.element) :
  existsb Props.throws rawItems = false ->
  rawItems = map ShelfLifeRoute.Item (Props.itemsOf rawItems).
Proof.
  unfold Props.itemsOf.
  induction rawItems as [|[|item] rest IH]; cbn [existsb Props.throws orb];
    [reflexivity | discriminate|].
  intros H. apply orb_false_iff in H. destruct H as [_ H].
  cbn [flat_map app map]. f_equal. apply IH, H.
Qed.

(** [normalizeItems] returns a list only for a request without an element
    [null], and lists every name of the request once, in the order of
    the first appearances: the canonical name given with the item or else
    the one resolved from its name, trimmed and in lower case.  No item is
    dropped: also an item without any name is listed, as [unknown].  The
    canonical names are not empty, trimmed and in lower case, and the
    display names are not empty. *)
Theorem normalizeItems_lists_each_name_once
        (rawItems : list ShelfLifeRoute.element)
        (items : list NormalizedItem.t) :
  ShelfLifeRoute.normalizeItems rawItems = Ok items ->
  rawItems = map ShelfLifeRoute.Item (Props.itemsOf rawItems)
  /\ map NormalizedItem.canonicalName items
     = Props.firstOccurrences String.eqb []
         (map Props.requestedName (Props.itemsOf rawItems))
  /\ NoDup (map NormalizedItem.canonicalName items)
  /\ (forall raw, In (ShelfLifeRoute.Item raw) rawItems ->
                  In (Props.requestedName raw)
                     (map NormalizedItem.canonicalName items))
  /\ (forall raw,
        In (ShelfLifeRoute.Item raw) rawItems ->
        ShelfLifeRequestItem.name raw = None ->
        ShelfLifeRequestItem.canonicalName raw = None ->
        In "unknown" (map NormalizedItem.canonicalName items))
  /\ (forall item, In item items ->
        Props.wellNamed (NormalizedItem.canonicalName item)
                        (NormalizedItem.displayName item))
  /\ (List.length items <= List.length rawItems)%nat.
Proof.
  intros RUN. pose proof (normalizeItems_run rawItems) as S.
  pose proof (itemsOf_all rawItems) as All.
  destruct (existsb Props.throws rawItems);
    [rewrite RUN in S; discriminate|].
  specialize (All eq_refl).
  destruct S as [items' [R [O W]]]. rewrite RUN in R. injection R as <-.
  assert (Cover : forall raw, In (ShelfLifeRoute.Item raw) rawItems ->
                    In (Props.requestedName raw)
                       (map NormalizedItem.canonicalName items)).
  { intros raw H. rewrite O. apply itemsOf_In in H.
    destruct (firstOccurrences_In []
                (map Props.requestedName (Props.itemsOf rawItems))
                (Props.requestedName raw)) as [[] | F]; [|exact F].
    apply in_map. exact H. }
  split; [exact All|].
  split; [exact O|]. split; [|split; [|split; [|split]]].
  - rewrite O. apply firstOccurrences_NoDup.
  - exact Cover.
  - intros raw H N C. specialize (Cover raw H).
    unfold Props.requestedName in Cover. rewrite N, C in Cover. exact Cover.
  - exact W.
  - rewrite <- (length_map NormalizedItem.canonicalName), O.
    rewrite All at 2. rewrite length_map.
    rewrite <- (length_map Props.requestedName (Props.itemsOf rawItems)).
    apply firstOccurrences_length.
Qed.

(** [normalizeItems] throws exactly when some element of the request is
    [null], of which no property can be read, or is an item that has no
    canonical name of its own and a name that normalizes to [constructor]:
    the canonical name resolved for it is no string and has no method
    [trim].  The error is a [TypeError]. *)
Theorem normalizeItems_fails_on_constructor
        (rawItems : list ShelfLifeRoute.element) :
  (ShelfLifeRoute.normalizeItems rawItems = Throw TypeError
   <-> In ShelfLifeRoute.Null rawItems
       \/ exists raw, In (ShelfLifeRoute.Item raw) rawItems
                      /\ Props.namedConstructor raw = true)
  /\ (forall e, ShelfLifeRoute.normalizeItems rawItems = Throw e ->
                e = TypeError)
  /\ ShelfLifeRoute.normalizeItems
       [ ShelfLifeRoute.Item
           {| ShelfLifeRequestItem.name := Some "Constructor";
              ShelfLifeRequestItem.canonicalName := None |} ]
     = Throw TypeError
  /\ ShelfLifeRoute.normalizeItems
       [ ShelfLifeRoute.Item
           {| ShelfLifeRequestItem.name := Some "milk";
              ShelfLifeRequestItem.canonicalName := None |};
         ShelfLifeRoute.Null ]
     = Throw TypeError.
Proof.
  pose proof (normalizeItems_run rawItems) as S.
  assert (T : existsb Props.throws rawItems = true
              <-> In ShelfLifeRoute.Null rawItems
                  \/ exists raw, In (ShelfLifeRoute.Item raw) rawItems
                                 /\ Props.namedConstructor raw = true).
  { rewrite existsb_exists. split.
    - intros [[|raw] [H N]]; [left; exact H | right; exists raw; auto].
    - intros [H | [raw [H N]]]; eexists; (split; [exact H|]);
        [reflexivity | exact N]. }
  destruct (existsb Props.throws rawItems) eqn:E.
  - split; [|split; [|split; vm_compute; reflexivity]].
    + split; [|intros _; exact S]. intros _. apply T. reflexivity.
    + intros e H. rewrite S in H. congruence.
  - destruct S as [items [R _]].
    split; [|split; [|split; vm_compute; reflexivity]].
    + split; [rewrite R; discriminate|].
      intros H. apply T in H. discriminate H.
    + intros e H. rewrite R in H. discriminate.
Qed.

(** ** Fallback shelf lives *)

Lemma buildFallback_assoc (items : list NormalizedItem.t) :
  forall (acc : list (string * value Z)) (k : string),
    assoc k
      (fold_left
         (fun acc item =>
            let key := NormalizedItem.canonicalName item in
            if String.eqb key "__proto__" then acc
            else ReceiptParser.mapSet key (ShelfLife.getShelfLifeDays key) acc)
         items acc)
    = if existsb (String.eqb k) (map NormalizedItem.canonicalName items)
         && negb (String.eqb k "__proto__")
      then Some (ShelfLife.getShelfLifeDays k)
      else assoc k acc.
Proof.
  induction items as [|item items IH]; intros acc k; [reflexivity|].
  cbn [fold_left map existsb]. rewrite IH. cbv zeta.
  destruct (existsb (String.eqb k) (map NormalizedItem.canonicalName items)
            && negb (String.eqb k "__proto__")) eqn:E.
  - apply andb_true_iff in E. destruct E as [E1 E2].
    rewrite E1, E2, orb_true_r. reflexivity.
  - destruct (String.eqb k (NormalizedItem.canonicalName item)) eqn:K;
      cbn [orb andb].
    + apply String.eqb_eq in K. subst k.
      destruct (String.eqb (NormalizedItem.canonicalName item) "__proto__");
        cbn [negb]; [reflexivity | apply mapSet_same].
    + rewrite E.
      destruct (String.eqb (NormalizedItem.canonicalName item) "__proto__");
        [reflexivity|].
      apply mapSet_other. apply String.eqb_neq. exact K.
Qed.

(** The members of [Object.prototype] whose names are in lower case *)
Lemma lower_member (k : string) :
  toLowerCase k = k -> inb k objectPrototype = true ->
  k = "constructor" \/ k = "__proto__".
Proof.
  intros L H. unfold inb in H. apply existsb_exists in H.
  destruct H as [m [Hm E]]. apply String.eqb_eq in E. subst m.
  assert (T : forallb (fun m => negb (String.eqb (toLowerCase m) m)
                                || String.eqb m "constructor"
                                || String.eqb m "__proto__")
                      objectPrototype = true) by (vm_compute; reflexivity).
  rewrite forallb_forall in T. specialize (T k Hm).
  rewrite L, String.eqb_refl in T. cbn [negb orb] in T.
  apply orb_true_iff in T. destruct T as [T | T]; apply String.eqb_eq in T;
    auto.
Qed.

(** The fallback shelf lives of a request.  [buildFallbackShelfLife] has
    an entry for every name that [normalizeItems] lists except [__proto__],
    and for no other name.  The entry is a number of days, the one of the
    table or 7, always from 2 to 45, except for the name [constructor],
    whose entry is the function [Object.prototype.constructor]. *)
Theorem fallback_shelf_life_entries
        (rawItems : list ShelfLifeRoute.element)
        (items : list NormalizedItem.t) :
  ShelfLifeRoute.normalizeItems rawItems = Ok items ->
  let fallback := ShelfLifeRoute.buildFallbackShelfLife items in
  (forall k, assoc k fallback <> None ->
             In k (map NormalizedItem.canonicalName items))
  /\ (forall k,
        In k (map NormalizedItem.canonicalName items) ->
        (k = "__proto__" /\ assoc k fallback = None)
        \/ (k = "constructor"
            /\ assoc k fallback = Some (Member "constructor"))
        \/ (exists days,
              assoc k fallback = Some (Just days)
              /\ (2 <= days <= 45)%Z
              /\ (assoc k ShelfLife.SHELF_LIFE_BY_INGREDIENT = None ->
                  days = 7%Z)
              /\ (forall d,
                    assoc k ShelfLife.SHELF_LIFE_BY_INGREDIENT = Some d ->
                    days = d))).
Proof.
  intros RUN fallback.
  pose proof (normalizeItems_run rawItems) as S.
  destruct (existsb Props.throws rawItems);
    [rewrite RUN in S; discriminate|].
  destruct S as [items' [R [_ W]]]. rewrite RUN in R. injection R as <-.
  assert (A : forall k,
             assoc k fallback
             = if existsb (String.eqb k)
                    (map NormalizedItem.canonicalName items)
                  && negb (String.eqb k "__proto__")
               then Some (ShelfLife.getShelfLifeDays k) else None).
  { intros k. unfold fallback, ShelfLifeRoute.buildFallbackShelfLife.
    rewrite buildFallback_assoc. reflexivity. }
  split.
  - intros k H. rewrite A in H.
    destruct (existsb (String.eqb k)
                (map NormalizedItem.canonicalName items)) eqn:E;
      [|contradiction H; reflexivity].
    apply existsb_exists in E. destruct E as [x [Hx E]].
    apply String.eqb_eq in E. subst x. exact Hx.
  - intros k H. rewrite A.
    assert (E : existsb (String.eqb k)
                  (map NormalizedItem.canonicalName items) = true).
    { apply existsb_exists. exists k. split; [exact H|].
      apply String.eqb_refl. }
    rewrite E. cbn [andb].
    destruct (String.eqb k "__proto__") eqn:P; cbn [negb].
    + apply String.eqb_eq in P. left. split; [exact P | reflexivity].
    + right. apply in_map_iff in H. destruct H as [item [<- H]].
      destruct (W item H) as [_ [_ [L _]]].
      destruct (inb (NormalizedItem.canonicalName item) objectPrototype)
        eqn:I.
      * destruct (lower_member _ L I) as [C | C];
          [|rewrite C in P; discriminate].
        left. split; [exact C|]. rewrite C. reflexivity.
      * right. destruct (shelfLife_range _ I) as [days [G [R D]]].
        exists days. rewrite G. split; [reflexivity|].
        split; [exact R|]. split; [exact D|].
        intros d T. unfold ShelfLife.getShelfLifeDays, getProperty in G.
        rewrite T in G. injection G as <-. reflexivity.
Qed.

Lemma normalizeItems_witness :
  let rawItems :=
    map ShelfLifeRoute.Item
      [ {| ShelfLifeRequestItem.name := Some " Milk 2% ";
           ShelfLifeRequestItem.canonicalName := None |};
        {| ShelfLifeRequestItem.name := None;
           ShelfLifeRequestItem.canonicalName := Some " Constructor " |};
        {| ShelfLifeRequestItem.name := None;
           ShelfLifeRequestItem.canonicalName := None |};
        {| ShelfLifeRequestItem.name := Some "MILK";
           ShelfLifeRequestItem.canonicalName := Some "" |} ] in
  let items :=
    [ {| NormalizedItem.canonicalName := "milk";
         NormalizedItem.displayName := "Milk 2%" |};
      {| NormalizedItem.canonicalName := "constructor";
         NormalizedItem.displayName := "constructor" |};
      {| NormalizedItem.canonicalName := "unknown";
         NormalizedItem.displayName := "unknown" |} ] in
  ShelfLifeRoute.normalizeItems rawItems = Ok items
  /\ NoDup (map NormalizedItem.canonicalName items)
  /\ (List.length items <= List.length rawItems)%nat.
Proof.
  intros rawItems items.
  assert (RUN : ShelfLifeRoute.normalizeItems rawItems = Ok items)
    by (vm_compute; reflexivity).
  split; [exact RUN|].
  destruct (normalizeItems_lists_each_name_once rawItems items RUN)
    as (_ & _ & N & _ & _ & _ & L).
  split; [exact N | exact L].
Defined.

Lemma fallback_shelf_life_witness :
  let rawItems :=
    map ShelfLifeRoute.Item
      [ {| ShelfLifeRequestItem.name := Some "Milk";
           ShelfLifeRequestItem.canonicalName := None |};
        {| ShelfLifeRequestItem.name := None;
           ShelfLifeRequestItem.canonicalName := Some "constructor" |} ] in
  let items :=
    [ {| NormalizedItem.canonicalName := "milk";
         NormalizedItem.displayName := "Milk" |};
      {| NormalizedItem.canonicalName := "constructor";
         NormalizedItem.displayName := "constructor" |} ] in
  ShelfLifeRoute.normalizeItems rawItems = Ok items
  /\ forall k,
       assoc k (ShelfLifeRoute.buildFallbackShelfLife items) <> None ->
       In k ["milk"; "constructor"].
Proof.
  intros rawItems items.
  assert (RUN : ShelfLifeRoute.normalizeItems rawItems = Ok items)
    by (vm_compute; reflexivity).
  split; [exact RUN|].
  destruct (fallback_shelf_life_entries rawItems items RUN) as [K _].
  exact K.
Defined.


(** ** Lines that are ignored *)

Lemma rmatch_litI {A : Type} (word : string) :
  forall (middle rest : list ascii) (prev : option ascii)
         (cap : option (list ascii))
         (k : option ascii -> list ascii -> option (list ascii) -> option A),
    map lowerChar middle = map lowerChar (chars word) ->
    exists p,
      Regex.rmatch (Regex.litI word) prev (middle ++ rest) cap k
      = k p rest cap.
Proof.
  induction word as [|c word IH]; intros middle rest prev cap k E.
  - destruct middle; [|discriminate]. exists prev. reflexivity.
  - destruct middle as [|x middle]; [discriminate|].
    cbn [chars list_ascii_of_string map] in E. injection E as X E.
    assert (P : Ascii.eqb (lowerChar x) (lowerChar c) = true)
      by (apply Ascii.eqb_eq; exact X).
    destruct word as [|c' word].
    + destruct middle; [|discriminate].
      exists (Some x). cbn. rewrite P. reflexivity.
    + destruct (IH middle rest (Some x) cap k E) as [p Hp].
      exists p. rewrite <- Hp.
      change (Regex.litI (String c (String c' word)))
        with (Regex.Cat (Regex.chrI c) (Regex.litI (String c' word))).
      cbn [Regex.rmatch Regex.chrI app]. rewrite P. reflexivity.
Qed.

Lemma execFrom_litI (word : string) (before middle after : list ascii) :
  map lowerChar middle = map lowerChar (chars word) ->
  forall prev,
    Regex.execFrom (Regex.litI word) prev (before ++ middle ++ after) <> None.
Proof.
  intros E. induction before as [|c before IH]; intros prev.
  - cbn [app]. unfold Regex.matchAt.
    assert (M : Regex.matchAt (Regex.litI word) prev (middle ++ after)
                <> None).
    { unfold Regex.matchAt.
      destruct (rmatch_litI word middle after prev None
                  (fun _ s' cap => Some (s', cap)) E) as [p Hp].
      rewrite Hp. discriminate. }
    destruct (middle ++ after); cbn [Regex.execFrom];
      destruct (Regex.matchAt (Regex.litI word) prev _);
      try discriminate; contradiction M; reflexivity.
  - cbn [app Regex.execFrom].
    destruct (Regex.matchAt (Regex.litI word) prev
                (c :: before ++ middle ++ after)); [discriminate|].
    apply IH.
Qed.

Lemma ignored_line (word line : string) :
  In word Props.ignoredWords -> Props.mentions word line ->
  ReceiptParser.parseLine line = None.
Proof.
  intros W [before [middle [after [C E]]]].
  unfold ReceiptParser.parseLine.
  assert (T : existsb (fun pattern => Regex.test pattern line)
                ReceiptParser.IGNORED_LINE_PATTERNS = true).
  { apply existsb_exists. exists (Regex.litI word). split.
    - assert (F : map Regex.litI Props.ignoredWords
                  = firstn 14 ReceiptParser.IGNORED_LINE_PATTERNS)
        by reflexivity.
      apply (firstn_In 14). rewrite <- F. apply in_map. exact W.
    - unfold Regex.test. rewrite C.
      pose proof (execFrom_litI word before middle after E None) as X.
      destruct (Regex.execFrom (Regex.litI word) None
                  (before ++ middle ++ after)); [reflexivity|].
      contradiction X. reflexivity. }
  rewrite T. reflexivity.
Qed.

(** The line from which a returned item stems *)
Lemma returned_item_line (rawText : string) (item : ParsedReceiptItem.t) :
  In item (ReceiptParser.parseReceiptText rawText) ->
  In (ParsedReceiptItem.rawLine item) (ReceiptParser.splitLines rawText)
  /\ ReceiptParser.parseLine (ParsedReceiptItem.rawLine item) <> None.
Proof.
  unfold ReceiptParser.parseReceiptText, ReceiptParser.dedupe,
    ReceiptParser.mapValues.
  intros H. apply in_map_iff in H. destruct H as [[k item'] [E H]].
  cbn in E. subst item'. apply dedupe_entry in H.
  destruct H as [first [group [F [-> K]]]].
  assert (G : In first
                (ReceiptParser.parseLines (ReceiptParser.splitLines rawText))).
  { assert (Hp : In first (first :: group)) by (left; reflexivity).
    rewrite <- F in Hp. apply filter_In in Hp. tauto. }
  apply parseLines_In in G. destruct G as [line [Hl Hp]].
  destruct (mergeLoop_fields group first) as [R _]. rewrite R.
  destruct (parseLine_fields _ _ Hp) as [F1 _]. rewrite F1.
  split; [exact Hl|]. rewrite Hp. discriminate.
Qed.

(** A line that contains one of the fourteen ignored words, in any case of
    the letters and also inside a longer word, is skipped: no returned item
    stems from such a line.  So cashews, which contain [cash], and dates
    are never returned. *)
Theorem lines_with_ignored_words_are_dropped :
  (forall word line,
     In word Props.ignoredWords -> Props.mentions word line ->
     ReceiptParser.parseLine line = None)
  /\ (forall rawText item word,
        In item (ReceiptParser.parseReceiptText rawText) ->
        In word Props.ignoredWords ->
        ~ Props.mentions word (ParsedReceiptItem.rawLine item))
  /\ map ParsedReceiptItem.rawLine
       (ReceiptParser.parseReceiptText
          (Props.text ["Cashews 4.99"; "Medjool Dates"; "Milk 2.49"]))
     = ["Milk 2.49"].
Proof.
  split; [exact ignored_line|]. split; [|vm_compute; reflexivity].
  intros rawText item word H W M.
  destruct (returned_item_line rawText item H) as [_ P].
  apply P. apply (ignored_line word); assumption.
Qed.


(** ** The date shown in the editor *)

Lemma DayFromYear_mono (a b : Z) :
  (a < b)%Z -> (JSDate.DayFromYear (a + 1) <= JSDate.DayFromYear b)%Z.
Proof.
  intros H. unfold JSDate.DayFromYear. Z.div_mod_to_equations. lia.
Qed.

Lemma YearFromTime_unique (t y : Z) :
  (JSDate.DayFromYear y <= JSDate.Day t < JSDate.DayFromYear (y + 1))%Z ->
  JSDate.YearFromTime t = y.
Proof.
  intros H. pose proof (YearFromTime_spec t) as S.
  destruct (Z.lt_trichotomy (JSDate.YearFromTime t) y) as [L | [E | G]];
    [|exact E|].
  - pose proof (DayFromYear_mono _ _ L). lia.
  - pose proof (DayFromYear_mono _ _ G). lia.
Qed.

Lemma Day_of_midnight (day : Z) :
  JSDate.Day (JSDate.MakeDate day 0) = day
  /\ JSDate.TimeWithinDay (JSDate.MakeDate day 0) = 0%Z.
Proof.
  unfold JSDate.Day, JSDate.TimeWithinDay, JSDate.MakeDate, JSDate.msPerDay.
  rewrite Z.add_0_r. split.
  - apply Z.div_mul. lia.
  - apply Z.mod_mul. lia.
Qed.

(** The calendar date of the day that [MakeDay] builds from a date of the
    calendar. *)
Lemma calendar_of_MakeDay (y m d : Z) :
  (1 <= m <= 12)%Z -> (1 <= d <= JSDate.daysInMonth y m)%Z ->
  let t := JSDate.MakeDate (JSDate.MakeDay y (m - 1) d) 0 in
  JSDate.YearFromTime t = y
  /\ JSDate.MonthFromTime t = (m - 1)%Z
  /\ JSDate.DateFromTime t = d.
Proof.
  intros M D t.
  destruct (Day_of_midnight (JSDate.MakeDay y (m - 1) d)) as [Dy _].
  fold t in Dy.
  assert (MD : JSDate.MakeDay y (m - 1) d
               = (JSDate.DayFromYear y
                  + JSDate.monthStart (JSDate.leapDays y) (m - 1) + d - 1)%Z).
  { unfold JSDate.MakeDay.
    rewrite (Z.div_small (m - 1) 12), (Z.mod_small (m - 1) 12) by lia.
    rewrite Z.add_0_r. reflexivity. }
  pose proof (leapDays_range y) as L.
  pose proof (DayFromYear_succ y) as S.
  assert (W : (0 <= JSDate.monthStart (JSDate.leapDays y) (m - 1) + d - 1
               < 365 + JSDate.leapDays y)%Z
              /\ JSDate.MonthFromTime t = (m - 1)%Z
                 \/ JSDate.YearFromTime t <> y).
  { destruct (Z.eq_dec (JSDate.YearFromTime t) y) as [Y | Y];
      [left | right; exact Y].
    unfold JSDate.MonthFromTime, JSDate.DayWithinYear.
    rewrite Y, Dy, MD. unfold JSDate.daysInMonth in D.
    set (l := JSDate.leapDays y) in *. clearbody l.
    assert (C : (m = 1 \/ m = 2 \/ m = 3 \/ m = 4 \/ m = 5 \/ m = 6
                 \/ m = 7 \/ m = 8 \/ m = 9 \/ m = 10 \/ m = 11
                 \/ m = 12)%Z) by lia.
    clear S Y Dy MD M.
    destruct L as [-> | ->];
      repeat (destruct C as [-> | C]); try subst m;
      cbv beta iota in D;
      repeat match goal with
             | |- context [JSDate.monthStart ?l (?a - 1)%Z] =>
                 let v := eval vm_compute in (a - 1)%Z in
                 change (JSDate.monthStart l (a - 1)%Z)
                   with (JSDate.monthStart l v)
             end;
      cbn [JSDate.monthStart];
      (split; [lia|]);
      repeat match goal with
             | |- context [(?a <? ?b)%Z] =>
                 destruct (Z.ltb_spec a b); try lia
             end; reflexivity. }
  assert (Y : JSDate.YearFromTime t = y).
  { apply YearFromTime_unique. rewrite Dy, MD, S.
    unfold JSDate.daysInMonth in D. unfold JSDate.leapDays in *.
    set (l := (JSDate.DaysInYear y - 365)%Z) in *.
    assert (C : (m = 1 \/ m = 2 \/ m = 3 \/ m = 4 \/ m = 5 \/ m = 6
                 \/ m = 7 \/ m = 8 \/ m = 9 \/ m = 10 \/ m = 11
                 \/ m = 12)%Z) by lia.
    clear W S Dy MD M.
    assert (E : JSDate.DaysInYear y = (365 + l)%Z) by (unfold l; lia).
    rewrite E. clearbody l. clear E.
    destruct L as [-> | ->];
      repeat (destruct C as [-> | C]); try subst m;
      cbv beta iota in D;
      repeat match goal with
             | |- context [JSDate.monthStart ?l (?a - 1)%Z] =>
                 let v := eval vm_compute in (a - 1)%Z in
                 change (JSDate.monthStart l (a - 1)%Z)
                   with (JSDate.monthStart l v)
             end;
      cbn [JSDate.monthStart];
      lia. }
  destruct W as [[W Mo] | N]; [|contradiction N].
  split; [exact Y|]. split; [exact Mo|].
  unfold JSDate.DateFromTime, JSDate.DayWithinYear.
  rewrite Y, Mo, Dy, MD. lia.
Qed.

Lemma daysInMonth_le_31 (y m : Z) : (JSDate.daysInMonth y m <= 31)%Z.
Proof.
  pose proof (leapDays_range y). unfold JSDate.daysInMonth.
  repeat match goal with
         | |- context [match ?x with _ => _ end] => destruct x
         end; lia.
Qed.

(** [new Date] of the text of a calendar date is midnight, UTC, of that
    date, on every host. *)
Lemma newDate_dateText (h : JSDate.Host) (y m d : Z) :
  (0 <= y <= 9999)%Z -> (1 <= m <= 12)%Z ->
  (1 <= d <= JSDate.daysInMonth y m)%Z ->
  JSDate.newDate h (Props.dateText y m d)
  = Some (JSDate.MakeDate (JSDate.MakeDay y (m - 1) d) 0).
Proof.
  intros Y M D.
  pose proof (daysInMonth_le_31 y m) as D31.
  destruct (calendar_of_MakeDay y m d M D) as [Yt _]. cbv zeta in Yt.
  assert (C : (0 <= JSDate.YearFromTime
                      (JSDate.MakeDate (JSDate.MakeDay y (m - 1) d) 0)
               <= 9999)%Z) by (rewrite Yt; exact Y).
  apply year_range_time in C.
  set (t := JSDate.MakeDate (JSDate.MakeDay y (m - 1) d) 0) in *.
  clear Yt.
  destruct (pad4_digits y ltac:(lia)) as [y1 [y2 [y3 [y4 [Py Dy]]]]].
  destruct (pad2_digits m ltac:(lia)) as [m1 [m2 [Pm Dm]]].
  destruct (pad2_digits d ltac:(lia)) as [d1 [d2 [Pd Dd]]].
  unfold Props.dateText. rewrite Py, Pm, Pd.
  unfold JSDate.newDate, JSDate.parseFormat.
  cbn [str string_of_list_ascii append chars list_ascii_of_string].
  cbv beta iota. rewrite Dy, Dm, Dd.
  replace ((1 <=? m)%Z && (m <=? 12)%Z && (1 <=? d)%Z
           && (d <=? JSDate.daysInMonth y m)%Z) with true
    by (symmetry; rewrite !andb_true_iff, !Z.leb_le; lia).
  fold t. unfold JSDate.TimeClip.
  replace (8640000000000000 <? Z.abs t)%Z with false
    by (symmetry; apply Z.ltb_ge; lia).
  reflexivity.
Qed.

(** The first ten characters of the ISO form are the calendar date. *)
Lemma slice_formatTime (t : Z) :
  (0 <= JSDate.YearFromTime t <= 9999)%Z ->
  HomePage.slice0 10 (JSDate.formatTime t)
  = Props.dateText (JSDate.YearFromTime t) (JSDate.MonthFromTime t + 1)
      (JSDate.DateFromTime t).
Proof.
  intros R.
  pose proof (MonthFromTime_range t) as M.
  pose proof (DateFromTime_range t) as D.
  pose proof (daysInMonth_le_31 (JSDate.YearFromTime t)
                (JSDate.MonthFromTime t + 1)) as D31.
  unfold JSDate.formatTime, Props.dateText.
  replace ((0 <=? JSDate.YearFromTime t)%Z && (JSDate.YearFromTime t <=? 9999)%Z)
    with true by (symmetry; apply andb_true_iff; split; apply Z.leb_le; lia).
  destruct (pad4_digits (JSDate.YearFromTime t) ltac:(lia))
    as [y1 [y2 [y3 [y4 [Py _]]]]].
  destruct (pad2_digits (JSDate.MonthFromTime t + 1) ltac:(lia))
    as [m1 [m2 [Pm _]]].
  destruct (pad2_digits (JSDate.DateFromTime t) ltac:(lia))
    as [d1 [d2 [Pd _]]].
  rewrite Py, Pm, Pd. reflexivity.
Qed.

Lemma MakeDay_of_time (t : Z) :
  JSDate.MakeDay (JSDate.YearFromTime t) (JSDate.MonthFromTime t)
                 (JSDate.DateFromTime t) = JSDate.Day t.
Proof.
  pose proof (MakeDay_shift t 0) as S.
  rewrite Z.add_0_r, Z.mul_0_l, Z.add_0_r in S.
  revert S.
  generalize (JSDate.MakeDay (JSDate.YearFromTime t) (JSDate.MonthFromTime t)
                (JSDate.DateFromTime t)).
  intros day S.
  unfold JSDate.MakeDate, JSDate.TimeWithinDay in S. unfold JSDate.Day.
  change JSDate.msPerDay with 86400000%Z in *.
  pose proof (Z.div_mod t 86400000 ltac:(lia)) as E.
  assert (F : (day * 86400000 = 86400000 * (t / 86400000))%Z) by lia.
  clear S E.
  generalize dependent (t / 86400000)%Z. intros q F. lia.
Qed.

(** [toDateInputValue], which fills the date field of the editor.  On
    every host it returns the text of a calendar date unchanged, also after
    the date was stored as an expiration override, that is as
    [new Date(text).toISOString()].  For any valid date within the years 0
    to 9999 it returns the calendar date, UTC, of the instant; read as a
    date again, that text is midnight, UTC, of that day, the instant itself
    or an earlier one less than a day before it.  For a value that is no
    valid date it throws a [RangeError]. *)
Theorem toDateInputValue_round_trip (h : JSDate.Host) :
  (forall y m d,
     (0 <= y <= 9999)%Z -> (1 <= m <= 12)%Z ->
     (1 <= d <= JSDate.daysInMonth y m)%Z ->
     HomePage.toDateInputValue h (Props.dateText y m d)
     = Ok (Props.dateText y m d)
     /\ exists iso,
          JSDate.toISOString (JSDate.newDate h (Props.dateText y m d))
          = Ok iso
          /\ HomePage.toDateInputValue h iso = Ok (Props.dateText y m d))
  /\ (forall value t,
        JSDate.newDate h value = Some t ->
        (0 <= JSDate.YearFromTime t <= 9999)%Z ->
        let shown :=
          Props.dateText (JSDate.YearFromTime t) (JSDate.MonthFromTime t + 1)
            (JSDate.DateFromTime t) in
        HomePage.toDateInputValue h value = Ok shown
        /\ JSDate.newDate h shown = Some (JSDate.Day t * JSDate.msPerDay)%Z
        /\ (t - JSDate.msPerDay < JSDate.Day t * JSDate.msPerDay <= t)%Z)
  /\ (forall value,
        JSDate.newDate h value = None ->
        HomePage.toDateInputValue h value = Throw RangeError).
Proof.
  assert (Shown : forall value t,
            JSDate.newDate h value = Some t ->
            (0 <= JSDate.YearFromTime t <= 9999)%Z ->
            HomePage.toDateInputValue h value
            = Ok (Props.dateText (JSDate.YearFromTime t)
                    (JSDate.MonthFromTime t + 1) (JSDate.DateFromTime t))).
  { intros value t P R. unfold HomePage.toDateInputValue. rewrite P.
    cbn [JSDate.toISOString]. rewrite (slice_formatTime t R). reflexivity. }
  assert (Text : forall y m d,
            (0 <= y <= 9999)%Z -> (1 <= m <= 12)%Z ->
            (1 <= d <= JSDate.daysInMonth y m)%Z ->
            forall value,
              JSDate.newDate h value
              = Some (JSDate.MakeDate (JSDate.MakeDay y (m - 1) d) 0) ->
              HomePage.toDateInputValue h value = Ok (Props.dateText y m d)).
  { intros y m d Y M D value P.
    destruct (calendar_of_MakeDay y m d M D) as [Yt [Mt Dt]].
    cbv zeta in Yt, Mt, Dt.
    rewrite (Shown value _ P) by (rewrite Yt; exact Y).
    rewrite Yt, Mt, Dt. replace (m - 1 + 1)%Z with m by lia. reflexivity. }
  split; [|split].
  - intros y m d Y M D.
    pose proof (newDate_dateText h y m d Y M D) as P.
    split; [apply (Text y m d Y M D _ P)|].
    rewrite P. cbn [JSDate.toISOString]. eexists. split; [reflexivity|].
    apply (Text y m d Y M D).
    apply formatTime_newDate.
    destruct (calendar_of_MakeDay y m d M D) as [Yt _]. cbv zeta in Yt.
    rewrite Yt. exact Y.
  - intros value t P R shown. split; [apply (Shown value t P R)|].
    pose proof (MonthFromTime_range t) as M.
    pose proof (DateFromTime_range t) as D.
    split.
    + unfold shown. rewrite newDate_dateText by (try assumption; lia).
      replace (JSDate.MonthFromTime t + 1 - 1)%Z
        with (JSDate.MonthFromTime t) by lia.
      rewrite MakeDay_of_time. unfold JSDate.MakeDate.
      rewrite Z.add_0_r. reflexivity.
    + unfold JSDate.Day, JSDate.msPerDay.
      pose proof (Z.div_mod t 86400000 ltac:(lia)).
      pose proof (Z.mod_pos_bound t 86400000 ltac:(lia)). lia.
  - intros value P. unfold HomePage.toDateInputValue. rewrite P. reflexivity.
Qed.


(** ** Lines of prices, dates and times *)

(** A starred class takes a whole input made of the class, when what
    follows accepts the end of the input. *)
Lemma rmatch_star_all {A : Type} (p : ascii -> bool) (l : list ascii) :
  forall prev cap
         (k : option ascii -> list ascii -> option (list ascii) -> option A),
    forallb p l = true ->
    (forall prev' cap', k prev' [] cap' <> None) ->
    Regex.rmatch (Regex.Star (Regex.Class p)) prev l cap k <> None.
Proof.
  induction l as [|c l IH]; intros prev cap k P K.
  - cbn. apply K.
  - cbn [forallb] in P. apply andb_true_iff in P. destruct P as [Pc Pl].
    assert (U : Regex.rmatch (Regex.Star (Regex.Class p)) prev (c :: l) cap k
                = match
                    (if (List.length l <? List.length (c :: l))%nat
                     then Regex.rmatch (Regex.Star (Regex.Class p)) (Some c)
                            l cap k
                     else None)
                  with
                  | Some a => Some a
                  | None => k prev (c :: l) cap
                  end).
    { cbn [Regex.rmatch List.length]. rewrite Pc. reflexivity. }
    rewrite U.
    replace (List.length l <? List.length (c :: l))%nat with true
      by (symmetry; apply Nat.ltb_lt; cbn [List.length]; lia).
    specialize (IH (Some c) cap k Pl K).
    destruct (Regex.rmatch (Regex.Star (Regex.Class p)) (Some c) l cap k);
      [discriminate | contradiction IH; reflexivity].
Qed.

Lemma test_matchAt (r : Regex.regex) (line : string) :
  Regex.matchAt r None (chars line) <> None -> Regex.test r line = true.
Proof.
  unfold Regex.test. intros M.
  destruct (chars line) as [|c l]; cbn [Regex.execFrom];
    destruct (Regex.matchAt r None _); try reflexivity;
    contradiction M; reflexivity.
Qed.

Lemma ignored_pattern (r : Regex.regex) (line : string) :
  In r ReceiptParser.IGNORED_LINE_PATTERNS ->
  Regex.matchAt r None (chars line) <> None ->
  ReceiptParser.parseLine line = None.
Proof.
  intros H M. unfold ReceiptParser.parseLine.
  assert (T : existsb (fun pattern => Regex.test pattern line)
                ReceiptParser.IGNORED_LINE_PATTERNS = true).
  { apply existsb_exists. exists r. split; [exact H|].
    apply test_matchAt, M. }
  rewrite T. reflexivity.
Qed.

(** A line made of digits, white space and the characters [. , $ -] only,
    such as a price alone on its line, is skipped; so is a line that starts
    with a date or a time: one or two digits, [/] or [:], and a digit.  No
    returned item stems from such a line. *)
Theorem price_and_date_lines_are_dropped :
  (forall line,
     line <> "" ->
     forallb (fun c => isDigit c || isSpace c
                       || existsb (Ascii.eqb c) (chars ".,$-"))
             (chars line) = true ->
     ReceiptParser.parseLine line = None)
  /\ (forall d1 sep d2 rest,
        isDigit d1 = true -> existsb (Ascii.eqb sep) (chars "/:") = true ->
        isDigit d2 = true ->
        ReceiptParser.parseLine (str (d1 :: sep :: d2 :: rest)) = None
        /\ forall d0,
             isDigit d0 = true ->
             ReceiptParser.parseLine (str (d0 :: d1 :: sep :: d2 :: rest))
             = None)
  /\ (forall rawText item,
        In item (ReceiptParser.parseReceiptText rawText) ->
        forallb (fun c => isDigit c || isSpace c
                          || existsb (Ascii.eqb c) (chars ".,$-"))
                (chars (ParsedReceiptItem.rawLine item)) = false).
Proof.
  assert (Price : forall line,
            line <> "" ->
            forallb (fun c => isDigit c || isSpace c
                              || existsb (Ascii.eqb c) (chars ".,$-"))
                    (chars line) = true ->
            ReceiptParser.parseLine line = None).
  { intros line N P.
    apply (ignored_pattern (nth 15 ReceiptParser.IGNORED_LINE_PATTERNS
                                Regex.Eps)).
    { apply nth_In. cbn. lia. }
    cbn [nth ReceiptParser.IGNORED_LINE_PATTERNS].
    unfold Regex.matchAt, Regex.Plus.
    destruct (chars line) as [|c l] eqn:C.
    { contradiction N. rewrite <- (str_chars line), C. reflexivity. }
    cbn [forallb] in P. apply andb_true_iff in P. destruct P as [Pc Pl].
    cbn [Regex.rmatch]. rewrite Pc.
    apply (rmatch_star_all _ l (Some c) None _ Pl).
    intros prev' cap'. cbn. discriminate. }
  split; [exact Price|]. split.
  - intros d1 sep d2 rest D1 S D2.
    assert (Sd : isDigit sep = false).
    { cbn in S. rewrite orb_false_r in S. apply orb_true_iff in S.
      destruct S as [S | S]; apply Ascii.eqb_eq in S; subst sep;
        reflexivity. }
    assert (In15 : In (nth 14 ReceiptParser.IGNORED_LINE_PATTERNS Regex.Eps)
                      ReceiptParser.IGNORED_LINE_PATTERNS)
      by (apply nth_In; cbn; lia).
    split.
    + apply (ignored_pattern _ _ In15).
      cbn [nth ReceiptParser.IGNORED_LINE_PATTERNS]. rewrite chars_str.
      unfold Regex.matchAt, Regex.Opt, Regex.digit, Regex.oneOf.
      cbn [Regex.rmatch]. rewrite D1, Sd, S, D2.
      destruct rest as [|x rest]; [discriminate|].
      destruct (isDigit x); discriminate.
    + intros d0 D0. apply (ignored_pattern _ _ In15).
      cbn [nth ReceiptParser.IGNORED_LINE_PATTERNS]. rewrite chars_str.
      unfold Regex.matchAt, Regex.Opt, Regex.digit, Regex.oneOf.
      cbn [Regex.rmatch]. rewrite D0, D1, S, D2.
      destruct rest as [|x rest]; [discriminate|].
      destruct (isDigit x); discriminate.
  - intros rawText item H.
    destruct (returned_item_line rawText item H) as [L P].
    destruct (forallb _ (chars (ParsedReceiptItem.rawLine item))) eqn:F;
      [|reflexivity].
    exfalso. apply P. apply Price; [|exact F].
    apply (splitLines_trimmed rawText _ L).
Qed.
